(** * The automation node graph and run controller

    A shallow embedding of

    - [baserow/contrib/automation/nodes/handler.py]
      ([AutomationNodeHandler]: the backward-pointer graph, its mutations and
      the recursive dispatch),
    - [baserow/contrib/automation/nodes/service.py]
      ([AutomationNodeService]: the guarded entry points), and
    - [baserow/contrib/automation/workflows/handler.py]
      ([AutomationWorkflowHandler]: the admission checks and [start_workflow]).

    Database tables are finite maps keyed by primary key; a Python model
    instance is a primary key together with the field values it currently
    holds in memory, so that a stale instance and the row it was loaded from
    can differ, as they do in the source. *)

From Stdlib Require Import ZArith Lia.
From stdpp Require Import base option list gmap strings pretty sorting.

#[local] Set Warnings "-clear-no-such-hyp".

Open Scope Z_scope.

(* ===================================================================== *)
(** ** Graph store *)
(* ===================================================================== *)

(** The part of a registered node type the engine looks at
    ([AutomationNodeType] in [nodes/registries.py]). *)
Record AutomationNodeType := {
  type_name : string;
  is_workflow_trigger : bool;
  is_workflow_action : bool;
  is_fixed : bool;
}.

(** A row of the [AutomationNode] table.  The primary key is the key of the
    table.  [order] is a fixed-point decimal, kept as the integer number of
    its smallest unit.  [trashed] is the soft-delete flag; the default
    manager ([AutomationNode.objects], [workflow.automation_workflow_nodes])
    hides trashed rows. *)
Record NodeRow := {
  workflow_id : Z;
  node_type : AutomationNodeType;
  parent_node_id : option Z;
  previous_node_id : option Z;
  previous_node_output : string;
  order : Z;
  label : string;
  trashed : bool;
}.

(** A model instance in memory. *)
Record AutomationNode := {
  node_id : Z;
  node_row :> NodeRow;
}.

Abbreviation NodeTable := (gmap Z NodeRow).

Definition set_previous_node_id (p : option Z) (r : NodeRow) : NodeRow :=
  {| workflow_id := workflow_id r; node_type := node_type r;
     parent_node_id := parent_node_id r;
     previous_node_id := p;
     previous_node_output := previous_node_output r;
     order := order r; label := label r; trashed := trashed r |}.

Definition set_previous_node_output (o : string) (r : NodeRow) : NodeRow :=
  {| workflow_id := workflow_id r; node_type := node_type r;
     parent_node_id := parent_node_id r;
     previous_node_id := previous_node_id r;
     previous_node_output := o;
     order := order r; label := label r; trashed := trashed r |}.

Definition set_order (o : Z) (r : NodeRow) : NodeRow :=
  {| workflow_id := workflow_id r; node_type := node_type r;
     parent_node_id := parent_node_id r;
     previous_node_id := previous_node_id r;
     previous_node_output := previous_node_output r;
     order := o; label := label r; trashed := trashed r |}.

Definition set_trashed (b : bool) (r : NodeRow) : NodeRow :=
  {| workflow_id := workflow_id r; node_type := node_type r;
     parent_node_id := parent_node_id r;
     previous_node_id := previous_node_id r;
     previous_node_output := previous_node_output r;
     order := order r; label := label r; trashed := b |}.

(** [setattr(node, key, value)] on an instance. *)
Definition with_row (f : NodeRow → NodeRow) (n : AutomationNode) : AutomationNode :=
  {| node_id := node_id n; node_row := f (node_row n) |}.

(** The columns the handler names in [update_fields] and [bulk_update]. *)
Inductive Field := F_previous_node | F_previous_node_output | F_order.

(** Copy one column of the instance [src] into the row [dst]. *)
Definition copy_field (src : NodeRow) (dst : NodeRow) (f : Field) : NodeRow :=
  match f with
  | F_previous_node => set_previous_node_id (previous_node_id src) dst
  | F_previous_node_output => set_previous_node_output (previous_node_output src) dst
  | F_order => set_order (order src) dst
  end.

Definition copy_fields (fields : list Field) (src dst : NodeRow) : NodeRow :=
  foldl (copy_field src) dst fields.

(** [node.save(update_fields=fields)]: UPDATE ... WHERE id = node.id. *)
Definition save_fields (n : AutomationNode) (fields : list Field)
    (db : NodeTable) : NodeTable :=
  alter (copy_fields fields n) (node_id n) db.

(** [AutomationNode.objects.bulk_update(objs, fields)]. *)
Definition bulk_update (objs : list AutomationNode) (fields : list Field)
    (db : NodeTable) : NodeTable :=
  foldl (λ d n, save_fields n fields d) db objs.

(** Python truthiness of a string. *)
Definition str_truthy (s : string) : bool :=
  match s with EmptyString => false | _ => true end.

(** The instances a queryset yields: the untrashed rows satisfying [P]. *)
Definition query (P : NodeRow → bool) (db : NodeTable) : list AutomationNode :=
  (λ kr, {| node_id := kr.1; node_row := kr.2 |})
    <$> map_to_list (filter (λ kr, P kr.2 && negb (trashed kr.2) = true) db).

Definition opt_Z_eqb (a b : option Z) : bool := bool_decide (a = b).
Definition str_eqb (a b : string) : bool := bool_decide (a = b).

(** [get_next_nodes(workflow, node, output_uid)]: the nodes of the workflow
    whose [previous_node_id] is [node] (or null when [node] is None), narrowed
    to one output when [output_uid] is given.  [get_nodes], through which the
    query is run, is taken as the query it evaluates; its per-request cache
    is not part of the table and is left out. *)
Definition get_next_nodes (workflow : Z) (node : option AutomationNode)
    (output_uid : option string) (db : NodeTable) : list AutomationNode :=
  query (λ r,
    (workflow_id r =? workflow)
    && opt_Z_eqb (previous_node_id r) (node_id <$> node)
    && match output_uid with
       | Some uid => str_eqb (previous_node_output r) uid
       | None => true
       end) db.

(** [node.get_next_nodes(output_uid)], the instance method the handler calls:
    the same query for the node's own workflow. *)
Definition node_get_next_nodes (node : AutomationNode)
    (output_uid : option string) (db : NodeTable) : list AutomationNode :=
  get_next_nodes (workflow_id node) (Some node) output_uid db.

(** [update_previous_node(new_previous_node, nodes, previous_node_output)].
    Only the primary key of [new_previous_node] is stored, so the argument is
    that key (None for no previous node). *)
Definition update_previous_node (new_previous_node : option Z)
    (nodes : list AutomationNode) (previous_node_output : option string)
    (db : NodeTable) : list AutomationNode * NodeTable :=
  let update_kwargs :=
    F_previous_node ::
    match previous_node_output with
    | Some _ => [F_previous_node_output]
    | None => []
    end in
  let setattrs (n : AutomationNode) :=
    with_row (λ r,
      let r1 := set_previous_node_id new_previous_node r in
      match previous_node_output with
      | Some o => set_previous_node_output o r1
      | None => r1
      end) n in
  let updates := setattrs <$> nodes in
  (updates, bulk_update updates update_kwargs db).

(** The primary key the database hands to a newly inserted row: one past the
    largest key in the table (trashed rows included). *)
Definition fresh_id (db : NodeTable) : Z :=
  1 + map_fold (λ k _ acc, Z.max k acc) 0 db.

(** [node.save()] of a new instance: INSERT, returning the instance with its
    primary key. *)
Definition insert_node (r : NodeRow) (db : NodeTable) : AutomationNode * NodeTable :=
  let n := {| node_id := fresh_id db; node_row := r |} in
  (n, <[node_id n := r]> db).

(** Modelled from the spec: [AutomationNode.get_last_order] lives in
    [nodes/models.py], which is not part of the sources at hand.  The spec
    (4.2, Create and Duplicate) has the value "appended last": one past the
    largest [order] among the workflow's nodes. *)
Definition get_last_order (workflow : Z) (db : NodeTable) : Z :=
  1 + foldr Z.max 0
        ((λ n : AutomationNode, order n)
           <$> query (λ r, workflow_id r =? workflow) db).

(** The keyword arguments [create_node] looks at after [extract_allowed].
    [None] means the key is absent; [kw_previous_node_id = Some None] is the
    key present with the value None. *)
Record CreateKwargs := {
  kw_previous_node_id : option (option Z);
  kw_previous_node_output : option string;
  kw_parent_node_id : option Z;
  kw_label : option string;
  kw_order : option Z;
}.

(** [NextAutomationNodeValues]. *)
Record NextAutomationNodeValues := {
  nv_id : Z;
  nv_previous_node_id : option Z;
  nv_previous_node_output : string;
}.

Definition next_values (n : AutomationNode) : NextAutomationNodeValues :=
  {| nv_id := node_id n;
     nv_previous_node_id := previous_node_id n;
     nv_previous_node_output := previous_node_output n |}.

(** [AutomationNodeDuplication]. *)
Record AutomationNodeDuplication := {
  dup_source_node : AutomationNode;
  source_node_next_nodes_values : list NextAutomationNodeValues;
  duplicated_node : AutomationNode;
  duplicated_node_next_nodes_values : list NextAutomationNodeValues;
}.

(** [AutomationNodeMove]. *)
Record AutomationNodeMove := {
  move_node_node : AutomationNode;
  next_node_updates : list AutomationNode;
  origin_previous_node_id : option Z;
  origin_previous_node_output : string;
  origin_old_next_nodes_values : list NextAutomationNodeValues;
  origin_new_next_nodes_values : list NextAutomationNodeValues;
  destination_previous_node_id : option Z;
  destination_previous_node_output : string;
  destination_old_next_nodes_values : list NextAutomationNodeValues;
  destination_new_next_nodes_values : list NextAutomationNodeValues;
}.

Section GraphMutation.

(** Two helpers of [nodes/models.py] and [workflows/models.py] that only
    choose display orders and the append position; the handler passes their
    results through unchanged. *)
Variable get_unique_order_before_node : AutomationNode → option Z → NodeTable → Z.
Variable get_last_node_id : Z → option Z → NodeTable → option Z.

(** [AutomationNodeHandler.create_node]. *)
Definition create_node (node_type : AutomationNodeType) (workflow : Z)
    (before : option AutomationNode) (kwargs : CreateKwargs)
    (db : NodeTable) : AutomationNode * NodeTable :=
  let parent_node_id := kw_parent_node_id kwargs in
  (* if before: re-use its output, and find the nodes to relink *)
  let prepared_output :=
    match before with
    | Some b =>
        if str_truthy (previous_node_output b)
        then Some (previous_node_output b)
        else kw_previous_node_output kwargs
    | None => kw_previous_node_output kwargs
    end in
  let node_previous_ids_to_update :=
    match before with
    | Some b =>
        query (λ r,
          (workflow_id r =? workflow)
          && opt_Z_eqb (previous_node_id r)
               (Some (match previous_node_id b with
                      | None => node_id b
                      | Some p => p
                      end))
          && str_eqb (previous_node_output r) (previous_node_output b)) db
    | None => []
    end in
  (* if "previous_node_id" not in allowed_prepared_values *)
  let prepared_previous :=
    match kw_previous_node_id kwargs with
    | Some p => p
    | None =>
        match before with
        | Some b => previous_node_id b
        | None => get_last_node_id workflow parent_node_id db
        end
    end in
  let order :=
    match before with
    | Some b => get_unique_order_before_node b parent_node_id db
    | None =>
        match kw_order kwargs with
        | Some o => if o =? 0 then get_last_order workflow db else o
        | None => get_last_order workflow db
        end
    end in
  let '(node, db1) :=
    insert_node
      {| workflow_id := workflow; node_type := node_type;
         parent_node_id := parent_node_id;
         previous_node_id := prepared_previous;
         previous_node_output := default "" prepared_output;
         order := order;
         label := default "" (kw_label kwargs);
         trashed := false |} db in
  let db2 :=
    match node_previous_ids_to_update with
    | [] => db1
    | _ => (update_previous_node (Some (node_id node))
              node_previous_ids_to_update None db1).2
    end in
  let db3 :=
    match before with
    | Some b =>
        if str_truthy (previous_node_output b)
        then save_fields (with_row (set_previous_node_output "") b)
               [F_previous_node_output] db2
        else db2
    | None => db2
    end in
  (node, db3).

(** [AutomationNodeHandler.move_node]. *)
Definition move_node (node after_node : AutomationNode)
    (new_output : option string) (new_order : option Z)
    (db : NodeTable) : AutomationNodeMove * NodeTable :=
  let origin_next_nodes := node_get_next_nodes node None db in
  let origin_old_next_nodes_values := next_values <$> origin_next_nodes in
  let '(updated_origin_next_nodes, db1) :=
    update_previous_node (previous_node_id node) origin_next_nodes
      (Some (previous_node_output node)) db in
  let origin_new_next_nodes_values := next_values <$> updated_origin_next_nodes in
  let destination_next_nodes := node_get_next_nodes after_node new_output db1 in
  let destination_old_next_nodes_values := next_values <$> destination_next_nodes in
  let origin_previous_node_id := previous_node_id node in
  let origin_previous_node_output := previous_node_output node in
  (* previous_node_output or "" *)
  let node_output := default "" new_output in
  (* order or get_unique_order_before_node(after_node, after_node.parent_node) *)
  let node_order :=
    match new_order with
    | Some o =>
        if o =? 0
        then get_unique_order_before_node after_node (parent_node_id after_node) db1
        else o
    | None => get_unique_order_before_node after_node (parent_node_id after_node) db1
    end in
  let node' :=
    with_row (λ r, set_order node_order
                (set_previous_node_output node_output
                   (set_previous_node_id (Some (node_id after_node)) r))) node in
  let db2 := save_fields node' [F_previous_node; F_previous_node_output; F_order] db1 in
  (* previous_node_output="" if previous_node_output else None *)
  let '(updated_destination_next_nodes, db3) :=
    update_previous_node (Some (node_id node')) destination_next_nodes
      (if str_truthy node_output then Some "" else None) db2 in
  ({| move_node_node := node';
      next_node_updates := updated_origin_next_nodes ++ updated_destination_next_nodes;
      origin_previous_node_id := origin_previous_node_id;
      origin_previous_node_output := origin_previous_node_output;
      origin_old_next_nodes_values := origin_old_next_nodes_values;
      origin_new_next_nodes_values := origin_new_next_nodes_values;
      destination_previous_node_id := previous_node_id node';
      destination_previous_node_output := previous_node_output node';
      destination_old_next_nodes_values := destination_old_next_nodes_values;
      destination_new_next_nodes_values := next_values <$> updated_destination_next_nodes |},
   db3).

End GraphMutation.

(** [export_node] followed by [import_node]: the serialized form carries the
    node's columns; importing inserts a new row from them.  The id mapping
    [duplicate_node] passes is a [MirrorDict], which maps every key to
    itself, so [previous_node_id] and [parent_node_id] come back unchanged. *)
Definition export_node (n : AutomationNode) : NodeRow := node_row n.

Definition import_node (workflow : Z) (serialized_node : NodeRow)
    (db : NodeTable) : AutomationNode * NodeTable :=
  insert_node
    {| workflow_id := workflow; node_type := node_type serialized_node;
       parent_node_id := parent_node_id serialized_node;
       previous_node_id := previous_node_id serialized_node;
       previous_node_output := previous_node_output serialized_node;
       order := order serialized_node;
       label := label serialized_node;
       trashed := false |} db.

(** [AutomationNodeHandler.duplicate_node]. *)
Definition duplicate_node (source_node : AutomationNode)
    (db : NodeTable) : AutomationNodeDuplication * NodeTable :=
  let exported_node := export_node source_node in
  let source_node_next_nodes := node_get_next_nodes source_node (Some "") db in
  let source_node_next_nodes_values := next_values <$> source_node_next_nodes in
  let exported_node :=
    set_previous_node_id (Some (node_id source_node))
      (set_previous_node_output ""
         (set_order (get_last_order (workflow_id source_node) db) exported_node)) in
  let '(duplicated_node, db1) :=
    import_node (workflow_id source_node) exported_node db in
  let db2 :=
    (update_previous_node (Some (node_id duplicated_node))
       source_node_next_nodes None db1).2 in
  let duplicated_node_next_nodes := node_get_next_nodes duplicated_node (Some "") db2 in
  ({| dup_source_node := source_node;
      source_node_next_nodes_values := source_node_next_nodes_values;
      duplicated_node := duplicated_node;
      duplicated_node_next_nodes_values := next_values <$> duplicated_node_next_nodes |},
   db2).

(* ===================================================================== *)
(** ** Dispatch engine *)
(* ===================================================================== *)

(** What a node's business logic returns on success. *)
Record DispatchResult := {
  data : string;
  output_uid : string;
  status_code : Z;
}.

(** The exceptions the engine tells apart.  [OtherDispatchException] is any
    [DispatchException] other than the misconfiguration one;
    [UnexpectedException] is any other [Exception]; [RecursionError] is what
    the interpreter raises when the call stack is exhausted. *)
Inductive Exception :=
  | ServiceImproperlyConfiguredDispatchException (msg : string)
  | OtherDispatchException (msg : string)
  | AutomationNodeMisconfiguredService (msg : string)
  | AutomationWorkflowTooManyErrors (msg : string)
  | AutomationWorkflowRateLimited (msg : string)
  | RecursionError
  | UnexpectedException (msg : string).

Definition exception_str (e : Exception) : string :=
  match e with
  | ServiceImproperlyConfiguredDispatchException m
  | OtherDispatchException m
  | AutomationNodeMisconfiguredService m
  | AutomationWorkflowTooManyErrors m
  | AutomationWorkflowRateLimited m
  | UnexpectedException m => m
  | RecursionError => "maximum recursion depth exceeded"
  end.

(** [AutomationDispatchContext]: the workflow being run, the event payload,
    the simulate-until target and the results recorded so far. *)
Record AutomationDispatchContext := {
  ctx_workflow : Z;
  event_payload : string;
  simulate_until_node : option Z;
  previous_nodes_results : gmap Z DispatchResult;
}.

(** The effects of a dispatch that can be observed from outside. *)
Inductive Effect :=
  | Dispatched (node : Z)
  | SampleDataRefreshed (node : Z)
  | NodeUpdatedSignal (node : Z).

Record DispatchState := {
  dispatch_context : AutomationDispatchContext;
  effects : list Effect;
}.

Definition emit (e : Effect) (st : DispatchState) : DispatchState :=
  {| dispatch_context := dispatch_context st; effects := effects st ++ [e] |}.

(** Modelled from the spec: [AutomationDispatchContext.after_dispatch] is
    defined outside the sources at hand.  The spec (4.3, step 3): "The
    context records this result against the node". *)
Definition after_dispatch (node : AutomationNode) (r : DispatchResult)
    (st : DispatchState) : DispatchState :=
  let c := dispatch_context st in
  {| dispatch_context :=
       {| ctx_workflow := ctx_workflow c; event_payload := event_payload c;
          simulate_until_node := simulate_until_node c;
          previous_nodes_results := <[node_id node := r]> (previous_nodes_results c) |};
     effects := effects st |}.

Definition misconfigured_message (node : AutomationNode) : string :=
  "The node " +:+ pretty (node_id node) +:+ " has a misconfigured service.".

(** The [except ServiceImproperlyConfiguredDispatchException] clause of
    [dispatch_node]: translate that exception, let every other one pass. *)
Definition translate_exception (node : AutomationNode) (e : Exception) : Exception :=
  match e with
  | ServiceImproperlyConfiguredDispatchException _ =>
      AutomationNodeMisconfiguredService (misconfigured_message node)
  | _ => e
  end.

Section Dispatch.

(** The opaque business logic behind a node ([node_type.dispatch]). *)
Variable service_dispatch :
  AutomationNode → AutomationDispatchContext → DispatchResult + Exception.

(** The node table the walk reads. *)
Variable db : NodeTable.

(** [AutomationNodeHandler.dispatch_node].  The first argument is the
    number of nested calls the interpreter still allows; when it is used
    up the call raises [RecursionError], as Python does.  The result is
    the state after the call and the exception it raised, if any. *)
Fixpoint dispatch_node (depth : nat) (node : AutomationNode)
    (st : DispatchState) : DispatchState * option Exception :=
  match depth with
  | O => (st, Some RecursionError)
  | S depth' =>
      let st := emit (Dispatched (node_id node)) st in
      match service_dispatch node (dispatch_context st) with
      | inr e => (st, Some (translate_exception node e))
      | inl dispatch_result =>
          let st := after_dispatch node dispatch_result st in
          if bool_decide (simulate_until_node (dispatch_context st)
                          = Some (node_id node))
          then
            (emit (NodeUpdatedSignal (node_id node))
               (emit (SampleDataRefreshed (node_id node)) st), None)
          else
            let next_nodes :=
              node_get_next_nodes node (Some (output_uid dispatch_result)) db in
            (fix for_next_node (nodes : list AutomationNode) (st : DispatchState)
               : DispatchState * option Exception :=
               match nodes with
               | [] => (st, None)
               | next_node :: rest =>
                   match dispatch_node depth' next_node st with
                   | (st, None) => for_next_node rest st
                   | (st, Some e) => (st, Some (translate_exception node e))
                   end
               end) next_nodes st
      end
  end.

End Dispatch.

(* ===================================================================== *)
(** ** Run controller *)
(* ===================================================================== *)

Inductive WorkflowState := DRAFT | LIVE | DISABLED.

Inductive HistoryStatusChoices := STARTED | SUCCESS | ERROR | HISTORY_DISABLED.

(** A row of the [Automation] table: [published_from_id] points from a
    published automation to the workflow it was published from. *)
Record Automation := {
  published_from_id : option Z;
}.

(** A row of the [AutomationWorkflow] table; the primary key is the key of
    the table.  Times are microseconds since the epoch. *)
Record WorkflowRow := {
  automation_id : Z;
  state : WorkflowState;
  allow_test_run_until : option Z;
  simulate_until_node_id : option Z;
}.

(** A workflow instance in memory. *)
Record AutomationWorkflow := {
  wf_id : Z;
  wf_row :> WorkflowRow;
}.

(** A row of the [AutomationWorkflowHistory] table. *)
Record AutomationWorkflowHistory := {
  history_id : Z;
  history_workflow : Z;
  started_on : Z;
  is_test_run : bool;
  completed_on : option Z;
  message : string;
  status : HistoryStatusChoices;
}.

(** What [isinstance(timestamp, datetime)] tells apart in the cached list. *)
Inductive CacheValue :=
  | Datetime (t : Z)
  | NotDatetime.

Record Settings := {
  AUTOMATION_WORKFLOW_RATE_LIMIT_CACHE_EXPIRY_SECONDS : Z;
  AUTOMATION_WORKFLOW_RATE_LIMIT_MAX_RUNS : Z;
  AUTOMATION_WORKFLOW_MAX_CONSECUTIVE_ERRORS : nat;
}.

(** Everything [start_workflow] reads and writes.  [histories] holds the
    history rows in the order of the table, a new row in front; a query
    that asks for an order sorts them itself.  [rate_limit_cache] is the
    global cache under the keys [automation_workflow_<id>], keyed here by
    the workflow id. *)
Record RunDb := {
  automations : gmap Z Automation;
  workflows : gmap Z WorkflowRow;
  histories : list AutomationWorkflowHistory;
  rate_limit_cache : gmap Z (list CacheValue);
  nodes : NodeTable;
  workflow_signals : list Z;
}.

Definition set_workflows (w : gmap Z WorkflowRow) (d : RunDb) : RunDb :=
  {| automations := automations d; workflows := w; histories := histories d;
     rate_limit_cache := rate_limit_cache d; nodes := nodes d;
     workflow_signals := workflow_signals d |}.

Definition set_histories (h : list AutomationWorkflowHistory) (d : RunDb) : RunDb :=
  {| automations := automations d; workflows := workflows d; histories := h;
     rate_limit_cache := rate_limit_cache d; nodes := nodes d;
     workflow_signals := workflow_signals d |}.

Definition set_rate_limit_cache (c : gmap Z (list CacheValue)) (d : RunDb) : RunDb :=
  {| automations := automations d; workflows := workflows d;
     histories := histories d; rate_limit_cache := c; nodes := nodes d;
     workflow_signals := workflow_signals d |}.

Definition send_workflow_updated (w : Z) (d : RunDb) : RunDb :=
  {| automations := automations d; workflows := workflows d;
     histories := histories d; rate_limit_cache := rate_limit_cache d;
     nodes := nodes d; workflow_signals := workflow_signals d ++ [w] |}.

(** [get_original_workflow]: the workflow the automation was published from,
    or the workflow itself when its automation is not a published copy
    (primary keys are positive, so a key that is present is truthy).  The
    result is [None] when a foreign key cannot be followed. *)
Definition get_original_workflow (workflow : AutomationWorkflow)
    (d : RunDb) : option AutomationWorkflow :=
  a ← automations d !! automation_id workflow;
  match published_from_id a with
  | Some o => r ← workflows d !! o; Some {| wf_id := o; wf_row := r |}
  | None => Some workflow
  end.

(** Microseconds in [timedelta(seconds=s)]. *)
Definition timedelta_seconds (s : Z) : Z := s * 1000000.

Definition in_window (start_window : Z) (v : CacheValue) : bool :=
  match v with
  | Datetime t => start_window <? t
  | NotDatetime => false
  end.

(** [_check_is_rate_limited_value]: the new list, or the exception. *)
Definition _check_is_rate_limited_value (cfg : Settings) (now : Z)
    (data : list CacheValue) : list CacheValue + Exception :=
  let expiry_seconds := AUTOMATION_WORKFLOW_RATE_LIMIT_CACHE_EXPIRY_SECONDS cfg in
  let start_window := now - timedelta_seconds expiry_seconds in
  let runs_in_window := List.filter (in_window start_window) data in
  if AUTOMATION_WORKFLOW_RATE_LIMIT_MAX_RUNS cfg <=? Z.of_nat (length runs_in_window)
  then inr (AutomationWorkflowRateLimited
              "The workflow was rate limited due to too many recent runs.")
  else inl (runs_in_window ++ [Datetime now]).

(** [_check_is_rate_limited]: [global_cache.update] reads the list under the
    workflow's key (the empty list when there is none), applies the function
    and stores what it returns; an exception leaves the cache as it was. *)
Definition _check_is_rate_limited (cfg : Settings) (now : Z) (workflow_id : Z)
    (d : RunDb) : RunDb * option Exception :=
  let data := default [] (rate_limit_cache d !! workflow_id) in
  match _check_is_rate_limited_value cfg now data with
  | inl data' => (set_rate_limit_cache (<[workflow_id := data']> (rate_limit_cache d)) d, None)
  | inr e => (d, Some e)
  end.

Definition is_error (s : HistoryStatusChoices) : bool :=
  match s with ERROR => true | _ => false end.

Definition too_many_errors_message (workflow : Z) : string :=
  "The workflow " +:+ pretty workflow +:+
  " was disabled due to too many consecutive errors.".

(** [order_by("-started_on")]: the rows with the latest [started_on] first.
    Rows with the same [started_on] come in the order of the table; the
    database promises nothing about them. *)
Fixpoint insert_by_started_on (h : AutomationWorkflowHistory)
    (l : list AutomationWorkflowHistory) : list AutomationWorkflowHistory :=
  match l with
  | [] => [h]
  | x :: l' =>
      if started_on x <=? started_on h then h :: l
      else x :: insert_by_started_on h l'
  end.

Definition order_by_started_on_desc (l : list AutomationWorkflowHistory)
    : list AutomationWorkflowHistory :=
  foldr insert_by_started_on [] l.

(** [_check_too_many_errors]. *)
Definition _check_too_many_errors (cfg : Settings) (workflow : AutomationWorkflow)
    (d : RunDb) : option Exception :=
  let max_errors := AUTOMATION_WORKFLOW_MAX_CONSECUTIVE_ERRORS cfg in
  let statuses :=
    take (max_errors + 1)%nat
      (status <$> order_by_started_on_desc
                    (List.filter (λ h, history_workflow h =? wf_id workflow)
                       (histories d))) in
  let statuses :=
    match statuses with
    | STARTED :: rest => rest
    | _ => statuses
    end in
  if (length statuses <? max_errors)%nat then None
  else if forallb is_error statuses
       then Some (AutomationWorkflowTooManyErrors
                    (too_many_errors_message (wf_id workflow)))
       else None.

(** [disable_workflow]. *)
Definition disable_workflow (workflow : AutomationWorkflow) (d : RunDb) : RunDb :=
  let workflow_ids :=
    wf_id workflow ::
    match get_original_workflow workflow d with
    | Some original_workflow => [wf_id original_workflow]
    | None => []
    end in
  let disable (r : WorkflowRow) :=
    {| automation_id := automation_id r; state := DISABLED;
       allow_test_run_until := allow_test_run_until r;
       simulate_until_node_id := simulate_until_node_id r |} in
  set_workflows (foldr (alter disable) (workflows d) workflow_ids) d.

(** [reset_workflow_temporary_states]. *)
Definition reset_workflow_temporary_states (workflow : AutomationWorkflow)
    (d : RunDb) : RunDb :=
  let clear_test (r : WorkflowRow) :=
    {| automation_id := automation_id r; state := state r;
       allow_test_run_until := None;
       simulate_until_node_id := simulate_until_node_id r |} in
  let clear_simulate (r : WorkflowRow) :=
    {| automation_id := automation_id r; state := state r;
       allow_test_run_until := allow_test_run_until r;
       simulate_until_node_id := None |} in
  let fields_to_save :=
    (if allow_test_run_until workflow is Some _ then [clear_test] else [])
    ++ (if simulate_until_node_id workflow is Some _ then [clear_simulate] else []) in
  match fields_to_save with
  | [] => d
  | _ =>
      send_workflow_updated (wf_id workflow)
        (set_workflows
           (alter (λ r, foldl (λ r f, f r) r fields_to_save) (wf_id workflow)
              (workflows d)) d)
  end.

(** [before_run]: the three checks in order; the first exception wins. *)
Definition before_run (cfg : Settings) (now : Z) (workflow : AutomationWorkflow)
    (d : RunDb) : RunDb * option Exception :=
  let d := reset_workflow_temporary_states workflow d in
  match _check_too_many_errors cfg workflow d with
  | Some e => (d, Some e)
  | None => _check_is_rate_limited cfg now (wf_id workflow) d
  end.

(** Modelled from the spec: [AutomationHistoryHandler.create_workflow_history]
    is defined in [history/handler.py], outside the sources at hand.  The spec
    (4.4): "On admission, a history entry is opened (status Started)". *)
Definition create_workflow_history (workflow : AutomationWorkflow)
    (started : Z) (test_run : bool) (d : RunDb)
    : AutomationWorkflowHistory * RunDb :=
  let h :=
    {| history_id := 1 + foldr Z.max 0 (history_id <$> histories d);
       history_workflow := wf_id workflow;
       started_on := started; is_test_run := test_run;
       completed_on := None; message := ""; status := STARTED |} in
  (h, set_histories (h :: histories d) d).

(** [history.save()]: write the instance over the row with its key. *)
Definition save_history (h : AutomationWorkflowHistory) (d : RunDb) : RunDb :=
  set_histories
    ((λ r, if history_id r =? history_id h then h else r) <$> histories d) d.

(** Modelled from the spec: [AutomationWorkflow.get_trigger] is defined in
    [workflows/models.py], outside the sources at hand.  The spec (glossary):
    the trigger is "the unique entry-point node of a workflow". *)
Definition get_trigger (workflow : AutomationWorkflow) (db : NodeTable)
    : option AutomationNode :=
  head (query (λ r, (workflow_id r =? wf_id workflow)
                    && is_workflow_trigger (node_type r)) db).

(** The three readings of the clock a run makes. *)
Record RunClock := {
  start_time : Z;
  rate_limit_now : Z;
  completion_time : Z;
}.

Definition unexpected_message (original : Z) (e : Exception) : string :=
  "Unexpected error while running workflow " +:+ pretty original +:+
  ". Error: " +:+ exception_str e.

Section StartWorkflow.

Variable service_dispatch :
  AutomationNode → AutomationDispatchContext → DispatchResult + Exception.

(** How many nested calls the interpreter allows. *)
Variable recursion_limit : nat.

(** Whether [AutomationNodeMisconfiguredService] derives from
    [DispatchException]; [nodes/exceptions.py] is outside the sources at
    hand.  It decides only the wording of the history message. *)
Variable misconfigured_is_dispatch_exception : bool.

Variable cfg : Settings.

(** The body of the [try] block of [start_workflow]. *)
Definition run_body (clock : RunClock) (workflow original_workflow : AutomationWorkflow)
    (ctx : AutomationDispatchContext) (d : RunDb)
    : RunDb * list Effect * option Exception :=
  match before_run cfg (rate_limit_now clock) original_workflow d with
  | (d, Some e) => (d, [], Some e)
  | (d, None) =>
      match get_trigger workflow (nodes d) with
      | None => (d, [], Some (UnexpectedException
                   "AutomationNode matching query does not exist."))
      | Some trigger =>
          let '(st, r) :=
            dispatch_node service_dispatch (nodes d) recursion_limit trigger
              {| dispatch_context := ctx; effects := [] |} in
          (d, effects st, r)
      end
  end.

(** The [except] clauses of [start_workflow], first match first: the
    message and status to record, and whether the workflow is disabled. *)
Definition handle_outcome (original_workflow : AutomationWorkflow)
    (r : option Exception) : string * HistoryStatusChoices * bool :=
  match r with
  | None => ("", SUCCESS, false)
  | Some (AutomationWorkflowTooManyErrors m) => (m, HISTORY_DISABLED, true)
  | Some (AutomationWorkflowRateLimited m) => (m, ERROR, false)
  | Some (ServiceImproperlyConfiguredDispatchException m) => (m, ERROR, false)
  | Some (OtherDispatchException m) => (m, ERROR, false)
  | Some (AutomationNodeMisconfiguredService m as e) =>
      if misconfigured_is_dispatch_exception then (m, ERROR, false)
      else (unexpected_message (wf_id original_workflow) e, ERROR, false)
  | Some e => (unexpected_message (wf_id original_workflow) e, ERROR, false)
  end.

(** [start_workflow].  The result is the database after the run and the
    effects of the dispatch; [None] when the original workflow cannot be
    loaded, which raises before anything is written. *)
Definition start_workflow (clock : RunClock) (workflow : AutomationWorkflow)
    (payload : string) (simulate_until : option Z) (d : RunDb)
    : option (RunDb * list Effect) :=
  original_workflow ← get_original_workflow workflow d;
  let test_run := bool_decide (wf_id original_workflow = wf_id workflow) in
  let is_simulation := bool_decide (simulate_until ≠ None) in
  let ctx :=
    {| ctx_workflow := wf_id workflow; event_payload := payload;
       simulate_until_node := simulate_until;
       previous_nodes_results := ∅ |} in
  let '(history, d) :=
    if is_simulation
    then (None, d)
    else let '(h, d) :=
           create_workflow_history original_workflow (start_time clock) test_run d in
         (Some h, d) in
  let '(d, effs, r) := run_body clock workflow original_workflow ctx d in
  let '(history_message, history_status, disable) :=
    handle_outcome original_workflow r in
  let d := if disable then disable_workflow workflow d else d in
  let d :=
    match history with
    | Some h =>
        save_history
          {| history_id := history_id h;
             history_workflow := history_workflow h;
             started_on := started_on h; is_test_run := is_test_run h;
             completed_on := Some (completion_time clock);
             message := history_message; status := history_status |} d
    | None => d
    end in
  Some (d, effs).

End StartWorkflow.

(* ===================================================================== *)
(** ** Service entry points *)
(* ===================================================================== *)

Module AutomationNodeService.

Inductive ServiceError :=
  | AutomationTriggerModificationDisallowed
  | PermissionDenied
  | AutomationNodeBeforeInvalid (msg : string)
  | AutomationNodeDoesNotExist (node : Z).

Inductive Operation :=
  | CreateAutomationNodeOperationType
  | DeleteAutomationNodeOperationType.

Inductive Signal :=
  | automation_node_created (node : Z)
  | automation_node_deleted (workflow node : Z).

(** A trash entry: the trashed node and whether the entry is managed by the
    system (the replace operation type) rather than by the user. *)
Record TrashEntry := {
  trash_item_id : Z;
  managed : bool;
}.

(** What the service entry points read and write: the node table, the
    number of service rows [prepare_values] has created, the trash and the
    signals sent. *)
Record ServiceDb := {
  node_table : NodeTable;
  created_services : nat;
  trash_entries : list TrashEntry;
  signals : list Signal;
}.

Section Service.

Variable User : Type.

(** [CoreHandler().check_permissions(user, operation, context=workflow)],
    an external collaborator; [false] stands for the exception it
    raises. *)
Variable check_permissions : User → Operation → Z → bool.

Variable get_unique_order_before_node : AutomationNode → option Z → NodeTable → Z.
Variable get_last_node_id : Z → option Z → NodeTable → option Z.

(** [AutomationNodeHandler.get_node] through the default manager. *)
Definition get_node (node : Z) (d : ServiceDb) : ServiceError + AutomationNode :=
  match node_table d !! node with
  | Some r =>
      if trashed r then inl (AutomationNodeDoesNotExist node)
      else inr {| node_id := node; node_row := r |}
  | None => inl (AutomationNodeDoesNotExist node)
  end.

(** [AutomationNodeService.create_node]. *)
Definition create_node (user : User) (node_type : AutomationNodeType)
    (workflow : Z) (before : option AutomationNode) (kwargs : CreateKwargs)
    (d : ServiceDb) : ServiceDb * (ServiceError + AutomationNode) :=
  if is_workflow_trigger node_type
  then (d, inl AutomationTriggerModificationDisallowed)
  else if negb (check_permissions user CreateAutomationNodeOperationType workflow)
  then (d, inl PermissionDenied)
  else
    let before_error :=
      match before with
      | Some b =>
          if negb (workflow =? workflow_id b)
          then Some (AutomationNodeBeforeInvalid
            "The `before` node must belong to the same workflow as the one supplied.")
          else if previous_node_id b is Some _ then None
          else Some (AutomationNodeBeforeInvalid
            "You cannot create an automation node before a trigger.")
      | None => None
      end in
    match before_error with
    | Some e => (d, inl e)
    | None =>
        (* prepare_values creates the node's service *)
        let '(new_node, db) :=
          create_node get_unique_order_before_node get_last_node_id
            node_type workflow before kwargs (node_table d) in
        ({| node_table := db;
            created_services := S (created_services d);
            trash_entries := trash_entries d;
            signals := signals d ++ [automation_node_created (node_id new_node)] |},
         inr new_node)
    end.

(** Modelled from the spec: [TrashHandler.trash] and the node's trashable
    item type are defined outside the sources at hand, and so are the
    [before_delete] hooks of the trigger node types.  The spec (3 and
    4.2): a trigger "cannot be created/deleted by ordinary mutation, only
    replaced"; Delete "fails TriggerDeletionDisallowed for triggers.
    Otherwise soft-deletes via the external trash collaborator"; a
    replaced node is trashed "under a distinguished replace trash
    category".  [trash_operation_type] is [None] for an ordinary delete
    and [Some] for the replace category, whose entries are managed. *)
Definition trash (node : AutomationNode) (trash_operation_type : option string)
    (d : ServiceDb) : ServiceDb * (ServiceError + TrashEntry) :=
  match trash_operation_type with
  | None =>
      if is_workflow_trigger (node_type node)
      then (d, inl AutomationTriggerModificationDisallowed)
      else
        let e := {| trash_item_id := node_id node; managed := false |} in
        ({| node_table := alter (set_trashed true) (node_id node) (node_table d);
            created_services := created_services d;
            trash_entries := trash_entries d ++ [e];
            signals := signals d |}, inr e)
  | Some _ =>
      let e := {| trash_item_id := node_id node; managed := true |} in
      ({| node_table := alter (set_trashed true) (node_id node) (node_table d);
          created_services := created_services d;
          trash_entries := trash_entries d ++ [e];
          signals := signals d |}, inr e)
  end.

(** [AutomationNodeService.delete_node]. *)
Definition delete_node (user : User) (node : Z)
    (trash_operation_type : option string)
    (d : ServiceDb) : ServiceDb * (ServiceError + AutomationNode) :=
  match get_node node d with
  | inl e => (d, inl e)
  | inr n =>
      if negb (check_permissions user DeleteAutomationNodeOperationType
                 (workflow_id n))
      then (d, inl PermissionDenied)
      else
        match trash n trash_operation_type d with
        | (d, inl e) => (d, inl e)
        | (d, inr trash_entry) =>
            (* send_post_trash_deleted_signal is off for managed entries *)
            if managed trash_entry then (d, inr n)
            else
              ({| node_table := node_table d;
                  created_services := created_services d;
                  trash_entries := trash_entries d;
                  signals := signals d
                    ++ [automation_node_deleted (workflow_id n) (node_id n)] |},
               inr n)
        end
  end.

End Service.

End AutomationNodeService.

(* ===================================================================== *)
(** ** Vocabulary of the statements *)
(* ===================================================================== *)

(** Whether the queryset with filter [P] yields the row with key [i]. *)
Definition selects (P : NodeRow → bool) (db : NodeTable) (i : Z) : bool :=
  match db !! i with
  | Some r => P r && negb (trashed r)
  | None => false
  end.

(** What [update_previous_node] does to one row it is given. *)
Definition relink (p : option Z) (o : option string) (r : NodeRow) : NodeRow :=
  let r1 := set_previous_node_id p r in
  match o with
  | Some s => set_previous_node_output s r1
  | None => r1
  end.

(** The filter of [node.get_next_nodes(output_uid)]. *)
Definition follows (workflow : Z) (node : Z) (output_uid : option string)
    (r : NodeRow) : bool :=
  (workflow_id r =? workflow)
  && opt_Z_eqb (previous_node_id r) (Some node)
  && match output_uid with
     | Some uid => str_eqb (previous_node_output r) uid
     | None => true
     end.

(** The filter of the nodes [create_node] relinks when [before] is given. *)
Definition shares_slot (workflow : Z) (B : AutomationNode) (r : NodeRow) : bool :=
  (workflow_id r =? workflow)
  && opt_Z_eqb (previous_node_id r)
       (Some (match previous_node_id B with None => node_id B | Some p => p end))
  && str_eqb (previous_node_output r) (previous_node_output B).

(** The pair that places a node in the graph. *)
Definition position (r : NodeRow) : option Z * string :=
  (previous_node_id r, previous_node_output r).

(** The node table of a workflow made of three nodes. *)
Definition table_of_three (T A B : AutomationNode) : NodeTable :=
  <[node_id T := node_row T]>
    (<[node_id A := node_row A]> {[node_id B := node_row B]}).

(** The [for next_node in next_nodes] loop of [dispatch_node], with the
    recursive call as a parameter. *)
Definition dispatch_next_nodes
    (step : AutomationNode → DispatchState → DispatchState * option Exception)
    (node : AutomationNode)
    : list AutomationNode → DispatchState → DispatchState * option Exception :=
  fix for_next_node nodes st :=
    match nodes with
    | [] => (st, None)
    | next_node :: rest =>
        match step next_node st with
        | (st, None) => for_next_node rest st
        | (st, Some e) => (st, Some (translate_exception node e))
        end
    end.

Definition rate_limited_message : string :=
  "The workflow was rate limited due to too many recent runs.".

(** The statuses of a workflow's history entries, the latest [started_on]
    first. *)
Definition past_statuses (workflow : Z) (d : RunDb) : list HistoryStatusChoices :=
  status <$> order_by_started_on_desc
               (List.filter (λ h, history_workflow h =? workflow) (histories d)).

(** Every run of the workflow recorded so far started before [t]. *)
Definition started_before (t : Z) (workflow : Z) (d : RunDb) : bool :=
  forallb (λ h, started_on h <? t)
    (List.filter (λ h, history_workflow h =? workflow) (histories d)).

(** At least [n] entries, and the [n] most recent of them are all errors. *)
Definition consecutive_errors (n : nat) (past : list HistoryStatusChoices) : bool :=
  (n <=? length past)%nat && forallb is_error (take n past).

(** The history entry [h] as [start_workflow] saves it in its [finally]
    clause. *)
Definition close_history (h : AutomationWorkflowHistory) (completed : Z)
    (msg : string) (st : HistoryStatusChoices) : AutomationWorkflowHistory :=
  {| history_id := history_id h; history_workflow := history_workflow h;
     started_on := started_on h; is_test_run := is_test_run h;
     completed_on := Some completed; message := msg; status := st |}.

(** The dispatch context [start_workflow] builds. *)
Definition run_context (workflow : AutomationWorkflow) (payload : string)
    (simulate_until : option Z) : AutomationDispatchContext :=
  {| ctx_workflow := wf_id workflow; event_payload := payload;
     simulate_until_node := simulate_until; previous_nodes_results := ∅ |}.

(** A workflow row after [disable_workflow]. *)
Definition disabled_row (r : WorkflowRow) : WorkflowRow :=
  {| automation_id := automation_id r; state := DISABLED;
     allow_test_run_until := allow_test_run_until r;
     simulate_until_node_id := simulate_until_node_id r |}.

(** The two temporary flags of a workflow row. *)
Definition temporary_states (r : WorkflowRow) : option Z * option Z :=
  (allow_test_run_until r, simulate_until_node_id r).

(* ===================================================================== *)
(** ** Sample workflows *)
(* ===================================================================== *)

Definition ex_trigger_type : AutomationNodeType :=
  {| type_name := "rows_created"; is_workflow_trigger := true;
     is_workflow_action := false; is_fixed := true |}.
Definition ex_action_type : AutomationNodeType :=
  {| type_name := "create_row"; is_workflow_trigger := false;
     is_workflow_action := true; is_fixed := false |}.
Definition ex_router_type : AutomationNodeType :=
  {| type_name := "router"; is_workflow_trigger := false;
     is_workflow_action := true; is_fixed := false |}.

(** A row of workflow 1. *)
Definition ex_row (ty : AutomationNodeType) (prev : option Z) (out : string)
    (ord : Z) : NodeRow :=
  {| workflow_id := 1; node_type := ty; parent_node_id := None;
     previous_node_id := prev; previous_node_output := out;
     order := ord; label := ""; trashed := false |}.

Definition ex_node (i : Z) (r : NodeRow) : AutomationNode :=
  {| node_id := i; node_row := r |}.

(** Stand-ins for the two order helpers. *)
Definition ex_order_before (n : AutomationNode) (_ : option Z) (_ : NodeTable) : Z :=
  order n.
Definition ex_last_node_id (_ : Z) (_ : option Z) (_ : NodeTable) : option Z :=
  None.

(** trigger 1 -> X 2 -> A 3 -> Y 4 -> B 5, all on the default branch. *)
Definition ex_chain : NodeTable :=
  <[1 := ex_row ex_trigger_type None "" 1]>
  (<[2 := ex_row ex_action_type (Some 1) "" 2]>
  (<[3 := ex_row ex_action_type (Some 2) "" 3]>
  (<[4 := ex_row ex_action_type (Some 3) "" 4]>
  (<[5 := ex_row ex_action_type (Some 4) "" 5]> ∅)))).

(** trigger 1 -> X 2 -> A 3 -> router Y 4, with C 5 on branch "a" of Y. *)
Definition ex_routed : NodeTable :=
  <[1 := ex_row ex_trigger_type None "" 1]>
  (<[2 := ex_row ex_action_type (Some 1) "" 2]>
  (<[3 := ex_row ex_action_type (Some 2) "" 3]>
  (<[4 := ex_row ex_router_type (Some 3) "" 4]>
  (<[5 := ex_row ex_action_type (Some 4) "a" 5]> ∅)))).

(** trigger 1 -> router 2, with B 3 and a sibling 4 both on branch "k". *)
Definition ex_branch : NodeTable :=
  <[1 := ex_row ex_trigger_type None "" 1]>
  (<[2 := ex_row ex_router_type (Some 1) "" 2]>
  (<[3 := ex_row ex_action_type (Some 2) "k" 3]>
  (<[4 := ex_row ex_action_type (Some 2) "k" 4]> ∅))).

(** trigger 1 -> router X 2, with C 3 on branch "a" of X, and Y 4 after C. *)
Definition ex_branching_X : NodeTable :=
  <[1 := ex_row ex_trigger_type None "" 1]>
  (<[2 := ex_row ex_router_type (Some 1) "" 2]>
  (<[3 := ex_row ex_action_type (Some 2) "a" 3]>
  (<[4 := ex_row ex_action_type (Some 3) "" 4]> ∅))).

Definition ex_no_kwargs : CreateKwargs :=
  {| kw_previous_node_id := None; kw_previous_node_output := None;
     kw_parent_node_id := None; kw_label := None; kw_order := None |}.

Definition ex_explicit_previous : CreateKwargs :=
  {| kw_previous_node_id := Some (Some 1); kw_previous_node_output := None;
     kw_parent_node_id := None; kw_label := None; kw_order := None |}.

Definition ex_X := ex_node 2 (ex_row ex_action_type (Some 1) "" 2).
Definition ex_Y := ex_node 4 (ex_row ex_action_type (Some 3) "" 4).
Definition ex_router_Y := ex_node 4 (ex_row ex_router_type (Some 3) "" 4).
Definition ex_T := ex_node 1 (ex_row ex_trigger_type None "" 1).
Definition ex_B := ex_node 3 (ex_row ex_action_type (Some 2) "k" 3).

Definition ex_cfg : Settings :=
  {| AUTOMATION_WORKFLOW_RATE_LIMIT_CACHE_EXPIRY_SECONDS := 60;
     AUTOMATION_WORKFLOW_RATE_LIMIT_MAX_RUNS := 3;
     AUTOMATION_WORKFLOW_MAX_CONSECUTIVE_ERRORS := 3 |}.

(** Workflow 1 is a draft armed for a test run; workflow 2 is its published
    copy. *)
Definition ex_draft_row : WorkflowRow :=
  {| automation_id := 10; state := DRAFT;
     allow_test_run_until := Some 5000000; simulate_until_node_id := None |}.
Definition ex_published_row : WorkflowRow :=
  {| automation_id := 20; state := LIVE;
     allow_test_run_until := None; simulate_until_node_id := None |}.
Definition ex_draft : AutomationWorkflow := {| wf_id := 1; wf_row := ex_draft_row |}.
Definition ex_published : AutomationWorkflow :=
  {| wf_id := 2; wf_row := ex_published_row |}.

(** A closed history entry of workflow 1. *)
Definition ex_entry (i : Z) (st : HistoryStatusChoices) : AutomationWorkflowHistory :=
  {| history_id := i; history_workflow := 1; started_on := i * 1000000;
     is_test_run := false; completed_on := Some (i * 1000000 + 1);
     message := ""; status := st |}.

Definition ex_run_db (h : list AutomationWorkflowHistory) : RunDb :=
  {| automations :=
       <[10 := {| published_from_id := None |}]>
         (<[20 := {| published_from_id := Some 1 |}]> ∅);
     workflows := <[1 := ex_draft_row]> (<[2 := ex_published_row]> ∅);
     histories := h;
     rate_limit_cache := ∅;
     nodes := ex_chain;
     workflow_signals := [] |}.

Definition ex_three_errors : list AutomationWorkflowHistory :=
  [ex_entry 3 ERROR; ex_entry 2 ERROR; ex_entry 1 ERROR].

Definition ex_clock : RunClock :=
  {| start_time := 10000000; rate_limit_now := 10000001;
     completion_time := 10000002 |}.

Definition ex_result : DispatchResult :=
  {| data := ""; output_uid := ""; status_code := 200 |}.

(** Business logic that always succeeds on the default branch. *)
Definition ex_service_ok (_ : AutomationNode) (_ : AutomationDispatchContext)
    : DispatchResult + Exception :=
  inl ex_result.

Definition ex_A := ex_node 2 (ex_row ex_action_type (Some 1) "" 2).
Definition ex_A_next := ex_node 3 (ex_row ex_action_type (Some 2) "" 3).

Definition ex_simulation : DispatchState :=
  {| dispatch_context := run_context ex_draft "" (Some 2); effects := [] |}.

Definition ex_service_db : AutomationNodeService.ServiceDb :=
  {| AutomationNodeService.node_table := ex_chain;
     AutomationNodeService.created_services := 0;
     AutomationNodeService.trash_entries := [];
     AutomationNodeService.signals := [] |}.

Definition ex_allow_all (_ : unit) (_ : AutomationNodeService.Operation) (_ : Z) : bool :=
  true.

(* ===================================================================== *)
(** ** Further operations of the node handler *)
(* ===================================================================== *)

(** [AutomationNodeHandler.get_node] through the default manager: the
    untrashed row with the key; [None] stands for
    [AutomationNodeDoesNotExist]. *)
Definition get_node (id : Z) (db : NodeTable) : option AutomationNode :=
  match db !! id with
  | Some r => if trashed r then None else Some {| node_id := id; node_row := r |}
  | None => None
  end.

(** The two assignments [update_next_nodes_values] makes on an instance. *)
Definition set_next_values (v : NextAutomationNodeValues)
    (n : AutomationNode) : AutomationNode :=
  with_row (λ r, set_previous_node_output (nv_previous_node_output v)
                   (set_previous_node_id (nv_previous_node_id v) r)) n.

(** [AutomationNodeHandler.update_next_nodes_values].  [next_nodes_grouped]
    holds one instance per primary key, and the loop assigns to that shared
    instance, so a key listed twice ends with the values listed last, in
    both places of [next_node_updates].  A key that the queryset did not
    yield (no such row, or a trashed one) makes [next_nodes_grouped.get]
    return None and the assignment raise [AttributeError], before the
    [bulk_update]; [None] stands for that. *)
Definition update_next_nodes_values (next_node_values : list NextAutomationNodeValues)
    (db : NodeTable) : option (list AutomationNode * NodeTable) :=
  let pks := nv_id <$> next_node_values in
  let next_nodes :=
    List.filter (λ n : AutomationNode, bool_decide (node_id n ∈ pks))
      (query (λ _, true) db) in
  let next_nodes_grouped : gmap Z AutomationNode :=
    list_to_map ((λ n : AutomationNode, (node_id n, n)) <$> next_nodes) in
  grouped ←
    foldl (λ (acc : option (gmap Z AutomationNode)) next_node_value,
             grouped ← acc;
             next_node ← grouped !! nv_id next_node_value;
             Some (<[nv_id next_node_value :=
                       set_next_values next_node_value next_node]> grouped))
          (Some next_nodes_grouped) next_node_values;
  let next_node_updates :=
    omap (λ next_node_value, grouped !! nv_id next_node_value) next_node_values in
  Some (next_node_updates,
        bulk_update next_node_updates [F_previous_node; F_previous_node_output] db).

Definition set_label (l : string) (r : NodeRow) : NodeRow :=
  {| workflow_id := workflow_id r; node_type := node_type r;
     parent_node_id := parent_node_id r;
     previous_node_id := previous_node_id r;
     previous_node_output := previous_node_output r;
     order := order r; label := l; trashed := trashed r |}.

(** The keyword arguments [update_node] keeps after [extract_allowed]:
    [label], [previous_node_id] and [previous_node_output] ([service] is not
    a column of the rows here).  [None] means the key is absent. *)
Record UpdateKwargs := {
  uk_label : option string;
  uk_previous_node_id : option (option Z);
  uk_previous_node_output : option string;
}.

(** [AutomationNodeHandler.update_node]: assign the allowed values to the
    instance and [node.save()], which writes every column of the instance
    over the row with its key. *)
Definition update_node (node : AutomationNode) (kwargs : UpdateKwargs)
    (db : NodeTable) : AutomationNode * NodeTable :=
  let node :=
    with_row (λ r,
      let r := match uk_label kwargs with Some l => set_label l r | None => r end in
      let r := match uk_previous_node_id kwargs with
               | Some p => set_previous_node_id p r
               | None => r
               end in
      match uk_previous_node_output kwargs with
      | Some o => set_previous_node_output o r
      | None => r
      end) node in
  (node, <[node_id node := node_row node]> db).

(** [AutomationNodeType.is_replaceable_with] ([nodes/registries.py]). *)
Definition is_replaceable_with (self other_node_type : AutomationNodeType) : bool :=
  eqb (is_workflow_trigger self) (is_workflow_trigger other_node_type)
  && eqb (is_workflow_action self) (is_workflow_action other_node_type).

Definition not_replaceable_message : string :=
  "Automation nodes can only be updated with a type of the same " +:+
  "category. Triggers cannot be updated with actions, and vice-versa.".

(** [AutomationNodeType.before_replace]: [Some] is the message of the
    [AutomationNodeNotReplaceable] it raises. *)
Definition before_replace (node : AutomationNode)
    (new_node_type : AutomationNodeType) : option string :=
  if negb (is_replaceable_with (node_type node) new_node_type)
  then Some not_replaceable_message
  else None.

(* ===================================================================== *)
(** ** Further entry points of the node service *)
(* ===================================================================== *)

Module AutomationNodeServiceEntryPoints.

Inductive OperationType :=
  | CreateAutomationNodeOperationType
  | DuplicateAutomationNodeOperationType
  | ReadAutomationNodeOperationType
  | UpdateAutomationNodeOperationType.

(** The [context] argument of a permission check. *)
Inductive PermissionContext :=
  | NodeContext (node : Z)
  | WorkflowContext (workflow : Z).

Inductive ServiceException :=
  | AutomationTriggerModificationDisallowed
  | PermissionDenied
  | AutomationNodeDoesNotExist (node : Z)
  | AutomationNodeNotMovable (msg : string)
  | AutomationNodeNotReplaceable (msg : string)
  | InstanceTypeDoesNotExist (type : string)
  | AttributeError
  | TrashException (msg : string).

Inductive Signal :=
  | automation_node_created (node : Z)
  | automation_nodes_updated (nodes : list Z) (workflow : Z)
  | automation_node_replaced (workflow restored_node deleted_node : Z).

(** What these entry points read and write: the node table and the signals
    sent.  The service rows that [prepare_values] and the import create are
    not part of it. *)
Record ServiceState := {
  node_table : NodeTable;
  signals : list Signal;
}.

(** [ReplacedAutomationNode]. *)
Record ReplacedAutomationNode := {
  replaced_node : AutomationNode;
  original_node_id : Z;
  original_node_type : string;
}.

Section Service.

Variable User : Type.

(** [CoreHandler().check_permissions(user, operation, context=...)], an
    external collaborator; [false] stands for the exception it raises. *)
Variable check_permissions : User → OperationType → PermissionContext → bool.

Variable get_unique_order_before_node : AutomationNode → option Z → NodeTable → Z.
Variable get_last_node_id : Z → option Z → NodeTable → option Z.

(** [automation_node_type_registry.get]; [None] stands for the exception it
    raises for a type that is not registered. *)
Variable registry_get : string → option AutomationNodeType.

(** [TrashHandler.trash] with the replace operation type, an external
    collaborator: the table it leaves, or the exception it raises. *)
Variable trash_replaced : AutomationNode → NodeTable → string + NodeTable.

(** [AutomationNodeService.get_node]. *)
Definition get_node (user : User) (id : Z) (d : ServiceState)
    : ServiceException + AutomationNode :=
  match get_node id (node_table d) with
  | None => inl (AutomationNodeDoesNotExist id)
  | Some node =>
      if check_permissions user ReadAutomationNodeOperationType (NodeContext id)
      then inr node
      else inl PermissionDenied
  end.

(** [AutomationNodeService.duplicate_node]. *)
Definition duplicate_node (user : User) (node : AutomationNode) (d : ServiceState)
    : ServiceState * (ServiceException + AutomationNodeDuplication) :=
  if negb (check_permissions user DuplicateAutomationNodeOperationType
             (NodeContext (node_id node)))
  then (d, inl PermissionDenied)
  else if is_workflow_trigger (node_type node)
  then (d, inl AutomationTriggerModificationDisallowed)
  else
    let '(duplication, db) := duplicate_node node (node_table d) in
    ({| node_table := db;
        signals := signals d ++
          [automation_node_created (node_id (duplicated_node duplication))] |},
     inr duplication).

(** [AutomationNodeService.move_node]. *)
Definition move_node (user : User) (id : Z) (new_previous_node_id : Z)
    (new_previous_output : option string) (new_order : option Z)
    (d : ServiceState) : ServiceState * (ServiceException + AutomationNodeMove) :=
  match get_node user id d with
  | inl e => (d, inl e)
  | inr node =>
      if negb (check_permissions user UpdateAutomationNodeOperationType
                 (NodeContext (node_id node)))
      then (d, inl PermissionDenied)
      else if is_fixed (node_type node)
      then (d, inl (AutomationNodeNotMovable "This automation node cannot be moved."))
      else
        match get_node user new_previous_node_id d with
        | inl e => (d, inl e)
        | inr after_node =>
            let '(move, db) :=
              move_node get_unique_order_before_node node after_node
                new_previous_output new_order (node_table d) in
            let updated_nodes := move_node_node move :: next_node_updates move in
            ({| node_table := db;
                signals := signals d ++
                  [automation_nodes_updated (node_id <$> updated_nodes)
                     (workflow_id node)] |},
             inr move)
        end
  end.

(** [AutomationNodeService.replace_node].  [before_replace] and
    [after_create] are the hooks of the base class; the service row that
    [prepare_values] creates is not part of the state here.  An exception of
    the trash handler is passed on with the table as the create left it. *)
Definition replace_node (user : User) (id : Z) (new_node_type_str : string)
    (d : ServiceState) : ServiceState * (ServiceException + ReplacedAutomationNode) :=
  match get_node user id d with
  | inl e => (d, inl e)
  | inr node =>
      (* node_type = node.get_type() *)
      let node_type0 := node_type node in
      if negb (check_permissions user CreateAutomationNodeOperationType
                 (WorkflowContext (workflow_id node)))
      then (d, inl PermissionDenied)
      else
        match registry_get new_node_type_str with
        | None => (d, inl (InstanceTypeDoesNotExist new_node_type_str))
        | Some new_node_type =>
            match before_replace node new_node_type with
            | Some msg => (d, inl (AutomationNodeNotReplaceable msg))
            | None =>
                let '(new_node, db) :=
                  create_node get_unique_order_before_node get_last_node_id
                    new_node_type (workflow_id node) (Some node)
                    {| kw_previous_node_id := None; kw_previous_node_output := None;
                       kw_parent_node_id := None; kw_label := None;
                       kw_order := Some (order node) |}
                    (node_table d) in
                (* node.refresh_from_db() *)
                let node := with_row (λ r, default r (db !! node_id node)) node in
                match trash_replaced node db with
                | inl msg =>
                    ({| node_table := db; signals := signals d |},
                     inl (TrashException msg))
                | inr db =>
                    ({| node_table := db;
                        signals := signals d ++
                          [automation_node_replaced (workflow_id new_node)
                             (node_id new_node) (node_id node)] |},
                     inr {| replaced_node := new_node;
                            original_node_id := node_id node;
                            original_node_type := type_name node_type0 |})
                end
            end
        end
  end.

End Service.

End AutomationNodeServiceEntryPoints.

(* ===================================================================== *)
(** ** Further operations of the workflow handler *)
(* ===================================================================== *)

(** [_get_rate_limit_cache_key]. *)
Definition _get_rate_limit_cache_key (workflow_id : Z) : string :=
  "automation_workflow_" +:+ pretty workflow_id.

(** Microseconds in [timedelta(minutes=m)]. *)
Definition timedelta_minutes (m : Z) : Z := m * 60 * 1000000.

(** The arguments of one [start_workflow_celery_task.delay]. *)
Record StartWorkflowTask := {
  task_workflow_id : Z;
  task_event_payload : option string;
  task_simulate_until_node_id : option Z;
}.

(** [async_start_workflow(workflow)] with no event payload: the task it
    queues. *)
Definition async_start_workflow (workflow : AutomationWorkflow) : StartWorkflowTask :=
  {| task_workflow_id := wf_id workflow;
     task_event_payload := None;
     task_simulate_until_node_id := simulate_until_node_id workflow |}.

(** The largest key of a table ([order_by("-id").first()]). *)
Definition last_key {A} (m : gmap Z A) : option Z :=
  map_fold (λ k _ acc, Some (match acc with Some j => Z.max k j | None => k end))
    None m.

Section TestRun.

(** [ALLOW_TEST_RUN_MINUTES] of [workflows/constants.py]. *)
Variable ALLOW_TEST_RUN_MINUTES : Z.

(** Three collaborators defined with the models and the service types:
    [workflow.can_immediately_be_tested()], [workflow.get_trigger()] (the
    trigger, or the exception it raises when there is none) and whether
    [get_sample_data] of the trigger's service returns something for a
    simulation up to the given node. *)
Variable can_immediately_be_tested : AutomationWorkflow → RunDb → bool.
Variable workflow_get_trigger : AutomationWorkflow → RunDb → Exception + AutomationNode.
Variable has_sample_data : AutomationNode → Z → RunDb → bool.

(** [set_workflow_temporary_states]: the instance with the field assigned,
    and the database after [save(update_fields=...)] and the signal. *)
Definition set_workflow_temporary_states (now : Z) (workflow : AutomationWorkflow)
    (simulate_until_node : option Z) (d : RunDb) : AutomationWorkflow * RunDb :=
  match simulate_until_node with
  | Some n =>
      let set_simulate (r : WorkflowRow) :=
        {| automation_id := automation_id r; state := state r;
           allow_test_run_until := allow_test_run_until r;
           simulate_until_node_id := Some n |} in
      ({| wf_id := wf_id workflow; wf_row := set_simulate workflow |},
       send_workflow_updated (wf_id workflow)
         (set_workflows (alter set_simulate (wf_id workflow) (workflows d)) d))
  | None =>
      let until := now + timedelta_minutes ALLOW_TEST_RUN_MINUTES in
      let set_test (r : WorkflowRow) :=
        {| automation_id := automation_id r; state := state r;
           allow_test_run_until := Some until;
           simulate_until_node_id := simulate_until_node_id r |} in
      ({| wf_id := wf_id workflow; wf_row := set_test workflow |},
       send_workflow_updated (wf_id workflow)
         (set_workflows (alter set_test (wf_id workflow) (workflows d)) d))
  end.

(** The instance after [reset_workflow_temporary_states], which assigns None
    to each of the two fields that is set. *)
Definition reset_instance (workflow : AutomationWorkflow) : AutomationWorkflow :=
  {| wf_id := wf_id workflow;
     wf_row := {| automation_id := automation_id workflow; state := state workflow;
                  allow_test_run_until := None;
                  simulate_until_node_id := None |} |}.

(** [toggle_test_run].  The result is the instance as the call leaves it,
    the database, the tasks queued and the exception raised, if any. *)
Definition toggle_test_run (now : Z) (workflow : AutomationWorkflow)
    (simulate_until_node : option Z) (d : RunDb)
    : AutomationWorkflow * RunDb * list StartWorkflowTask * option Exception :=
  if bool_decide (simulate_until_node_id workflow ≠ None)
     || bool_decide (allow_test_run_until workflow ≠ None)
  then
    (* we just stop waiting for the event *)
    (reset_instance workflow, reset_workflow_temporary_states workflow d, [], None)
  else
    match simulate_until_node with
    | None =>
        let '(workflow, d) := set_workflow_temporary_states now workflow None d in
        (workflow, d,
         if can_immediately_be_tested workflow d
         then [async_start_workflow workflow] else [],
         None)
    | Some n =>
        let '(workflow, d) := set_workflow_temporary_states now workflow (Some n) d in
        match workflow_get_trigger workflow d with
        | inl e => (workflow, d, [], Some e)
        | inr trigger =>
            (workflow, d,
             if can_immediately_be_tested workflow d
                || (has_sample_data trigger n d
                    && negb (node_id trigger =? n))
             then [async_start_workflow workflow] else [],
             None)
        end
    end.

End TestRun.

Section PublishedWorkflow.

(** [QuerySet.first()] on the workflows of an automation, under the default
    ordering of the model, which is declared in [workflows/models.py]. *)
Variable first_workflow : list AutomationWorkflow → option AutomationWorkflow.

(** [get_published_workflow] without its per-request cache: the first
    workflow of the latest automation published from [workflow]. *)
Definition get_published_workflow (workflow : AutomationWorkflow)
    (d : RunDb) : option AutomationWorkflow :=
  let published_to :=
    filter (λ ka : Z * Automation, published_from_id ka.2 = Some (wf_id workflow))
      (automations d) in
  latest_published ← last_key published_to;
  first_workflow
    ((λ kr : Z * WorkflowRow, {| wf_id := kr.1; wf_row := kr.2 |})
       <$> map_to_list
             (filter (λ kr : Z * WorkflowRow, automation_id kr.2 = latest_published)
                (workflows d))).

End PublishedWorkflow.

(* ===================================================================== *)
(** ** Vocabulary of the further statements *)
(* ===================================================================== *)

(** Successive calls of [_check_is_rate_limited] for one workflow, one at
    each of the given times: the times at which the call returned without
    raising, and the database after the last call. *)
Fixpoint admitted_runs (cfg : Settings) (workflow_id : Z) (times : list Z)
    (d : RunDb) : list Z * RunDb :=
  match times with
  | [] => ([], d)
  | now :: rest =>
      match _check_is_rate_limited cfg now workflow_id d with
      | (d, None) =>
          let '(admitted, d) := admitted_runs cfg workflow_id rest d in
          (now :: admitted, d)
      | (d, Some _) => admitted_runs cfg workflow_id rest d
      end
  end.

(** The values listed last for a key in a list of next-node values. *)
Definition last_values (next_node_values : list NextAutomationNodeValues) (i : Z)
    : option NextAutomationNodeValues :=
  last (List.filter (λ v, nv_id v =? i) next_node_values).

(** A row with the position the values carry. *)
Definition with_values (v : NextAutomationNodeValues) (r : NodeRow) : NodeRow :=
  set_previous_node_output (nv_previous_node_output v)
    (set_previous_node_id (nv_previous_node_id v) r).


(** The instances [next_nodes_grouped] of [update_next_nodes_values] starts
    with, for the given primary keys. *)
Definition grouped_of (pks : list Z) (db : NodeTable) : gmap Z AutomationNode :=
  list_to_map ((λ n : AutomationNode, (node_id n, n))
    <$> List.filter (λ n : AutomationNode, bool_decide (node_id n ∈ pks))
          (query (λ _, true) db)).

(** One turn of the loop of [update_next_nodes_values]. *)
Definition assign_values (acc : option (gmap Z AutomationNode))
    (v : NextAutomationNodeValues) : option (gmap Z AutomationNode) :=
  grouped ← acc;
  next_node ← grouped !! nv_id v;
  Some (<[nv_id v := set_next_values v next_node]> grouped).

(** A row with its position in the graph blanked. *)
Definition unlinked (r : NodeRow) : NodeRow :=
  set_previous_node_output "" (set_previous_node_id None r).

(** Whether the row with key [i] is an untrashed trigger. *)
Definition is_trigger_row (db : NodeTable) (i : Z) : bool :=
  match db !! i with
  | Some r => is_workflow_trigger (node_type r) && negb (trashed r)
  | None => false
  end.

(** What the walk of [dispatch_node] over the table [db] keeps true from the
    state it starts in to the state it ends in: effects are only added, and
    a node dispatched on the way is one of [start] or an untrashed row of
    workflow [w] whose previous node was dispatched too. *)
Definition walk_ok (db : NodeTable) (w : Z) (start : list Z)
    (st st' : DispatchState) : Prop :=
  (∀ e, e ∈ effects st → e ∈ effects st')
  ∧ ∀ i, Dispatched i ∈ effects st' →
      Dispatched i ∈ effects st ∨ i ∈ start
      ∨ ∃ r j, db !! i = Some r ∧ trashed r = false ∧ workflow_id r = w
               ∧ previous_node_id r = Some j ∧ Dispatched j ∈ effects st'.

(* ===================================================================== *)
(** ** Further samples *)
(* ===================================================================== *)

(** A cached list with a stale timestamp, a foreign entry and a recent
    timestamp, read at 100 s. *)
Definition ex_cache_data : list CacheValue :=
  [Datetime 10000000; NotDatetime; Datetime 70000000].

(** Five events, at 0 s, 10 s, 20 s, 30 s and 70 s. *)
Definition ex_times : list Z := [0; 10000000; 20000000; 30000000; 70000000].

(** The state a run of workflow 1 starts in. *)
Definition ex_run_state : DispatchState :=
  {| dispatch_context := run_context ex_draft "" None; effects := [] |}.

(** Business logic that fails on node 3 and succeeds elsewhere. *)
Definition ex_service_failing (node : AutomationNode) (_ : AutomationDispatchContext)
    : DispatchResult + Exception :=
  if node_id node =? 3 then inr (OtherDispatchException "refused") else inl ex_result.

(** The sample database with the window of workflow 1 full. *)
Definition ex_full_window : RunDb :=
  set_rate_limit_cache {[1 := [Datetime 1; Datetime 2; Datetime 3]]} (ex_run_db []).

(** Stand-ins for the collaborators of [toggle_test_run]: a workflow that
    cannot be tested at once, has no trigger and no sample data. *)
Definition ex_cannot_test (_ : AutomationWorkflow) (_ : RunDb) : bool := false.
Definition ex_no_trigger (_ : AutomationWorkflow) (_ : RunDb)
    : Exception + AutomationNode := inl (UnexpectedException "no trigger").
Definition ex_no_sample (_ : AutomationNode) (_ : Z) (_ : RunDb) : bool := false.

(* ===================================================================== *)
(** ** Properties of the graph store *)
(* ===================================================================== *)

Section TableLemmas.

Implicit Types (db : NodeTable) (P : NodeRow → bool) (n : AutomationNode).

Lemma elem_of_query P db n :
  n ∈ query P db ↔
  db !! node_id n = Some (node_row n) ∧ P n = true ∧ trashed n = false.
Proof.
  unfold query. rewrite list_elem_of_fmap. split.
  - intros [[k r] [-> Hin]]. simpl.
    apply elem_of_map_to_list in Hin.
    apply map_lookup_filter_Some in Hin as [Hl HP]. simpl in HP.
    apply andb_true_iff in HP as [HP Ht].
    apply negb_true_iff in Ht. done.
  - intros (Hl & HP & Ht). exists (node_id n, node_row n). split.
    + by destruct n.
    + apply elem_of_map_to_list, map_lookup_filter_Some. split; [done|].
      simpl. by rewrite HP, Ht.
Qed.

Lemma query_ids_selects P db i :
  i ∈ node_id <$> query P db ↔ selects P db i = true.
Proof.
  rewrite list_elem_of_fmap. unfold selects. split.
  - intros [n [-> Hn]]. apply elem_of_query in Hn as (-> & HP & Ht).
    by rewrite HP, Ht.
  - destruct (db !! i) as [r|] eqn:Hl; [|done]. intros HP.
    apply andb_true_iff in HP as [HP Ht]. apply negb_true_iff in Ht.
    exists {| node_id := i; node_row := r |}. split; [done|].
    by apply elem_of_query.
Qed.

Lemma lookup_save_fields n fs db i :
  save_fields n fs db !! i =
  if bool_decide (i = node_id n) then copy_fields fs n <$> db !! i else db !! i.
Proof.
  unfold save_fields. rewrite lookup_alter.
  case_decide; case_bool_decide; congruence.
Qed.

Lemma relink_idemp p o r : relink p o (relink p o r) = relink p o r.
Proof. by destruct o. Qed.

Lemma lookup_update_previous_node p ns o db i :
  (update_previous_node p ns o db).2 !! i =
  if bool_decide (i ∈ node_id <$> ns) then relink p o <$> db !! i else db !! i.
Proof.
  unfold update_previous_node, bulk_update. cbn [snd].
  revert db. induction ns as [|n ns IH]; intros db.
  - done.
  - cbn [fmap list_fmap foldl]. rewrite IH, lookup_save_fields.
    change (node_id (with_row _ n)) with (node_id n).
    destruct (decide (i = node_id n)) as [->|Hne].
    + rewrite (bool_decide_eq_true_2 (node_id n = node_id n)) by done.
      rewrite (bool_decide_eq_true_2 (node_id n ∈ node_id n :: _))
        by apply list_elem_of_here.
      destruct (db !! node_id n) as [r|]; simpl; [|by case_bool_decide].
      destruct o; by case_bool_decide.
    + rewrite (bool_decide_eq_false_2 (i = node_id n)) by done.
      rewrite (bool_decide_ext (i ∈ node_id n :: (node_id <$> ns))
                 (i ∈ node_id <$> ns)); [done|].
      rewrite elem_of_cons. naive_solver.
Qed.

Lemma lookup_update_previous_node_query p P db0 o db i :
  (update_previous_node p (query P db0) o db).2 !! i =
  if selects P db0 i then relink p o <$> db !! i else db !! i.
Proof.
  rewrite lookup_update_previous_node.
  destruct (selects P db0 i) eqn:Hs.
  - by rewrite bool_decide_eq_true_2 by by apply query_ids_selects.
  - rewrite bool_decide_eq_false_2; [done|].
    rewrite query_ids_selects. congruence.
Qed.

Lemma fresh_id_bound db i : is_Some (db !! i) → i < fresh_id db.
Proof.
  unfold fresh_id.
  apply (map_fold_weak_ind
           (λ b m, is_Some (m !! i) → i < 1 + b)
           (λ k (_ : NodeRow) acc, Z.max k acc)).
  - rewrite lookup_empty. by intros [? ?].
  - intros k x m b Hk IH. rewrite lookup_insert.
    case_decide as Hd; [subst; lia|]. intros Hs. specialize (IH Hs). lia.
Qed.

Lemma fresh_id_fresh db : db !! fresh_id db = None.
Proof.
  destruct (db !! fresh_id db) eqn:H; [|done].
  pose proof (fresh_id_bound db (fresh_id db) (mk_is_Some _ _ H)). lia.
Qed.

End TableLemmas.

Section MutationLemmas.

Implicit Types (db : NodeTable) (n node : AutomationNode) (r : NodeRow).

Lemma str_truthy_false s : str_truthy s = false ↔ s = "".
Proof. by destruct s. Qed.

Lemma str_truthy_true s : str_truthy s = true ↔ s ≠ "".
Proof. by destruct s. Qed.

Lemma node_get_next_nodes_query node o db :
  node_get_next_nodes node o db =
  query (follows (workflow_id node) (node_id node) o) db.
Proof. reflexivity. Qed.

Lemma follows_true w x o r :
  follows w x o r = true ↔
  workflow_id r = w ∧ previous_node_id r = Some x ∧
  match o with Some uid => previous_node_output r = uid | None => True end.
Proof.
  unfold follows, opt_Z_eqb, str_eqb.
  rewrite !andb_true_iff, Z.eqb_eq, bool_decide_eq_true.
  destruct o; [rewrite bool_decide_eq_true|]; naive_solver.
Qed.

Lemma foldr_max_ge (l : list Z) x : x ∈ l → x ≤ foldr Z.max 0 l.
Proof.
  induction l as [|y l IH]; [by intros ?%elem_of_nil|].
  rewrite elem_of_cons. simpl. intros [->|H]; [lia|]. specialize (IH H). lia.
Qed.

Lemma get_last_order_above w db i r :
  db !! i = Some r → trashed r = false → workflow_id r = w →
  order r < get_last_order w db.
Proof.
  intros Hl Ht Hw. unfold get_last_order.
  assert (order r ≤ foldr Z.max 0
            ((λ n : AutomationNode, order n)
               <$> query (λ r, workflow_id r =? w) db)); [|lia].
  apply foldr_max_ge, list_elem_of_fmap.
  exists {| node_id := i; node_row := r |}. split; [done|].
  apply elem_of_query. simpl. by rewrite Z.eqb_eq.
Qed.

(** The table [move_node] leaves behind, one update after the other. *)
Lemma move_node_table gu node after_node o ord db :
  (move_node gu node after_node o ord db).2 =
  let db1 :=
    (update_previous_node (previous_node_id node)
       (query (follows (workflow_id node) (node_id node) None) db)
       (Some (previous_node_output node)) db).2 in
  let node' := move_node_node (move_node gu node after_node o ord db).1 in
  let db2 :=
    save_fields node' [F_previous_node; F_previous_node_output; F_order] db1 in
  (update_previous_node (Some (node_id node))
     (query (follows (workflow_id after_node) (node_id after_node) o) db1)
     (if str_truthy (default "" o) then Some "" else None) db2).2.
Proof. reflexivity. Qed.

Lemma move_node_node_fields gu node after_node o ord db :
  let node' := move_node_node (move_node gu node after_node o ord db).1 in
  node_id node' = node_id node ∧
  previous_node_id node' = Some (node_id after_node) ∧
  previous_node_output node' = default "" o ∧
  workflow_id node' = workflow_id node.
Proof. done. Qed.

End MutationLemmas.

(* ===================================================================== *)
(** ** Properties of the graph mutations *)
(* ===================================================================== *)

Lemma selects_Some P (db : NodeTable) i r :
  db !! i = Some r → selects P db i = P r && negb (trashed r).
Proof. unfold selects. by intros ->. Qed.

Lemma selects_None P (db : NodeTable) i :
  db !! i = None → selects P db i = false.
Proof. unfold selects. by intros ->. Qed.

Lemma follows_false_prev w x o r :
  previous_node_id r ≠ Some x → follows w x o r = false.
Proof.
  intros H. apply not_true_iff_false. rewrite follows_true. naive_solver.
Qed.

(** One row through [move_node]. *)
Lemma move_node_lookup gu (node after_node : AutomationNode) o ord (db : NodeTable) i :
  (move_node gu node after_node o ord db).2 !! i =
  let db1 :=
    (update_previous_node (previous_node_id node)
       (query (follows (workflow_id node) (node_id node) None) db)
       (Some (previous_node_output node)) db).2 in
  let node' := move_node_node (move_node gu node after_node o ord db).1 in
  let mid :=
    if bool_decide (i = node_id node)
    then copy_fields [F_previous_node; F_previous_node_output; F_order] node'
           <$> db1 !! i
    else db1 !! i in
  if selects (follows (workflow_id after_node) (node_id after_node) o) db1 i
  then relink (Some (node_id node))
         (if str_truthy (default "" o) then Some "" else None) <$> mid
  else mid.
Proof.
  rewrite move_node_table. cbv zeta.
  by rewrite lookup_update_previous_node_query, lookup_save_fields.
Qed.

Lemma move_node_lookup_None gu (node after_node : AutomationNode) o ord (db : NodeTable) i :
  db !! i = None → (move_node gu node after_node o ord db).2 !! i = None.
Proof.
  intros Hl. rewrite move_node_lookup. cbv zeta.
  rewrite lookup_update_previous_node_query, Hl.
  assert (H1 : (if selects (follows (workflow_id node) (node_id node) None) db i
          then relink (previous_node_id node) (Some (previous_node_output node)) <$> None
          else None) = (None : option NodeRow)) by by destruct (selects _ _ _).
  rewrite H1.
  rewrite selects_None.
  2:{ by rewrite lookup_update_previous_node_query, Hl, H1. }
  by case_bool_decide.
Qed.

(** A row [move_node] finds at neither gap and which is not the moved node
    stays as it is. *)
Lemma move_node_lookup_other gu (node after_node : AutomationNode) o ord (db : NodeTable) i r :
  db !! i = Some r → i ≠ node_id node →
  follows (workflow_id node) (node_id node) None r && negb (trashed r) = false →
  follows (workflow_id after_node) (node_id after_node) o r && negb (trashed r) = false →
  (move_node gu node after_node o ord db).2 !! i = Some r.
Proof.
  intros Hl Hne H1 H2. rewrite move_node_lookup. cbv zeta.
  rewrite lookup_update_previous_node_query, (selects_Some _ _ _ _ Hl), H1.
  rewrite (selects_Some _ _ i r).
  2:{ by rewrite lookup_update_previous_node_query, (selects_Some _ _ _ _ Hl), H1. }
  rewrite H2. by rewrite bool_decide_eq_false_2.
Qed.

(** A successor of the moved node closes the gap at the origin. *)
Lemma move_node_lookup_origin gu (node after_node : AutomationNode) o ord (db : NodeTable) i r :
  db !! i = Some r → i ≠ node_id node →
  follows (workflow_id node) (node_id node) None r && negb (trashed r) = true →
  previous_node_id node ≠ Some (node_id after_node) →
  (move_node gu node after_node o ord db).2 !! i =
  Some (relink (previous_node_id node) (Some (previous_node_output node)) r).
Proof.
  intros Hl Hne H1 Hpa. rewrite move_node_lookup. cbv zeta.
  rewrite lookup_update_previous_node_query, (selects_Some _ _ _ _ Hl), H1.
  rewrite (selects_Some _ _ i (relink (previous_node_id node) (Some (previous_node_output node)) r)).
  2:{ by rewrite lookup_update_previous_node_query, (selects_Some _ _ _ _ Hl), H1, Hl. }
  rewrite follows_false_prev by done.
  rewrite bool_decide_eq_false_2 by done. cbn [andb]. by rewrite Hl.
Qed.

(** A node at the destination gap is put behind the moved node. *)
Lemma move_node_lookup_destination gu (node after_node : AutomationNode) o ord (db : NodeTable) i r :
  db !! i = Some r → i ≠ node_id node →
  follows (workflow_id node) (node_id node) None r && negb (trashed r) = false →
  follows (workflow_id after_node) (node_id after_node) o r && negb (trashed r) = true →
  (move_node gu node after_node o ord db).2 !! i =
  Some (relink (Some (node_id node))
          (if str_truthy (default "" o) then Some "" else None) r).
Proof.
  intros Hl Hne H1 H2. rewrite move_node_lookup. cbv zeta.
  rewrite lookup_update_previous_node_query, (selects_Some _ _ _ _ Hl), H1.
  rewrite (selects_Some _ _ i r).
  2:{ by rewrite lookup_update_previous_node_query, (selects_Some _ _ _ _ Hl), H1. }
  rewrite H2. rewrite bool_decide_eq_false_2 by done. by rewrite Hl.
Qed.

(** The moved node itself, when it sits at neither gap. *)
Lemma move_node_lookup_self gu (node after_node : AutomationNode) o ord (db : NodeTable) r :
  db !! node_id node = Some r →
  previous_node_id r ≠ Some (node_id node) →
  previous_node_id r ≠ Some (node_id after_node) →
  (move_node gu node after_node o ord db).2 !! node_id node =
  Some (copy_fields [F_previous_node; F_previous_node_output; F_order]
          (move_node_node (move_node gu node after_node o ord db).1) r).
Proof.
  intros Hl H1 H2. rewrite move_node_lookup. cbv zeta.
  rewrite lookup_update_previous_node_query, (selects_Some _ _ _ _ Hl).
  rewrite follows_false_prev by done. cbn [andb].
  rewrite (selects_Some _ _ _ r).
  2:{ rewrite lookup_update_previous_node_query, (selects_Some _ _ _ _ Hl).
      by rewrite follows_false_prev by done. }
  rewrite follows_false_prev by done. cbn [andb].
  rewrite bool_decide_eq_true_2 by done. by rewrite Hl.
Qed.

(** C4, as amended.  Move destination relink: when the moved node and the
    node it is moved after are two nodes, every node that follows
    [after_node] on the destination branch (the given output key, or the
    default continuation when none is given) before [move_node] is,
    afterwards, a node whose previous node is the moved node and whose
    output key is empty. *)
Theorem move_node_destination_relink gu (node after_node : AutomationNode)
    (new_output : option string) (new_order : option Z) (db : NodeTable) :
  node_id after_node ≠ node_id node →
  ∀ i r,
    db !! i = Some r → trashed r = false →
    workflow_id r = workflow_id after_node →
    previous_node_id r = Some (node_id after_node) →
    previous_node_output r = default "" new_output →
    ∃ r', (move_node gu node after_node new_output new_order db).2 !! i = Some r'
          ∧ previous_node_id r' = Some (node_id node)
          ∧ previous_node_output r' = "".
Proof.
  intros Hne i r Hl Ht Hw Hp Ho.
  rewrite move_node_table. cbv zeta.
  set (db1 := (update_previous_node _ _ _ db).2).
  assert (Hdb1 : db1 !! i = Some r).
  { unfold db1. rewrite lookup_update_previous_node_query.
    unfold selects. rewrite Hl.
    replace (follows (workflow_id node) (node_id node) None r) with false; [done|].
    symmetry. apply not_true_iff_false. rewrite follows_true. naive_solver. }
  rewrite lookup_update_previous_node_query.
  assert (Hsel : selects (follows (workflow_id after_node) (node_id after_node) new_output) db1 i = true).
  { unfold selects. rewrite Hdb1, Ht. rewrite andb_true_r.
    apply follows_true. destruct new_output; naive_solver. }
  rewrite Hsel, lookup_save_fields, Hdb1.
  case_bool_decide as Hi; simpl.
  - eexists; split; [done|]. split.
    + by destruct (str_truthy (default "" new_output)).
    + destruct (str_truthy (default "" new_output)) eqn:E; [done|].
      simpl. by apply str_truthy_false.
  - eexists; split; [done|]. split.
    + by destruct (str_truthy (default "" new_output)).
    + destruct (str_truthy (default "" new_output)) eqn:E; [done|].
      simpl. rewrite Ho. by apply str_truthy_false.
Qed.

(** When no output key is given, [move_node] also takes along the successors
    of [after_node] on its named outputs, and these keep their key. *)
Lemma move_node_without_key_keeps_outputs gu (node after_node : AutomationNode)
    (new_order : option Z) (db : NodeTable) i r :
  node_id after_node ≠ node_id node → i ≠ node_id node →
  db !! i = Some r → trashed r = false →
  workflow_id r = workflow_id after_node →
  previous_node_id r = Some (node_id after_node) →
  (move_node gu node after_node None new_order db).2 !! i
  = Some (set_previous_node_id (Some (node_id node)) r).
Proof.
  intros Hne Hi Hl Ht Hw Hp.
  rewrite (move_node_lookup_destination gu node after_node None new_order db i r);
    [done|done|done| |].
  - rewrite follows_false_prev; [done|]. congruence.
  - rewrite Ht, andb_true_r. by apply follows_true.
Qed.

Lemma duplicate_node_table S (db : NodeTable) :
  let d := duplicated_node (duplicate_node S db).1 in
  node_id d = fresh_id db ∧
  (duplicate_node S db).2 =
  (update_previous_node (Some (node_id d))
     (query (follows (workflow_id S) (node_id S) (Some "")) db) None
     (<[node_id d := node_row d]> db)).2 ∧
  workflow_id d = workflow_id S ∧
  previous_node_id d = Some (node_id S) ∧
  previous_node_output d = "" ∧
  order d = get_last_order (workflow_id S) db ∧
  node_type d = node_type S ∧ label d = label S ∧ trashed d = false.
Proof. done. Qed.

(** C6.  Duplicate default-branch relink: [duplicate_node] inserts a copy of
    the source that follows the source on the empty output and is last in
    the display order of the workflow; exactly the successors of the source
    on the empty output are relinked to the copy; every other row, the
    named-branch successors of the source among them, is left as it was. *)
Theorem duplicate_node_default_branch_relink (S : AutomationNode) (db : NodeTable) :
  let d := duplicated_node (duplicate_node S db).1 in
  let db' := (duplicate_node S db).2 in
  (* the copy is a new row that follows S on the default branch, last in order *)
  db !! node_id d = None ∧
  db' !! node_id d = Some (node_row d) ∧
  previous_node_id d = Some (node_id S) ∧
  previous_node_output d = "" ∧
  workflow_id d = workflow_id S ∧
  node_type d = node_type S ∧
  (∀ i r, db !! i = Some r → trashed r = false →
          workflow_id r = workflow_id S → order r < order d) ∧
  (* exactly the default-branch successors of S are relinked to the copy *)
  (∀ i r, db !! i = Some r →
     db' !! i =
     Some (if follows (workflow_id S) (node_id S) (Some "") r && negb (trashed r)
           then set_previous_node_id (Some (node_id d)) r else r)) ∧
  (* so a named-branch successor of S still follows S *)
  (∀ i r, db !! i = Some r → previous_node_id r = Some (node_id S) →
          previous_node_output r ≠ "" → db' !! i = Some r).
Proof.
  destruct (duplicate_node_table S db)
    as (Hid & Htab & Hw & Hp & Ho & Hord & Hty & _ & _).
  cbv zeta. set (d := duplicated_node (duplicate_node S db).1) in *.
  assert (Hfresh : db !! node_id d = None) by (rewrite Hid; apply fresh_id_fresh).
  assert (Hrows : ∀ i r, db !! i = Some r →
     (duplicate_node S db).2 !! i =
     Some (if follows (workflow_id S) (node_id S) (Some "") r && negb (trashed r)
           then set_previous_node_id (Some (node_id d)) r else r)).
  { intros i r Hl. rewrite Htab, lookup_update_previous_node_query.
    unfold selects. rewrite Hl.
    assert (i ≠ node_id d) by congruence.
    rewrite lookup_insert_ne by done. rewrite Hl.
    by destruct (_ && _). }
  split_and!; try done.
  - rewrite Htab, lookup_update_previous_node_query.
    unfold selects. rewrite Hfresh. by rewrite lookup_insert_eq.
  - intros i r Hl Ht Hwf. rewrite Hord. by eapply get_last_order_above.
  - intros i r Hl Hpr Hne. rewrite (Hrows _ _ Hl).
    replace (follows (workflow_id S) (node_id S) (Some "") r) with false; [done|].
    symmetry. apply not_true_iff_false. rewrite follows_true. naive_solver.
Qed.


Lemma update_previous_node_nil p o (db : NodeTable) :
  (update_previous_node p [] o db).2 = db.
Proof. done. Qed.

Lemma create_node_before_table gu gl ty workflow (B : AutomationNode) kwargs (db : NodeTable) :
  let N := (create_node gu gl ty workflow (Some B) kwargs db).1 in
  node_id N = fresh_id db ∧
  previous_node_id N =
    match kw_previous_node_id kwargs with
    | Some p => p
    | None => previous_node_id B
    end ∧
  previous_node_output N =
    (if str_truthy (previous_node_output B) then previous_node_output B
     else default "" (kw_previous_node_output kwargs)) ∧
  (create_node gu gl ty workflow (Some B) kwargs db).2 =
    let db2 :=
      (update_previous_node (Some (node_id N))
         (query (shares_slot workflow B) db) None
         (<[node_id N := node_row N]> db)).2 in
    if str_truthy (previous_node_output B)
    then save_fields (with_row (set_previous_node_output "") B)
           [F_previous_node_output] db2
    else db2.
Proof.
  cbv zeta. unfold create_node. cbn [insert_node].
  fold (shares_slot workflow B).
  split_and!; try done.
  - cbn. by destruct (str_truthy _).
  - cbn [fst snd node_id node_row].
    destruct (query (shares_slot workflow B) db) eqn:E; [|done].
    by rewrite update_previous_node_nil.
Qed.

(** C3, as amended.  Create-before splice: when the keyword arguments carry
    no [previous_node_id] of their own, the node created before [B] takes
    the former previous node of [B]; a non-empty output key of [B] passes to
    the new node and is cleared on [B]; and every node of the workflow that
    shared the former (previous node, output) pair of [B] has the new node
    as its previous node. *)
Theorem create_before_splice gu gl (ty : AutomationNodeType) (workflow : Z)
    (B : AutomationNode) (kwargs : CreateKwargs) (db : NodeTable) (p : Z) :
  db !! node_id B = Some (node_row B) →
  previous_node_id B = Some p →
  kw_previous_node_id kwargs = None →
  let N := (create_node gu gl ty workflow (Some B) kwargs db).1 in
  let db' := (create_node gu gl ty workflow (Some B) kwargs db).2 in
  db !! node_id N = None ∧
  (∃ rN, db' !! node_id N = Some rN
         ∧ previous_node_id rN = Some p
         ∧ (previous_node_output B ≠ "" →
            previous_node_output rN = previous_node_output B)) ∧
  (previous_node_output B ≠ "" →
   ∃ rB, db' !! node_id B = Some rB ∧ previous_node_output rB = "") ∧
  (∀ i r, db !! i = Some r → trashed r = false → workflow_id r = workflow →
          previous_node_id r = Some p →
          previous_node_output r = previous_node_output B →
          ∃ r', db' !! i = Some r' ∧ previous_node_id r' = Some (node_id N)).
Proof.
  intros HB Hp Hkw. cbv zeta.
  destruct (create_node_before_table gu gl ty workflow B kwargs db)
    as (Hid & HNp & HNo & Htab).
  set (N := (create_node gu gl ty workflow (Some B) kwargs db).1) in *.
  rewrite Hkw, Hp in HNp.
  pose proof (fresh_id_fresh db) as Hfresh. rewrite <- Hid in Hfresh.
  assert (HneB : node_id B ≠ node_id N) by congruence.
  (* what the relinking step leaves in each row *)
  set (db2 := (update_previous_node (Some (node_id N))
                 (query (shares_slot workflow B) db) None
                 (<[node_id N := node_row N]> db)).2) in *.
  assert (HN2 : db2 !! node_id N = Some (node_row N)).
  { unfold db2. rewrite lookup_update_previous_node_query.
    unfold selects. rewrite Hfresh. by rewrite lookup_insert_eq. }
  assert (Hold2 : ∀ i r, db !! i = Some r →
            db2 !! i = Some (if shares_slot workflow B r && negb (trashed r)
                             then set_previous_node_id (Some (node_id N)) r
                             else r)).
  { intros i r Hl. unfold db2. rewrite lookup_update_previous_node_query.
    unfold selects. rewrite Hl.
    rewrite lookup_insert_ne by congruence. rewrite Hl.
    by destruct (_ && _). }
  cbv zeta in Htab. rewrite Htab. split_and!.
  - done.
  - exists (node_row N). split_and!.
    + destruct (str_truthy _); [|done].
      rewrite lookup_save_fields. by rewrite bool_decide_eq_false_2.
    + done.
    + intros Hne. apply str_truthy_true in Hne. by rewrite HNo, Hne.
  - intros Hne. apply str_truthy_true in Hne. rewrite Hne.
    rewrite lookup_save_fields. rewrite bool_decide_eq_true_2 by done.
    rewrite (Hold2 _ _ HB). simpl. eexists. split; [done|].
    by destruct (_ && _).
  - intros i r Hl Ht Hw Hpr Ho.
    assert (Hsh : shares_slot workflow B r && negb (trashed r) = true).
    { unfold shares_slot, opt_Z_eqb, str_eqb. rewrite Hp, Ht, Hw, Hpr, Ho.
      rewrite Z.eqb_refl. by rewrite !bool_decide_eq_true_2. }
    destruct (str_truthy (previous_node_output B)).
    + rewrite lookup_save_fields, (Hold2 _ _ Hl), Hsh.
      case_bool_decide; simpl; eexists; split; done.
    + rewrite (Hold2 _ _ Hl), Hsh. eexists; split; done.
Qed.

Lemma and_untrashed_true (b : bool) r :
  b && negb (trashed r) = true ↔ b = true ∧ trashed r = false.
Proof. rewrite andb_true_iff, negb_true_iff. done. Qed.

Lemma row_eta_relink r p o :
  previous_node_id r = p → previous_node_output r = o →
  set_previous_node_output o (set_previous_node_id p r) = r.
Proof. destruct r; simpl; by intros -> ->. Qed.

Lemma row_eta_moved r p o a b c ord :
  previous_node_id r = p → previous_node_output r = o →
  set_order ord (set_previous_node_output o (set_previous_node_id p
    (set_order c (set_previous_node_output b (set_previous_node_id a r)))))
  = set_order ord r.
Proof. destruct r; simpl; by intros -> ->. Qed.

Lemma copy_fields_move_previous (n r : NodeRow) :
  previous_node_id
    (copy_fields [F_previous_node; F_previous_node_output; F_order] n r)
  = previous_node_id n.
Proof. done. Qed.

Lemma relink_restore_inner r p o p' o' oo :
  previous_node_id r = p → previous_node_output r = o →
  match oo with Some s => s = o | None => o' = o end →
  relink p oo (relink p' (Some o') r) = r.
Proof. destruct r, oo; simpl; intros; by subst. Qed.

Lemma relink_restore_outer r p o p' oo :
  previous_node_id r = p → previous_node_output r = o →
  relink p (Some o) (relink p' oo r) = r.
Proof. destruct r, oo; simpl; intros; by subst. Qed.

Lemma relink_fields p o r :
  previous_node_id (relink p o r) = p ∧
  previous_node_output (relink p o r) = default (previous_node_output r) o ∧
  workflow_id (relink p o r) = workflow_id r ∧
  trashed (relink p o r) = trashed r.
Proof. by destruct o. Qed.

Lemma follows_relink w x o p oo r :
  follows w x o (relink p oo r) = true ↔
  workflow_id r = w ∧ p = Some x ∧
  match o with
  | Some uid => default (previous_node_output r) oo = uid
  | None => True
  end.
Proof.
  rewrite follows_true.
  destruct (relink_fields p oo r) as (-> & -> & -> & _). done.
Qed.

(** C5, as amended.  Move round trip: let [X] be the only node on output [k]
    of its predecessor [P], let every successor of [X] sit on the empty
    output, and let [Y] be a node other than [X] and [P].  Moving [X] after
    [Y] and then back after [P] on output [k] gives back the table it
    started from, the order of [X] aside, provided that a first move made
    without an output key finds no successor of [Y] on a named output. *)
Theorem move_round_trip gu (X Y Pn : AutomationNode) (p : Z)
    (o1 : option string) (ord1 ord2 : option Z) (db : NodeTable) :
  let x := node_id X in
  let y := node_id Y in
  let w := workflow_id X in
  let k := previous_node_output X in
  db !! x = Some (node_row X) →
  previous_node_id X = Some p →
  node_id Pn = p → workflow_id Pn = w → workflow_id Y = w →
  y ≠ x → y ≠ p → p ≠ x →
  (∀ i r, db !! i = Some r → trashed r = false → workflow_id r = w →
          previous_node_id r = Some p → previous_node_output r = k → i = x) →
  (∀ i r, db !! i = Some r → trashed r = false → workflow_id r = w →
          previous_node_id r = Some x → previous_node_output r = "") →
  (o1 = None →
   ∀ i r, db !! i = Some r → trashed r = false → workflow_id r = w →
          previous_node_id r = Some y → previous_node_output r = "") →
  let m1 := move_node gu X Y o1 ord1 db in
  let m2 := move_node gu (move_node_node m1.1) Pn (Some k) ord2 m1.2 in
  ∀ i, m2.2 !! i =
       if bool_decide (i = x)
       then set_order (order (move_node_node m2.1)) <$> db !! i
       else db !! i.
Proof.
  intros x y w k HX HXp HPn HPw HYw Hyx Hyp Hpx Hslot HXs HYs m1 m2 i.
  subst x y w k.
  pose proof (move_node_node_fields gu X Y o1 ord1 db) as (HX'id & HX'p & HX'o & HX'w).
  cbv zeta in *. fold m1 in HX'id, HX'p, HX'o, HX'w.
  set (X' := move_node_node m1.1) in *.
  pose proof (move_node_node_fields gu X' Pn (Some (previous_node_output X)) ord2 m1.2) as (HX''id & HX''p & HX''o & _).
  cbv zeta in *. fold m2 in HX''id, HX''p, HX''o.
  destruct (db !! i) as [r|] eqn:Hl.
  2:{ unfold m2. rewrite move_node_lookup_None; [by case_bool_decide|].
      unfold m1. by apply move_node_lookup_None. }
  destruct (decide (i = node_id X)) as [->|Hix].
  { (* the moved node *)
    rewrite bool_decide_eq_true_2 by done.
    assert (r = node_row X) as -> by congruence.
    assert (H1 : m1.2 !! node_id X =
      Some (copy_fields [F_previous_node; F_previous_node_output; F_order] X' X)).
    { unfold m1. apply move_node_lookup_self; [done| |]; rewrite HXp; congruence. }
    unfold m2. rewrite <- HX'id.
    erewrite move_node_lookup_self; [| rewrite HX'id; exact H1 | |].
    - fold m2. unfold copy_fields. cbn [foldl copy_field fmap option_fmap option_map].
      f_equal. rewrite HX''p, HX''o, HPn. by apply row_eta_moved.
    - rewrite copy_fields_move_previous, HX'p, HX'id. congruence.
    - rewrite copy_fields_move_previous, HX'p, HPn. congruence. }
  rewrite bool_decide_eq_false_2 by done.
  destruct (follows (workflow_id X) (node_id X) None r && negb (trashed r)) eqn:ES.
  { (* a successor of the moved node *)
    pose proof ES as [(Hw & Hp & _)%follows_true Ht]%and_untrashed_true.
    assert (H1 : m1.2 !! i = Some (relink (Some p) (Some (previous_node_output X)) r)).
    { unfold m1. rewrite <- HXp. apply move_node_lookup_origin; try done.
      rewrite HXp. congruence. }
    unfold m2. erewrite move_node_lookup_destination; [| exact H1 | by rewrite HX'id | |].
    - f_equal. specialize (HXs i r Hl Ht Hw Hp).
      apply (relink_restore_inner r _ ""); [done..|]. unfold default. cbn [from_option id].
      destruct (str_truthy (previous_node_output X)) eqn:Ek; simpl; [done|].
      by apply str_truthy_false in Ek.
    - rewrite follows_false_prev; [done|].
      destruct (relink_fields (Some p) (Some (previous_node_output X)) r) as (-> & _).
      rewrite HX'id. congruence.
    - apply and_untrashed_true. split.
      + apply follows_relink. by rewrite HPw, HPn.
      + by destruct (relink_fields (Some p) (Some (previous_node_output X)) r)
          as (_ & _ & _ & ->). }
  destruct (follows (workflow_id X) (node_id Y) o1 r && negb (trashed r)) eqn:ED.
  { (* a node at the destination gap *)
    pose proof ED as [(Hw & Hp & Ho)%follows_true Ht]%and_untrashed_true.
    assert (H1 : m1.2 !! i =
      Some (relink (Some (node_id X)) (if str_truthy (default "" o1) then Some "" else None) r)).
    { unfold m1. apply move_node_lookup_destination; try done. by rewrite HYw. }
    unfold m2. erewrite move_node_lookup_origin; [| exact H1 | by rewrite HX'id | |].
    - f_equal. rewrite HX'p, HX'o.
      assert (previous_node_output r = default "" o1) as Hout.
      { destruct o1 as [s|]; [done|]. simpl. by eapply HYs. }
      by apply relink_restore_outer.
    - apply and_untrashed_true. split.
      + apply follows_relink. by rewrite HX'w, HX'id.
      + by destruct (relink_fields (Some (node_id X))
               (if str_truthy (default "" o1) then Some "" else None) r)
          as (_ & _ & _ & ->).
    - rewrite HX'p, HPn. congruence. }
  (* any other row *)
  assert (H1 : m1.2 !! i = Some r).
  { unfold m1. apply move_node_lookup_other; try done. by rewrite HYw. }
  unfold m2.
  apply move_node_lookup_other;
    [done | by rewrite HX'id | by rewrite HX'w, HX'id |].
  rewrite HPw, HPn. apply not_true_iff_false.
  intros [(Hw & Hp & Ho)%follows_true Ht]%and_untrashed_true.
  by specialize (Hslot i r Hl Ht Hw Hp Ho).
Qed.

(* ===================================================================== *)
(** ** Properties of the dispatch and of the run controller *)
(* ===================================================================== *)

Lemma query_singleton (P : NodeRow → bool) (db : NodeTable) (n : AutomationNode) :
  db !! node_id n = Some (node_row n) →
  P n = true → trashed n = false →
  (∀ i r, db !! i = Some r → P r = true → trashed r = false → i = node_id n) →
  query P db = [n].
Proof.
  intros Hl HP Ht Huniq. unfold query.
  assert (filter (λ kr : Z * NodeRow, P kr.2 && negb (trashed kr.2) = true) db
          = {[node_id n := node_row n]}) as ->.
  { apply map_eq. intros i. destruct (decide (i = node_id n)) as [->|Hne].
    - rewrite lookup_singleton_eq. apply map_lookup_filter_Some. split; [done|].
      simpl. by rewrite HP, Ht.
    - rewrite lookup_singleton_ne by done.
      apply map_lookup_filter_None. right. intros r Hr. simpl.
      intros [H1 H2%negb_true_iff]%andb_true_iff.
      by specialize (Huniq i r Hr H1 H2). }
  rewrite map_to_list_singleton. by destruct n.
Qed.

Section DispatchProps.

Variable service_dispatch :
  AutomationNode → AutomationDispatchContext → DispatchResult + Exception.

Lemma dispatch_node_unfold db depth (node : AutomationNode) st :
  dispatch_node service_dispatch db (S depth) node st =
  let st := emit (Dispatched (node_id node)) st in
  match service_dispatch node (dispatch_context st) with
  | inr e => (st, Some (translate_exception node e))
  | inl dispatch_result =>
      let st := after_dispatch node dispatch_result st in
      if bool_decide (simulate_until_node (dispatch_context st) = Some (node_id node))
      then (emit (NodeUpdatedSignal (node_id node))
              (emit (SampleDataRefreshed (node_id node)) st), None)
      else dispatch_next_nodes (dispatch_node service_dispatch db depth) node
             (node_get_next_nodes node (Some (output_uid dispatch_result)) db) st
  end.
Proof. reflexivity. Qed.

Lemma dispatch_node_until_here db depth (A : AutomationNode) st ra :
  simulate_until_node (dispatch_context st) = Some (node_id A) →
  service_dispatch A (dispatch_context st) = inl ra →
  dispatch_node service_dispatch db (S depth) A st =
  (emit (NodeUpdatedSignal (node_id A))
     (emit (SampleDataRefreshed (node_id A))
        (after_dispatch A ra (emit (Dispatched (node_id A)) st))), None).
Proof.
  intros Hsim Hd. rewrite dispatch_node_unfold. cbn [emit dispatch_context].
  rewrite Hd. cbn [after_dispatch dispatch_context simulate_until_node emit].
  by rewrite bool_decide_eq_true_2.
Qed.

(** C7.  Simulate-until halts recursion: in a workflow trigger -> A -> B
    whose simulation target is A, dispatching from the trigger runs the
    business logic of the trigger and of A, records the result of A,
    refreshes the sample data of A, and returns without an exception and
    without dispatching B. *)
Theorem simulate_until_halts_recursion depth (T A B : AutomationNode)
    (st : DispatchState) (rt ra : DispatchResult) :
  let db := table_of_three T A B in
  let t := node_id T in
  let a := node_id A in
  let b := node_id B in
  (* the workflow is trigger -> A -> B *)
  t ≠ a → t ≠ b → a ≠ b →
  previous_node_id T = None →
  previous_node_id A = Some t →
  previous_node_id B = Some a →
  workflow_id A = workflow_id T →
  trashed A = false →
  (* the simulation target is A *)
  simulate_until_node (dispatch_context st) = Some a →
  (* the trigger's business logic succeeds on the branch A is attached to,
     and so does A's *)
  service_dispatch T (dispatch_context st) = inl rt →
  output_uid rt = previous_node_output A →
  service_dispatch A
    (dispatch_context (after_dispatch T rt (emit (Dispatched t) st))) = inl ra →
  ∃ st',
    dispatch_node service_dispatch db (S (S depth)) T st = (st', None)
    ∧ effects st' =
        effects st ++
          [Dispatched t; Dispatched a; SampleDataRefreshed a; NodeUpdatedSignal a]
    ∧ previous_nodes_results (dispatch_context st') !! a = Some ra
    ∧ Dispatched b ∉
        [Dispatched t; Dispatched a; SampleDataRefreshed a; NodeUpdatedSignal a].
Proof.
  intros db t a b Hta Htb Hab HTp HAp HBp HAw HAt Hsim HdT Hout HdA.
  subst t a b.
  assert (Hnext : node_get_next_nodes T (Some (output_uid rt)) db = [A]).
  { rewrite node_get_next_nodes_query. apply query_singleton.
    - unfold db, table_of_three.
      rewrite lookup_insert_ne by done. by rewrite lookup_insert_eq.
    - apply follows_true. by rewrite Hout.
    - done.
    - intros i r Hl [_ [Hp _]]%follows_true _.
      unfold db, table_of_three in Hl.
      rewrite !lookup_insert, lookup_singleton in Hl.
      repeat case_decide; simplify_eq; congruence. }
  eexists. split_and!.
  - rewrite dispatch_node_unfold. cbn [emit dispatch_context]. rewrite HdT.
    cbn [after_dispatch dispatch_context simulate_until_node emit].
    rewrite Hsim. rewrite bool_decide_eq_false_2 by congruence.
    rewrite Hnext. cbn [dispatch_next_nodes].
    erewrite dispatch_node_until_here; [done|done|exact HdA].
  - cbn. by rewrite <- !app_assoc.
  - cbn. by rewrite lookup_insert_eq.
  - rewrite !elem_of_cons, elem_of_nil. intros [?|[?|[?|[?|[]]]]]; congruence.
Qed.

End DispatchProps.

Lemma in_window_true start v :
  in_window start v = true ↔ ∃ t, v = Datetime t ∧ start < t.
Proof.
  destruct v as [t|]; simpl.
  - rewrite Z.ltb_lt. naive_solver.
  - naive_solver.
Qed.

Lemma check_rate_limited_value_cases cfg now data :
  let recent :=
    List.filter
      (in_window (now - timedelta_seconds
                          (AUTOMATION_WORKFLOW_RATE_LIMIT_CACHE_EXPIRY_SECONDS cfg)))
      data in
  (AUTOMATION_WORKFLOW_RATE_LIMIT_MAX_RUNS cfg ≤ Z.of_nat (length recent)
   ∧ _check_is_rate_limited_value cfg now data
     = inr (AutomationWorkflowRateLimited rate_limited_message))
  ∨ (Z.of_nat (length recent) < AUTOMATION_WORKFLOW_RATE_LIMIT_MAX_RUNS cfg
     ∧ _check_is_rate_limited_value cfg now data = inl (recent ++ [Datetime now])).
Proof.
  cbv zeta. unfold _check_is_rate_limited_value.
  destruct (Z.leb_spec (AUTOMATION_WORKFLOW_RATE_LIMIT_MAX_RUNS cfg)
              (Z.of_nat (length (List.filter
                 (in_window (now - timedelta_seconds
                    (AUTOMATION_WORKFLOW_RATE_LIMIT_CACHE_EXPIRY_SECONDS cfg))) data))));
    [left|right]; done.
Qed.

Lemma filter_all {A} (f : A → bool) (l : list A) :
  Forall (λ v, f v = true) l → List.filter f l = l.
Proof. induction 1 as [|x l Hx _ IH]; simpl; [done|]. by rewrite Hx, IH. Qed.

Lemma check_is_rate_limited_passes cfg now wf d data :
  default [] (rate_limit_cache d !! wf) = data →
  Forall (λ v, in_window (now - timedelta_seconds
                 (AUTOMATION_WORKFLOW_RATE_LIMIT_CACHE_EXPIRY_SECONDS cfg)) v = true) data →
  Z.of_nat (length data) < AUTOMATION_WORKFLOW_RATE_LIMIT_MAX_RUNS cfg →
  _check_is_rate_limited cfg now wf d =
  (set_rate_limit_cache (<[wf := data ++ [Datetime now]]> (rate_limit_cache d)) d, None).
Proof.
  intros Hd Hall Hlen. unfold _check_is_rate_limited. rewrite Hd.
  destruct (check_rate_limited_value_cases cfg now data) as [[H1 _]|[_ ->]].
  - cbv zeta in H1. rewrite filter_all in H1 by done. lia.
  - cbv zeta. by rewrite filter_all.
Qed.

(** C2.  Rate limiting: the run is denied with [AutomationWorkflowRateLimited]
    exactly when at least the configured maximum of recorded timestamps lie
    within the configured window before now; otherwise the list stored is
    the timestamps of the window followed by now.  With a window of 60
    seconds and a maximum of 3, of four events within 60 seconds the first
    three are admitted and the fourth is denied. *)
Theorem rate_limited_iff_window_full cfg (now : Z) (data : list CacheValue) :
  let window :=
    timedelta_seconds (AUTOMATION_WORKFLOW_RATE_LIMIT_CACHE_EXPIRY_SECONDS cfg) in
  let max_runs := AUTOMATION_WORKFLOW_RATE_LIMIT_MAX_RUNS cfg in
  let recent := List.filter (in_window (now - window)) data in
  (* the entries counted are the timestamps of the last [window] *)
  (∀ v, v ∈ recent ↔ v ∈ data ∧ ∃ t, v = Datetime t ∧ now - window < t) ∧
  (* denied exactly when there are at least [max_runs] of them *)
  (_check_is_rate_limited_value cfg now data
     = inr (AutomationWorkflowRateLimited rate_limited_message)
   ↔ max_runs ≤ Z.of_nat (length recent)) ∧
  (* otherwise the pruned list with the current time appended is stored *)
  (Z.of_nat (length recent) < max_runs →
   _check_is_rate_limited_value cfg now data = inl (recent ++ [Datetime now])) ∧
  (* window = 60s and max = 3: of four events within 60s the first three
     are admitted and the fourth is denied *)
  (AUTOMATION_WORKFLOW_RATE_LIMIT_CACHE_EXPIRY_SECONDS cfg = 60 →
   max_runs = 3 →
   ∀ (wf : Z) (d : RunDb) (t1 t2 t3 t4 : Z),
     rate_limit_cache d !! wf = None →
     t1 ≤ t2 → t2 ≤ t3 → t3 ≤ t4 → t4 < t1 + timedelta_seconds 60 →
     let r1 := _check_is_rate_limited cfg t1 wf d in
     let r2 := _check_is_rate_limited cfg t2 wf r1.1 in
     let r3 := _check_is_rate_limited cfg t3 wf r2.1 in
     let r4 := _check_is_rate_limited cfg t4 wf r3.1 in
     r1.2 = None ∧ r2.2 = None ∧ r3.2 = None
     ∧ r4.2 = Some (AutomationWorkflowRateLimited rate_limited_message)
     ∧ r4.1 = r3.1).
Proof.
  cbv zeta. split_and!.
  - intros v. rewrite !list_elem_of_In, filter_In.
    by rewrite in_window_true.
  - destruct (check_rate_limited_value_cases cfg now data) as [[H1 ->]|[H1 ->]];
      cbv zeta in H1; split; try done; lia.
  - intros Hlt.
    destruct (check_rate_limited_value_cases cfg now data) as [[H1 _]|[_ ->]];
      [cbv zeta in H1; lia|done].
  - intros HW HM wf d t1 t2 t3 t4 Hnone H12 H23 H34 H41.
    assert (Hin : ∀ now t, now < t + timedelta_seconds 60 →
              in_window (now - timedelta_seconds
                (AUTOMATION_WORKFLOW_RATE_LIMIT_CACHE_EXPIRY_SECONDS cfg)) (Datetime t) = true).
    { intros n t H. rewrite HW. simpl. apply Z.ltb_lt. lia. }
    unfold timedelta_seconds in H41.
    rewrite (check_is_rate_limited_passes cfg t1 wf d []);
      [|by rewrite Hnone|done|simpl; lia].
    cbn [fst snd].
    rewrite (check_is_rate_limited_passes cfg t2 wf _ [Datetime t1]);
      [|simpl; by rewrite lookup_insert_eq
       |repeat constructor; apply Hin; unfold timedelta_seconds; lia
       |simpl; lia].
    cbn [fst snd].
    rewrite (check_is_rate_limited_passes cfg t3 wf _ [Datetime t1; Datetime t2]);
      [|simpl; by rewrite lookup_insert_eq
       |repeat constructor; apply Hin; unfold timedelta_seconds; lia
       |simpl; lia].
    cbn [fst snd].
    split_and!; try done.
    all: unfold _check_is_rate_limited; cbn [rate_limit_cache set_rate_limit_cache];
      rewrite lookup_insert_eq; cbn [default from_option id];
      unfold _check_is_rate_limited_value; cbn [List.filter app];
      rewrite !Hin by (unfold timedelta_seconds; lia);
      cbn [length]; rewrite HM; done.
Qed.

Section RunControllerLemmas.

Implicit Types (d : RunDb) (o w : AutomationWorkflow).

Lemma reset_workflows o d :
  ∃ g : WorkflowRow → WorkflowRow,
    (∀ r, state (g r) = state r)
    ∧ workflows (reset_workflow_temporary_states o d)
      = alter g (wf_id o) (workflows d)
    ∧ histories (reset_workflow_temporary_states o d) = histories d
    ∧ automations (reset_workflow_temporary_states o d) = automations d
    ∧ rate_limit_cache (reset_workflow_temporary_states o d) = rate_limit_cache d
    ∧ nodes (reset_workflow_temporary_states o d) = nodes d.
Proof.
  unfold reset_workflow_temporary_states.
  destruct (allow_test_run_until o), (simulate_until_node_id o); cbn [app].
  4:{ exists (λ r, r). split_and!; try done.
      apply map_eq. intros i. rewrite lookup_alter. case_decide; [|done].
      subst i. by destruct (workflows d !! wf_id o). }
  all: eexists; split_and!; [|reflexivity|done..]; done.
Qed.

Lemma reset_frame o d :
  histories (reset_workflow_temporary_states o d) = histories d
  ∧ automations (reset_workflow_temporary_states o d) = automations d
  ∧ rate_limit_cache (reset_workflow_temporary_states o d) = rate_limit_cache d
  ∧ nodes (reset_workflow_temporary_states o d) = nodes d
  ∧ (∀ i, i ≠ wf_id o →
       workflows (reset_workflow_temporary_states o d) !! i = workflows d !! i)
  ∧ (∀ i, state <$> workflows (reset_workflow_temporary_states o d) !! i
          = state <$> workflows d !! i).
Proof.
  destruct (reset_workflows o d) as (g & Hg & -> & Hh & Ha & Hc & Hn).
  split_and!; try done.
  - intros i Hne. by rewrite lookup_alter_ne.
  - intros i. rewrite lookup_alter. case_decide; [|done]. subst i.
    destruct (workflows d !! wf_id o); [|done]. simpl. by rewrite Hg.
Qed.

Lemma check_too_many_errors_histories cfg o d d' :
  histories d' = histories d →
  _check_too_many_errors cfg o d' = _check_too_many_errors cfg o d.
Proof. unfold _check_too_many_errors. by intros ->. Qed.

Lemma elem_of_insert_by_started_on x h l :
  x ∈ insert_by_started_on h l ↔ x = h ∨ x ∈ l.
Proof.
  induction l as [|y l IH]; cbn.
  - rewrite list_elem_of_singleton, elem_of_nil. naive_solver.
  - destruct (started_on y <=? started_on h).
    + by rewrite elem_of_cons.
    + rewrite !elem_of_cons, IH. naive_solver.
Qed.

Lemma elem_of_order_by_started_on_desc x l :
  x ∈ order_by_started_on_desc l ↔ x ∈ l.
Proof.
  induction l as [|y l IH]; [done|].
  cbn. by rewrite elem_of_insert_by_started_on, elem_of_cons, IH.
Qed.

(** A row that started after all the others leads the order. *)
Lemma order_by_started_on_desc_leads h l :
  forallb (λ x, started_on x <? started_on h) l = true →
  order_by_started_on_desc (h :: l) = h :: order_by_started_on_desc l.
Proof.
  intros Hl. cbn [order_by_started_on_desc foldr].
  fold (order_by_started_on_desc l).
  destruct (order_by_started_on_desc l) as [|x l'] eqn:E; [done|].
  cbn. assert (Hx : x ∈ l).
  { apply elem_of_order_by_started_on_desc. rewrite E. apply list_elem_of_here. }
  rewrite forallb_forall in Hl.
  apply list_elem_of_In, Hl in Hx.
  by destruct (Z.leb_spec (started_on x) (started_on h)); [|lia].
Qed.

Lemma check_too_many_errors_started cfg o d h rest :
  histories d = h :: rest →
  history_workflow h = wf_id o → status h = STARTED →
  forallb (λ x, started_on x <? started_on h)
    (List.filter (λ h, history_workflow h =? wf_id o) rest) = true →
  _check_too_many_errors cfg o d =
  if consecutive_errors (AUTOMATION_WORKFLOW_MAX_CONSECUTIVE_ERRORS cfg)
       (status <$> order_by_started_on_desc
                     (List.filter (λ h, history_workflow h =? wf_id o) rest))
  then Some (AutomationWorkflowTooManyErrors (too_many_errors_message (wf_id o)))
  else None.
Proof.
  intros Hh Hw Hs Hlate. unfold _check_too_many_errors, consecutive_errors.
  rewrite Hh. cbn [List.filter]. rewrite Hw, Z.eqb_refl.
  rewrite order_by_started_on_desc_leads by done.
  cbn [fmap list_fmap]. rewrite Hs.
  generalize (status <$> order_by_started_on_desc (List.filter
                (λ h0 : AutomationWorkflowHistory, history_workflow h0 =? wf_id o) rest)).
  generalize (AUTOMATION_WORKFLOW_MAX_CONSECUTIVE_ERRORS cfg).
  intros N past.
  replace (N + 1)%nat with (S N) by lia. cbn [take].
  rewrite length_take.
  destruct (Nat.ltb_spec (N `min` length past) N) as [Hlt|Hge];
    destruct (Nat.leb_spec N (length past)) as [Hle|Hgt]; try lia; done.
Qed.

Lemma check_is_rate_limited_frame cfg now i d :
  let r := _check_is_rate_limited cfg now i d in
  histories r.1 = histories d ∧ automations r.1 = automations d
  ∧ workflows r.1 = workflows d ∧ nodes r.1 = nodes d
  ∧ (∀ j, j ≠ i → rate_limit_cache r.1 !! j = rate_limit_cache d !! j)
  ∧ (r.2 = None ∨ (r.1 = d ∧ ∃ m, r.2 = Some (AutomationWorkflowRateLimited m))).
Proof.
  cbv zeta. unfold _check_is_rate_limited, _check_is_rate_limited_value.
  destruct (_ <=? _); cbn; split_and!; try done; eauto.
  intros j Hj. by rewrite lookup_insert_ne.
Qed.

Lemma before_run_frame cfg now o d :
  let r := before_run cfg now o d in
  histories r.1 = histories d ∧ automations r.1 = automations d
  ∧ nodes r.1 = nodes d
  ∧ (∀ i, i ≠ wf_id o → workflows r.1 !! i = workflows d !! i)
  ∧ (∀ i, state <$> workflows r.1 !! i = state <$> workflows d !! i)
  ∧ (∀ j, j ≠ wf_id o → rate_limit_cache r.1 !! j = rate_limit_cache d !! j).
Proof.
  cbv zeta. unfold before_run. cbv zeta.
  destruct (reset_frame o d) as (Hh & Ha & Hc & Hn & Hw & Hs).
  destruct (_check_too_many_errors _ _ _).
  - cbn. split_and!; try done. intros. by rewrite Hc.
  - destruct (check_is_rate_limited_frame cfg now (wf_id o)
                (reset_workflow_temporary_states o d))
      as (Hh' & Ha' & Hw' & Hn' & Hc' & _).
    cbv zeta in *. split_and!; [congruence..| | |].
    + intros i Hi. etrans; [|by apply Hw]. by f_equal.
    + intros i. etrans; [|by apply Hs]. by do 2 f_equal.
    + intros j Hj. rewrite Hc' by done. by f_equal.
Qed.

Lemma run_body_frame sd lim cfg clock w o ctx d :
  let r := run_body sd lim cfg clock w o ctx d in
  r.1.1 = (before_run cfg (rate_limit_now clock) o d).1
  ∧ ((before_run cfg (rate_limit_now clock) o d).2 ≠ None →
     r.2 = (before_run cfg (rate_limit_now clock) o d).2 ∧ r.1.2 = []).
Proof.
  cbv zeta. unfold run_body.
  destruct (before_run _ _ _ _) as [d1 [e|]]; cbn; [done|].
  destruct (get_trigger _ _); [|done].
  destruct (dispatch_node _ _ _ _ _); cbn. done.
Qed.

Lemma disable_workflow_frame w d :
  histories (disable_workflow w d) = histories d
  ∧ automations (disable_workflow w d) = automations d
  ∧ rate_limit_cache (disable_workflow w d) = rate_limit_cache d
  ∧ nodes (disable_workflow w d) = nodes d.
Proof. done. Qed.

Lemma history_ids_below (l : list AutomationWorkflowHistory) h :
  h ∈ l → history_id h < 1 + foldr Z.max 0 (history_id <$> l).
Proof.
  intros Hin.
  assert (history_id h ≤ foldr Z.max 0 (history_id <$> l)); [|lia].
  apply foldr_max_ge. by apply list_elem_of_fmap_2.
Qed.

End RunControllerLemmas.

Section StartWorkflowProperties.

Variable service_dispatch :
  AutomationNode → AutomationDispatchContext → DispatchResult + Exception.
Variable recursion_limit : nat.
Variable misconfigured_is_dispatch_exception : bool.
Variable cfg : Settings.

Implicit Types (d : RunDb) (o w : AutomationWorkflow).


Lemma start_workflow_recorded clock w payload d o :
  get_original_workflow w d = Some o →
  let opened :=
    create_workflow_history o (start_time clock)
      (bool_decide (wf_id o = wf_id w)) d in
  let b := run_body service_dispatch recursion_limit cfg clock w o (run_context w payload None) opened.2 in
  let out := handle_outcome misconfigured_is_dispatch_exception o b.2 in
  start_workflow service_dispatch recursion_limit
      misconfigured_is_dispatch_exception cfg clock w payload None d =
  Some (save_history
          (close_history opened.1 (completion_time clock) out.1.1 out.1.2)
          (if out.2 then disable_workflow w b.1.1 else b.1.1),
        b.1.2).
Proof.
  intros Ho. cbv zeta. unfold start_workflow. rewrite Ho. cbn [mbind option_bind].
  rewrite bool_decide_eq_false_2 by (intros H; by apply H).
  cbn [create_workflow_history fst snd].
  fold (run_context w payload None).
  destruct (run_body _ _ _ _ _ _ _ _) as [[d2 effs] r]. cbn [fst snd].
  destruct (handle_outcome _ _ _) as [[msg st] dis]. done.
Qed.

Lemma start_workflow_simulated clock w payload n d o :
  get_original_workflow w d = Some o →
  let b := run_body service_dispatch recursion_limit cfg clock w o (run_context w payload (Some n)) d in
  let out := handle_outcome misconfigured_is_dispatch_exception o b.2 in
  start_workflow service_dispatch recursion_limit
      misconfigured_is_dispatch_exception cfg clock w payload (Some n) d =
  Some (if out.2 then disable_workflow w b.1.1 else b.1.1, b.1.2).
Proof.
  intros Ho. cbv zeta. unfold start_workflow. rewrite Ho. cbn [mbind option_bind].
  rewrite bool_decide_eq_true_2 by done.
  fold (run_context w payload (Some n)).
  destruct (run_body _ _ _ _ _ _ _ _) as [[d2 effs] r]. cbn [fst snd].
  destruct (handle_outcome _ _ _) as [[msg st] dis]. done.
Qed.

Lemma run_body_histories clock w o ctx d :
  histories (run_body service_dispatch recursion_limit cfg clock w o ctx d).1.1 = histories d.
Proof.
  destruct (run_body_frame service_dispatch recursion_limit cfg clock w o ctx d)
    as [-> _].
  by destruct (before_run_frame cfg (rate_limit_now clock) o d) as (-> & _).
Qed.

Lemma save_history_other k c (l : list AutomationWorkflowHistory) :
  (∀ r, r ∈ l → history_id r ≠ k) →
  (λ r, if history_id r =? k then c else r) <$> l = l.
Proof.
  induction l as [|r l IH]; intros H; csimpl; [done|].
  rewrite IH by (intros r' Hr'; apply H; by apply list_elem_of_further).
  destruct (Z.eqb_spec (history_id r) k) as [Heq|]; [|done].
  by destruct (H r (list_elem_of_here _ _)).
Qed.

Lemma save_history_head c h rest d :
  histories d = h :: rest →
  history_id c = history_id h →
  (∀ r, r ∈ rest → history_id r < history_id h) →
  histories (save_history c d) = c :: rest.
Proof.
  intros Hh Hid Hlt. unfold save_history. cbn [histories set_histories].
  rewrite Hh. csimpl. rewrite Hid, Z.eqb_refl. f_equal.
  apply save_history_other. intros r Hr. specialize (Hlt r Hr). lia.
Qed.

(** After a run that is not a simulation, the history is the old one with
    the closed entry of this run in front. *)
Lemma start_workflow_histories clock w payload d o :
  get_original_workflow w d = Some o →
  let opened :=
    create_workflow_history o (start_time clock)
      (bool_decide (wf_id o = wf_id w)) d in
  let b := run_body service_dispatch recursion_limit cfg clock w o (run_context w payload None) opened.2 in
  let out := handle_outcome misconfigured_is_dispatch_exception o b.2 in
  ∃ d',
    start_workflow service_dispatch recursion_limit
      misconfigured_is_dispatch_exception cfg clock w payload None d = Some (d', b.1.2)
    ∧ histories d' =
      close_history opened.1 (completion_time clock) out.1.1 out.1.2
        :: histories d
    ∧ automations d' = automations d
    ∧ rate_limit_cache d' = rate_limit_cache b.1.1
    ∧ workflows d' =
      workflows (if out.2 then disable_workflow w b.1.1 else b.1.1).
Proof.
  intros Ho. cbv zeta. eexists. split; [by apply start_workflow_recorded|].
  set (opened := create_workflow_history _ _ _ _).
  set (b := run_body _ _ _ _ _ _ _ _).
  set (out := handle_outcome _ _ _).
  assert (Hb : histories b.1.1 = opened.1 :: histories d).
  { unfold b. by rewrite run_body_histories. }
  split_and!.
  - apply save_history_head with (h := opened.1).
    + by destruct (out.2).
    + done.
    + intros r Hr. cbn. by apply history_ids_below.
  - destruct (out.2); cbn; unfold b;
      destruct (run_body_frame service_dispatch recursion_limit cfg clock w o
                  (run_context w payload None) opened.2) as [-> _];
      by destruct (before_run_frame cfg (rate_limit_now clock) o opened.2)
        as (_ & -> & _).
  - by destruct (out.2).
  - by destruct (out.2).
Qed.

Lemma reset_flags o d :
  (∀ r', workflows (reset_workflow_temporary_states o d) !! wf_id o = Some r' →
     (allow_test_run_until o ≠ None → allow_test_run_until r' = None)
     ∧ (simulate_until_node_id o ≠ None → simulate_until_node_id r' = None)).
Proof.
  unfold reset_workflow_temporary_states.
  destruct (allow_test_run_until o), (simulate_until_node_id o); cbn [app];
    cbn [workflows send_workflow_updated set_workflows];
    intros r'; rewrite ?lookup_alter_eq;
    try (destruct (workflows d !! wf_id o); cbn; intros [= <-]); done.
Qed.

Lemma reset_flags_frame o d i :
  i ≠ wf_id o →
  workflows (reset_workflow_temporary_states o d) !! i = workflows d !! i.
Proof. intros. by apply reset_frame. Qed.

Lemma foldr_alter_lookup (ids : list Z) (m : gmap Z WorkflowRow)
    (f : WorkflowRow → WorkflowRow) i :
  (∀ r, f (f r) = f r) →
  foldr (alter f) m ids !! i =
  if bool_decide (i ∈ ids) then f <$> m !! i else m !! i.
Proof.
  intros Hf. induction ids as [|k ids IH]; cbn [foldr].
  - by rewrite bool_decide_eq_false_2 by apply not_elem_of_nil.
  - destruct (decide (k = i)) as [->|Hne].
    + rewrite lookup_alter_eq, IH.
      rewrite (bool_decide_eq_true_2 (i ∈ i :: ids)) by apply list_elem_of_here.
      case_bool_decide; [|done].
      destruct (m !! i); [|done]. cbn. by rewrite Hf.
    + rewrite lookup_alter_ne by done. rewrite IH.
      rewrite (bool_decide_ext (i ∈ k :: ids) (i ∈ ids)); [done|].
      rewrite elem_of_cons. naive_solver.
Qed.

Lemma get_original_workflow_stable w d d' o :
  get_original_workflow w d = Some o →
  automations d' = automations d →
  (∀ i, state <$> workflows d' !! i = state <$> workflows d !! i) →
  ∃ o', get_original_workflow w d' = Some o' ∧ wf_id o' = wf_id o.
Proof.
  unfold get_original_workflow. intros Ho -> Hw.
  destruct (automations d !! automation_id w) as [a|]; [|done]. cbn in *.
  destruct (published_from_id a) as [k|]; [|by eexists].
  specialize (Hw k).
  destruct (workflows d !! k) as [r|]; [|done]. cbn in Ho. simplify_eq.
  destruct (workflows d' !! k) as [r'|]; [|done]. cbn. by eexists.
Qed.

Lemma disable_workflow_lookup w d o i :
  get_original_workflow w d = Some o →
  workflows (disable_workflow w d) !! i =
  if bool_decide (i ∈ [wf_id w; wf_id o])
  then disabled_row <$> workflows d !! i
  else workflows d !! i.
Proof.
  intros Ho. unfold disable_workflow. rewrite Ho.
  cbn [workflows set_workflows].
  by apply (foldr_alter_lookup [wf_id w; wf_id o] (workflows d) disabled_row).
Qed.

Lemma fmap_const_state (m1 m2 : option WorkflowRow) :
  state <$> m1 = state <$> m2 →
  (λ _, DISABLED) <$> m1 = (λ _ : WorkflowRow, DISABLED) <$> m2.
Proof. by destruct m1, m2. Qed.

Lemma consecutive_errors_spec n past :
  consecutive_errors n past = true ↔
  (n ≤ length past)%nat ∧ Forall (λ s, s = ERROR) (take n past).
Proof.
  unfold consecutive_errors.
  rewrite andb_true_iff, Nat.leb_le, forallb_forall, Forall_forall.
  split; intros [H1 H2]; (split; [done|]); intros s Hs.
  - apply list_elem_of_In, H2 in Hs. by destruct s.
  - apply list_elem_of_In, H2 in Hs. by subst.
Qed.

Lemma create_workflow_history_opened o t b d :
  let opened := create_workflow_history o t b d in
  status opened.1 = STARTED ∧ completed_on opened.1 = None
  ∧ history_workflow opened.1 = wf_id o ∧ started_on opened.1 = t
  ∧ is_test_run opened.1 = b
  ∧ histories opened.2 = opened.1 :: histories d
  ∧ automations opened.2 = automations d
  ∧ workflows opened.2 = workflows d
  ∧ rate_limit_cache opened.2 = rate_limit_cache d
  ∧ nodes opened.2 = nodes d.
Proof. done. Qed.

Lemma check_too_many_errors_opened o t b d :
  started_before t (wf_id o) d = true →
  _check_too_many_errors cfg o (create_workflow_history o t b d).2 =
  if consecutive_errors (AUTOMATION_WORKFLOW_MAX_CONSECUTIVE_ERRORS cfg)
       (past_statuses (wf_id o) d)
  then Some (AutomationWorkflowTooManyErrors (too_many_errors_message (wf_id o)))
  else None.
Proof.
  intros Hlate.
  by apply check_too_many_errors_started with (h := (create_workflow_history o t b d).1).
Qed.

Lemma before_run_opened clock o t b d :
  started_before t (wf_id o) d = true →
  let d1 := (create_workflow_history o t b d).2 in
  before_run cfg (rate_limit_now clock) o d1 =
  if consecutive_errors (AUTOMATION_WORKFLOW_MAX_CONSECUTIVE_ERRORS cfg)
       (past_statuses (wf_id o) d)
  then (reset_workflow_temporary_states o d1,
        Some (AutomationWorkflowTooManyErrors (too_many_errors_message (wf_id o))))
  else _check_is_rate_limited cfg (rate_limit_now clock) (wf_id o)
         (reset_workflow_temporary_states o d1).
Proof.
  intros Hlate. cbv zeta. unfold before_run. cbv zeta.
  rewrite (check_too_many_errors_histories cfg o _
             (reset_workflow_temporary_states o (create_workflow_history o t b d).2))
    by apply reset_frame.
  rewrite check_too_many_errors_opened by done. by destruct (consecutive_errors _ _).
Qed.

Lemma run_body_denied clock w o ctx t b d :
  started_before t (wf_id o) d = true →
  consecutive_errors (AUTOMATION_WORKFLOW_MAX_CONSECUTIVE_ERRORS cfg)
    (past_statuses (wf_id o) d) = true →
  let d1 := (create_workflow_history o t b d).2 in
  run_body service_dispatch recursion_limit cfg clock w o ctx d1 =
  (reset_workflow_temporary_states o d1, [],
   Some (AutomationWorkflowTooManyErrors (too_many_errors_message (wf_id o)))).
Proof.
  intros Hlate Hc. cbv zeta. unfold run_body.
  rewrite (before_run_opened clock o t b d) by done. by rewrite Hc.
Qed.

Lemma reset_opened_state o t b d i :
  state <$> workflows (reset_workflow_temporary_states o
                         (create_workflow_history o t b d).2) !! i
  = state <$> workflows d !! i.
Proof.
  by destruct (reset_frame o (create_workflow_history o t b d).2)
    as (_ & _ & _ & _ & _ & ->).
Qed.

Lemma original_after_reset w o t b d :
  get_original_workflow w d = Some o →
  ∃ o', get_original_workflow w
          (reset_workflow_temporary_states o (create_workflow_history o t b d).2)
        = Some o'
        ∧ wf_id o' = wf_id o.
Proof.
  intros Ho. apply (get_original_workflow_stable w d _ o Ho).
  - by destruct (reset_frame o (create_workflow_history o t b d).2)
      as (_ & -> & _).
  - intros i. apply reset_opened_state.
Qed.

(** C1, as amended.  Circuit breaker: in a run that is not a simulation and
    that starts after every earlier run of the original workflow did, the
    run's own Started entry is the latest of the history of the original
    workflow when the check is made, and the check denies with
    [AutomationWorkflowTooManyErrors] exactly when that history held at
    least N entries before and the N of them that started last are all
    Error.  On this denial nothing is dispatched, the entry is closed as
    Disabled, and the executing workflow and the workflow it was published
    from become Disabled, no other.  A Success among the N most recent
    entries lets the run through to the rate limit. *)
Theorem circuit_breaker_deny_iff clock w payload d o :
  get_original_workflow w d = Some o →
  started_before (start_time clock) (wf_id o) d = true →
  let N := AUTOMATION_WORKFLOW_MAX_CONSECUTIVE_ERRORS cfg in
  let past := past_statuses (wf_id o) d in
  let opened :=
    create_workflow_history o (start_time clock)
      (bool_decide (wf_id o = wf_id w)) d in
  let denial :=
    AutomationWorkflowTooManyErrors (too_many_errors_message (wf_id o)) in
  (* the check, made while the run's own Started entry is the latest of the
     history, denies exactly on N consecutive errors before that entry *)
  (_check_too_many_errors cfg o opened.2 = Some denial
   ↔ (N ≤ length past)%nat ∧ Forall (λ s, s = ERROR) (take N past))
  ∧ (_check_too_many_errors cfg o opened.2 = None
     ∨ _check_too_many_errors cfg o opened.2 = Some denial)
  (* on denial nothing is dispatched, the entry is closed as Disabled, and
     the executing workflow and its original are disabled, no other *)
  ∧ (_check_too_many_errors cfg o opened.2 = Some denial →
     ∃ d',
       start_workflow service_dispatch recursion_limit
      misconfigured_is_dispatch_exception cfg clock w payload None d = Some (d', [])
       ∧ histories d' =
         close_history opened.1 (completion_time clock)
           (too_many_errors_message (wf_id o)) HISTORY_DISABLED :: histories d
       ∧ (∀ i, i = wf_id w ∨ i = wf_id o →
            state <$> workflows d' !! i
            = (λ _, DISABLED) <$> workflows d !! i)
       ∧ (∀ i, i ≠ wf_id w → i ≠ wf_id o →
            state <$> workflows d' !! i = state <$> workflows d !! i)
       ∧ rate_limit_cache d' = rate_limit_cache d)
  (* one Success among the N most recent entries admits the run: the
     admission goes on to the rate limit *)
  ∧ (SUCCESS ∈ take N past →
     _check_too_many_errors cfg o opened.2 = None
     ∧ before_run cfg (rate_limit_now clock) o opened.2
       = _check_is_rate_limited cfg (rate_limit_now clock) (wf_id o)
           (reset_workflow_temporary_states o opened.2)).
Proof.
  intros Ho Hlate. cbv zeta.
  set (N := AUTOMATION_WORKFLOW_MAX_CONSECUTIVE_ERRORS cfg).
  set (past := past_statuses (wf_id o) d).
  set (opened := create_workflow_history _ _ _ _).
  assert (Hchk := check_too_many_errors_opened o (start_time clock)
                    (bool_decide (wf_id o = wf_id w)) d Hlate).
  fold opened N past in Hchk.
  split_and!.
  - rewrite Hchk, <- consecutive_errors_spec.
    destruct (consecutive_errors N past); naive_solver.
  - rewrite Hchk. destruct (consecutive_errors N past); eauto.
  - rewrite Hchk. destruct (consecutive_errors N past) eqn:Hc; [intros _|done].
    destruct (start_workflow_histories clock w payload d o Ho)
      as (d' & Hstart & Hh & Ha & Hcache & Hw).
    cbv zeta in Hstart, Hh, Hcache, Hw.
    rewrite (run_body_denied clock w o _ _ _ d Hlate Hc) in Hstart, Hh, Hcache, Hw.
    cbn [fst snd handle_outcome] in Hstart, Hh, Hcache, Hw.
    fold opened in Hstart, Hh, Hcache, Hw.
    exists d'. split_and!; try done.
    + intros i Hi. rewrite Hw.
      destruct (original_after_reset w o (start_time clock)
                  (bool_decide (wf_id o = wf_id w)) d Ho) as (o' & Ho' & Hid).
      fold opened in Ho'.
      rewrite (disable_workflow_lookup w _ o' i Ho'), Hid.
      rewrite bool_decide_eq_true_2
        by (rewrite !elem_of_cons; naive_solver).
      rewrite <- option_fmap_compose. apply fmap_const_state.
      apply reset_opened_state.
    + intros i Hw' Ho''. rewrite Hw.
      destruct (original_after_reset w o (start_time clock)
                  (bool_decide (wf_id o = wf_id w)) d Ho) as (o' & Ho' & Hid).
      fold opened in Ho'.
      rewrite (disable_workflow_lookup w _ o' i Ho'), Hid.
      rewrite bool_decide_eq_false_2
        by (rewrite !elem_of_cons, elem_of_nil; naive_solver).
      apply reset_opened_state.
    + rewrite Hcache.
      by destruct (reset_frame o opened.2) as (_ & _ & -> & _).
  - intros Hs.
    assert (Hc : consecutive_errors N past = false).
    { apply not_true_iff_false. rewrite consecutive_errors_spec.
      intros [_ Hall]. rewrite Forall_forall in Hall. by apply Hall in Hs. }
    rewrite Hchk, Hc. split; [done|].
    pose proof (before_run_opened clock o (start_time clock)
                  (bool_decide (wf_id o = wf_id w)) d Hlate) as Hbr.
    cbv zeta in Hbr. fold N past opened in Hbr. by rewrite Hbr, Hc.
Qed.

Lemma handle_outcome_status o (r : option Exception) :
  let st := (handle_outcome misconfigured_is_dispatch_exception o r).1.2 in
  (r = None → st = SUCCESS)
  ∧ ((∃ m, r = Some (AutomationWorkflowTooManyErrors m)) ↔ st = HISTORY_DISABLED)
  ∧ (r ≠ None → (∀ m, r ≠ Some (AutomationWorkflowTooManyErrors m)) → st = ERROR)
  ∧ st ≠ STARTED.
Proof.
  cbv zeta. destruct r as [[]|]; cbn;
    try destruct misconfigured_is_dispatch_exception; cbn;
    split_and!; try done; try naive_solver.
Qed.

(** C8.  History entry always closed: a run that is not a simulation opens a
    history entry with status Started and, whatever the try block raises,
    ends with that entry closed: [completed_on] set and a status of Success
    (nothing raised), Disabled (exactly when [AutomationWorkflowTooManyErrors]
    was raised) or Error (anything else).  A simulated run leaves the history
    as it was. *)
Theorem history_entry_always_closed clock w payload simulate_until d o :
  get_original_workflow w d = Some o →
  ∃ d' effs,
    start_workflow service_dispatch recursion_limit
      misconfigured_is_dispatch_exception cfg clock w payload simulate_until d = Some (d', effs)
    ∧ match simulate_until with
      | Some _ =>
          (* a simulated run records nothing *)
          histories d' = histories d
      | None =>
          let opened :=
            create_workflow_history o (start_time clock)
              (bool_decide (wf_id o = wf_id w)) d in
          (* what the try block raised, if anything *)
          let raised :=
            (run_body service_dispatch recursion_limit cfg clock w o (run_context w payload None) opened.2).2 in
          (* the entry is opened as Started ... *)
          status opened.1 = STARTED
          ∧ completed_on opened.1 = None
          ∧ histories opened.2 = opened.1 :: histories d
          (* ... and the same entry is closed, whatever happened *)
          ∧ ∃ closed,
              histories d' = closed :: histories d
              ∧ history_id closed = history_id opened.1
              ∧ history_workflow closed = wf_id o
              ∧ started_on closed = start_time clock
              ∧ completed_on closed = Some (completion_time clock)
              ∧ status closed ≠ STARTED
              ∧ (raised = None → status closed = SUCCESS)
              ∧ ((∃ m, raised = Some (AutomationWorkflowTooManyErrors m))
                 ↔ status closed = HISTORY_DISABLED)
              ∧ (raised ≠ None →
                 (∀ m, raised ≠ Some (AutomationWorkflowTooManyErrors m)) →
                 status closed = ERROR)
      end.
Proof.
  intros Ho. destruct simulate_until as [n|].
  - eexists _, _. split; [by apply start_workflow_simulated|].
    cbv zeta.
    set (b := run_body _ _ _ _ _ _ _ _).
    assert (Hb : histories b.1.1 = histories d) by apply run_body_histories.
    by destruct (handle_outcome _ _ _).2.
  - destruct (start_workflow_histories clock w payload d o Ho)
      as (d' & Hstart & Hh & _).
    cbv zeta in *. eexists d', _. split; [exact Hstart|].
    split_and!; try done.
    eexists. split; [exact Hh|].
    set (raised := (run_body _ _ _ _ _ _ _ _).2).
    destruct (handle_outcome_status o raised) as (H1 & H2 & H3 & H4).
    split_and!; try done.
Qed.

Lemma disable_workflow_flags w d i :
  temporary_states <$> workflows (disable_workflow w d) !! i
  = temporary_states <$> workflows d !! i.
Proof.
  unfold disable_workflow. cbn [workflows set_workflows].
  rewrite (foldr_alter_lookup _ _ disabled_row) by done.
  case_bool_decide; [|done]. by destruct (workflows d !! i).
Qed.

Lemma before_run_workflows now o d :
  workflows (before_run cfg now o d).1
  = workflows (reset_workflow_temporary_states o d).
Proof.
  unfold before_run. cbv zeta.
  destruct (_check_too_many_errors _ _ _); [done|].
  by destruct (check_is_rate_limited_frame cfg now (wf_id o)
                 (reset_workflow_temporary_states o d)) as (_ & _ & -> & _).
Qed.

Lemma check_too_many_errors_cases o d :
  _check_too_many_errors cfg o d = None
  ∨ _check_too_many_errors cfg o d
    = Some (AutomationWorkflowTooManyErrors (too_many_errors_message (wf_id o))).
Proof.
  unfold _check_too_many_errors. cbv zeta.
  destruct (_ <? _)%nat; [by left|]. destruct (forallb _ _); eauto.
Qed.

(** What a run leaves, simulated or not, in terms of the try block run on
    the database the checks see. *)
Lemma start_workflow_run clock w payload simulate_until d o :
  get_original_workflow w d = Some o →
  let opened :=
    create_workflow_history o (start_time clock)
      (bool_decide (wf_id o = wf_id w)) d in
  let checked := if simulate_until is Some _ then d else opened.2 in
  let b := run_body service_dispatch recursion_limit cfg clock w o
             (run_context w payload simulate_until) checked in
  let out := handle_outcome misconfigured_is_dispatch_exception o b.2 in
  ∃ d',
    start_workflow service_dispatch recursion_limit
      misconfigured_is_dispatch_exception cfg clock w payload simulate_until d
    = Some (d', b.1.2)
    ∧ histories d' =
      (if simulate_until is Some _ then histories d
       else close_history opened.1 (completion_time clock) out.1.1 out.1.2
              :: histories d)
    ∧ rate_limit_cache d' = rate_limit_cache b.1.1
    ∧ workflows d' =
      workflows (if out.2 then disable_workflow w b.1.1 else b.1.1).
Proof.
  intros Ho. destruct simulate_until as [n|]; cbv zeta.
  - eexists. split; [by apply start_workflow_simulated|].
    set (b := run_body _ _ _ _ _ _ _ _).
    assert (Hb : histories b.1.1 = histories d) by apply run_body_histories.
    by destruct (handle_outcome _ _ _).2.
  - destruct (start_workflow_histories clock w payload d o Ho)
      as (d' & Hstart & Hh & _ & Hcache & Hw).
    by exists d'.
Qed.

(** C10.  Admission and history are keyed to the original workflow, in every
    call of [start_workflow], simulated or not: the temporary states are
    reset on the workflow [get_original_workflow] returns and on no other
    row; the circuit breaker is decided by the history rows of the original
    alone (for a run that is not a simulation and starts after the earlier
    ones, by the N entries that started last before the run's own); the
    rate limit reads and writes the window stored under the original and no
    other.  A run that is not a simulation records one history entry, which
    belongs to the original workflow and is a test run exactly when the
    original is the executing workflow; a simulation records none. *)
Theorem admission_keyed_to_original clock w payload simulate_until d o :
  get_original_workflow w d = Some o →
  let N := AUTOMATION_WORKFLOW_MAX_CONSECUTIVE_ERRORS cfg in
  let now := rate_limit_now clock in
  let window := default [] (rate_limit_cache d !! wf_id o) in
  (* the database the checks are made on: a run that is not a simulation
     has opened its entry by then *)
  let checked :=
    if simulate_until is Some _ then d
    else (create_workflow_history o (start_time clock)
            (bool_decide (wf_id o = wf_id w)) d).2 in
  let breaker := _check_too_many_errors cfg o checked in
  ∃ d' effs,
    start_workflow service_dispatch recursion_limit
      misconfigured_is_dispatch_exception cfg clock w payload simulate_until d
    = Some (d', effs)
    (* the history entry belongs to the original workflow, and the run is a
       test run exactly when the original is the executing workflow *)
    ∧ match simulate_until with
      | Some _ => histories d' = histories d
      | None =>
          ∃ closed,
            histories d' = closed :: histories d
            ∧ history_workflow closed = wf_id o
            ∧ is_test_run closed = bool_decide (wf_id o = wf_id w)
            ∧ (breaker ≠ None → status closed = HISTORY_DISABLED)
            ∧ (breaker = None →
               ∀ e, _check_is_rate_limited_value cfg now window = inr e →
                    status closed = ERROR ∧ message closed = exception_str e)
      end
    (* the temporary states are reset on the original, on no other row *)
    ∧ (∀ r', workflows d' !! wf_id o = Some r' →
         (allow_test_run_until o ≠ None → allow_test_run_until r' = None)
         ∧ (simulate_until_node_id o ≠ None → simulate_until_node_id r' = None))
    ∧ (∀ i, i ≠ wf_id o →
         temporary_states <$> workflows d' !! i
         = temporary_states <$> workflows d !! i)
    (* the circuit breaker reads the history rows of the original, no other *)
    ∧ (∀ d2,
         List.filter (λ h, history_workflow h =? wf_id o) (histories d2)
         = List.filter (λ h, history_workflow h =? wf_id o) (histories checked) →
         _check_too_many_errors cfg o d2 = breaker)
    ∧ (simulate_until = None →
       started_before (start_time clock) (wf_id o) d = true →
       (breaker ≠ None ↔ consecutive_errors N (past_statuses (wf_id o) d) = true))
    ∧ (breaker ≠ None → effs = [] ∧ rate_limit_cache d' = rate_limit_cache d)
    (* the rate limit reads and writes the window of the original *)
    ∧ (∀ j, j ≠ wf_id o → rate_limit_cache d' !! j = rate_limit_cache d !! j)
    ∧ (breaker = None →
       match _check_is_rate_limited_value cfg now window with
       | inl window' => rate_limit_cache d' !! wf_id o = Some window'
       | inr e => rate_limit_cache d' = rate_limit_cache d ∧ effs = []
       end).
Proof.
  intros Ho. cbv zeta.
  destruct (start_workflow_run clock w payload simulate_until d o Ho)
    as (d' & Hstart & Hh & Hcache & Hw).
  cbv zeta in Hstart, Hh, Hcache, Hw.
  set (opened := create_workflow_history o (start_time clock)
                   (bool_decide (wf_id o = wf_id w)) d) in *.
  set (checked := if simulate_until is Some _ then d else opened.2) in *.
  set (b := run_body service_dispatch recursion_limit cfg clock w o
              (run_context w payload simulate_until) checked) in *.
  set (out := handle_outcome misconfigured_is_dispatch_exception o b.2) in *.
  set (breaker := _check_too_many_errors cfg o checked).
  destruct (run_body_frame service_dispatch recursion_limit cfg clock w o
              (run_context w payload simulate_until) checked) as [Hb1 Hb2].
  cbv zeta in Hb1, Hb2. fold b in Hb1, Hb2.
  (* what the checks see of the database the run started on *)
  assert (Hchecked : rate_limit_cache checked = rate_limit_cache d
                     ∧ workflows checked = workflows d).
  { unfold checked. by destruct simulate_until. }
  destruct Hchecked as [Hcc Hcw].
  assert (Hcache_reset :
    rate_limit_cache (reset_workflow_temporary_states o checked)
    = rate_limit_cache d).
  { destruct (reset_frame o checked) as (_ & _ & -> & _). done. }
  (* the admission, by the verdict of the breaker *)
  assert (Hbr : before_run cfg (rate_limit_now clock) o checked =
                match breaker with
                | Some e => (reset_workflow_temporary_states o checked, Some e)
                | None => _check_is_rate_limited cfg (rate_limit_now clock) (wf_id o)
                            (reset_workflow_temporary_states o checked)
                end).
  { unfold before_run. cbv zeta.
    rewrite (check_too_many_errors_histories cfg o checked
               (reset_workflow_temporary_states o checked))
      by apply reset_frame.
    done. }
  assert (Hdenied : breaker ≠ None →
            b.2 = Some (AutomationWorkflowTooManyErrors
                          (too_many_errors_message (wf_id o)))
            ∧ b.1.2 = []
            ∧ rate_limit_cache b.1.1 = rate_limit_cache d).
  { intros Hne.
    destruct (check_too_many_errors_cases o checked) as [Hn|Hs]; [done|].
    fold breaker in Hs. rewrite Hs in Hbr.
    destruct Hb2 as [Hb2 Hb3]; [by rewrite Hbr|].
    rewrite Hbr in Hb2. cbn [snd] in Hb2.
    split_and!; [done|done|]. by rewrite Hb1, Hbr. }
  assert (Hlimited : breaker = None →
            ∀ e, _check_is_rate_limited_value cfg (rate_limit_now clock)
                   (default [] (rate_limit_cache d !! wf_id o)) = inr e →
            b.2 = Some e ∧ b.1.2 = []
            ∧ rate_limit_cache b.1.1 = rate_limit_cache d
            ∧ ∃ m, e = AutomationWorkflowRateLimited m).
  { intros Hn e Hv. rewrite Hn in Hbr.
    unfold _check_is_rate_limited in Hbr. rewrite Hcache_reset, Hv in Hbr.
    destruct Hb2 as [Hb2 Hb3]; [by rewrite Hbr|].
    rewrite Hbr in Hb2. cbn [snd] in Hb2.
    split_and!; [done|done|by rewrite Hb1, Hbr|].
    unfold _check_is_rate_limited_value in Hv.
    destruct (_ <=? _); simplify_eq. by eexists. }
  exists d', b.1.2. split; [exact Hstart|].
  split_and!.
  - destruct simulate_until as [n|]; [done|].
    eexists. split; [exact Hh|]. split_and!; [done|done|..].
    + intros Hne. destruct (Hdenied Hne) as (Hb & _).
      cbn [status close_history]. unfold out. by rewrite Hb.
    + intros Hn e Hv. destruct (Hlimited Hn e Hv) as (Hb & _ & _ & m & ->).
      cbn [status message close_history]. unfold out. by rewrite Hb.
  - intros r' Hr'. rewrite Hw in Hr'.
    assert (∃ r'', workflows (reset_workflow_temporary_states o checked)
                     !! wf_id o = Some r''
                   ∧ temporary_states r' = temporary_states r'')
      as (r'' & Hr'' & Hts).
    { rewrite <- before_run_workflows with (now := rate_limit_now clock).
      rewrite <- Hb1.
      destruct out.2.
      - pose proof (disable_workflow_flags w b.1.1 (wf_id o)) as Hf.
        rewrite Hr' in Hf.
        destruct (workflows b.1.1 !! wf_id o) as [r''|]; [|done].
        exists r''. split; [done|]. cbn in Hf. congruence.
      - by exists r'. }
    destruct (reset_flags o checked r'' Hr'') as [H1 H2].
    injection Hts as Ha Hs. rewrite Ha, Hs. done.
  - intros i Hi. rewrite Hw.
    transitivity (temporary_states <$> workflows b.1.1 !! i).
    { destruct out.2; [apply disable_workflow_flags|done]. }
    rewrite Hb1.
    destruct (before_run_frame cfg (rate_limit_now clock) o checked)
      as (_ & _ & _ & Hf & _). rewrite Hf by done. by rewrite Hcw.
  - intros d2 Hd2. unfold breaker, _check_too_many_errors. by rewrite Hd2.
  - intros -> Hlate. unfold breaker, checked, opened. cbv iota.
    rewrite check_too_many_errors_opened by done.
    destruct (consecutive_errors _ _); naive_solver.
  - intros Hne. destruct (Hdenied Hne) as (_ & He & Hc).
    split; [done|]. by rewrite Hcache.
  - intros j Hj. rewrite Hcache, Hb1.
    destruct (before_run_frame cfg (rate_limit_now clock) o checked)
      as (_ & _ & _ & _ & _ & Hf). rewrite Hf by done. by rewrite Hcc.
  - intros Hn.
    destruct (_check_is_rate_limited_value _ _ _) as [window'|e] eqn:Hv.
    + rewrite Hn in Hbr. unfold _check_is_rate_limited in Hbr.
      rewrite Hcache_reset, Hv in Hbr.
      rewrite Hcache, Hb1, Hbr. cbn. by rewrite lookup_insert_eq.
    + destruct (Hlimited Hn e eq_refl) as (_ & He & Hc & _).
      split; [|done]. by rewrite Hcache.
Qed.

End StartWorkflowProperties.

Section TriggerProtection.

Import AutomationNodeService.

(** C9.  Trigger protection: [create_node] called with a trigger node type
    fails with [AutomationTriggerModificationDisallowed] before anything is
    read or written; [delete_node] applied to a trigger fails and leaves the
    database as it was, and for a user allowed to delete the failure is
    [AutomationTriggerModificationDisallowed]. *)
Theorem trigger_protection (User : Type)
    (check_permissions : User → Operation → Z → bool)
    (gu : AutomationNode → option Z → NodeTable → Z)
    (gl : Z → option Z → NodeTable → option Z)
    (user : User) (d : ServiceDb) :
  (* creating a trigger fails first thing, whatever else is passed *)
  (∀ node_type workflow before kwargs,
     is_workflow_trigger node_type = true →
     AutomationNodeService.create_node User check_permissions gu gl
       user node_type workflow before kwargs d
     = (d, inl AutomationTriggerModificationDisallowed))
  (* deleting the trigger fails and leaves everything as it was *)
  ∧ (∀ node r,
       node_table d !! node = Some r → trashed r = false →
       is_workflow_trigger (node_type r) = true →
       let result := delete_node User check_permissions user node None d in
       result.1 = d
       ∧ (∃ e, result.2 = inl e)
       ∧ (check_permissions user DeleteAutomationNodeOperationType
            (workflow_id r) = true →
          result.2 = inl AutomationTriggerModificationDisallowed)).
Proof.
  split.
  - intros node_type workflow before kwargs Ht.
    unfold AutomationNodeService.create_node. by rewrite Ht.
  - intros node r Hl Htr Ht. cbv zeta.
    unfold delete_node, get_node. rewrite Hl, Htr. cbn [workflow_id node_row].
    destruct (check_permissions user DeleteAutomationNodeOperationType
                (workflow_id r)); cbn [negb].
    + unfold trash. cbn [node_type node_row]. rewrite Ht. eauto.
    + split_and!; [done|by eexists|done].
Qed.

End TriggerProtection.

(* ===================================================================== *)
(** ** The properties on the sample workflows *)
(* ===================================================================== *)

Lemma create_before_splice_witness :
  let N := (create_node ex_order_before ex_last_node_id ex_action_type 1
              (Some ex_B) ex_no_kwargs ex_branch).1 in
  let db' := (create_node ex_order_before ex_last_node_id ex_action_type 1
                (Some ex_B) ex_no_kwargs ex_branch).2 in
  ∃ rN, db' !! node_id N = Some rN ∧ previous_node_id rN = Some 2
        ∧ (previous_node_output ex_B ≠ "" →
           previous_node_output rN = previous_node_output ex_B).
Proof.
  exact (proj1 (proj2 (create_before_splice ex_order_before ex_last_node_id
                         ex_action_type 1 ex_B ex_no_kwargs ex_branch 2
                         eq_refl eq_refl eq_refl))).
Defined.

Lemma create_before_explicit_previous_counterexample :
  let N := (create_node ex_order_before ex_last_node_id ex_action_type 1
              (Some ex_B) ex_explicit_previous ex_branch).1 in
  ex_branch !! node_id ex_B = Some (node_row ex_B)
  ∧ previous_node_id ex_B = Some 2
  ∧ previous_node_id N = Some 1
  ∧ previous_node_id N ≠ previous_node_id ex_B.
Proof. cbv zeta. split_and!; [reflexivity..|discriminate]. Qed.

Lemma move_node_destination_relink_witness :
  ∃ r', (move_node ex_order_before ex_X ex_Y None None ex_chain).2 !! 5 = Some r'
        ∧ previous_node_id r' = Some 2 ∧ previous_node_output r' = "".
Proof.
  apply (move_node_destination_relink ex_order_before ex_X ex_Y None None ex_chain)
    with (r := ex_row ex_action_type (Some 4) "" 5);
    [discriminate|reflexivity..].
Defined.

(** [move_node] accepts a node moved after itself, and there the relink of
    the destination misses: node 3 follows node 2 on the default branch, and
    after node 2 is moved after node 2 it follows node 1, while node 2 has
    become its own previous node. *)
Lemma move_node_after_itself_counterexample :
  let moved := (move_node ex_order_before ex_X ex_X None None ex_chain).2 in
  position <$> ex_chain !! 3 = Some (Some 2, "")
  ∧ position <$> moved !! 3 = Some (Some 1, "")
  ∧ position <$> moved !! 2 = Some (Some 2, "")
  ∧ ¬ ∃ r', moved !! 3 = Some r'
            ∧ previous_node_id r' = Some (node_id ex_X)
            ∧ previous_node_output r' = "".
Proof.
  cbv zeta. split_and!; [vm_compute; reflexivity..|].
  intros (r' & Hr' & Hp & _). vm_compute in Hr'.
  injection Hr' as <-. discriminate.
Qed.

Lemma move_round_trip_witness :
  let m1 := move_node ex_order_before ex_X ex_Y None None ex_chain in
  let m2 := move_node ex_order_before (move_node_node m1.1) ex_T (Some "") None m1.2 in
  m2.2 !! 2 = set_order (order (move_node_node m2.1)) <$> ex_chain !! 2
  ∧ m2.2 !! 3 = ex_chain !! 3
  ∧ m2.2 !! 5 = ex_chain !! 5.
Proof.
  pose proof
    (move_round_trip ex_order_before ex_X ex_Y ex_T 1 None None None ex_chain
       eq_refl eq_refl eq_refl eq_refl eq_refl
       ltac:(discriminate) ltac:(discriminate) ltac:(discriminate)
       ltac:(refine (bool_decide_unpack (map_Forall _ ex_chain) _);
             vm_compute; exact I)
       ltac:(refine (bool_decide_unpack (map_Forall _ ex_chain) _);
             vm_compute; exact I)
       ltac:(intros _;
             refine (bool_decide_unpack (map_Forall _ ex_chain) _);
             vm_compute; exact I)) as H.
  exact (conj (H 2) (conj (H 3) (H 5))).
Defined.

Lemma move_round_trip_counterexample :
  let m1 := move_node ex_order_before ex_X ex_router_Y None None ex_routed in
  let m2 := move_node ex_order_before (move_node_node m1.1) ex_T (Some "") None m1.2 in
  position <$> ex_routed !! 5 = Some (Some 4, "a")
  ∧ position <$> m1.2 !! 5 = Some (Some 2, "a")
  ∧ position <$> m2.2 !! 5 = Some (Some 4, "")
  ∧ ¬ (∀ i, position <$> m2.2 !! i = position <$> ex_routed !! i).
Proof.
  cbv zeta. split_and!; [vm_compute; reflexivity..|].
  intros H. specialize (H 5). vm_compute in H. discriminate.
Qed.

(** The other conditions of the round trip are needed as well.  A successor
    of the moved node on a named output loses its key: it is handed to the
    predecessor with the moved node's own key. *)
Example move_round_trip_named_successor :
  let X := ex_node 2 (ex_row ex_router_type (Some 1) "" 2) in
  let Y := ex_node 4 (ex_row ex_action_type (Some 3) "" 4) in
  let m1 := move_node ex_order_before X Y None None ex_branching_X in
  let m2 := move_node ex_order_before (move_node_node m1.1) ex_T (Some "") None m1.2 in
  position <$> ex_branching_X !! 3 = Some (Some 2, "a")
  ∧ position <$> m2.2 !! 3 = Some (Some 2, "").
Proof. cbv zeta. split; vm_compute; reflexivity. Qed.

(** Moving a node after its own predecessor, on the branch it is on, finds
    the node itself at the destination and makes it its own previous node. *)
Example move_after_own_predecessor :
  let m1 := move_node ex_order_before ex_X ex_T None None ex_chain in
  position <$> ex_chain !! 2 = Some (Some 1, "")
  ∧ position <$> m1.2 !! 2 = Some (Some 2, "").
Proof. cbv zeta. split; vm_compute; reflexivity. Qed.

Lemma circuit_breaker_deny_iff_witness :
  let d := ex_run_db ex_three_errors in
  let opened := create_workflow_history ex_draft (start_time ex_clock) false d in
  _check_too_many_errors ex_cfg ex_draft opened.2
  = Some (AutomationWorkflowTooManyErrors (too_many_errors_message 1))
  ↔ (3 ≤ length (past_statuses 1 d))%nat
    ∧ Forall (λ s, s = ERROR) (take 3 (past_statuses 1 d)).
Proof.
  exact (proj1 (circuit_breaker_deny_iff ex_service_ok 100 true ex_cfg ex_clock
                  ex_published "" (ex_run_db ex_three_errors) ex_draft
                  eq_refl eq_refl)).
Defined.

Lemma circuit_breaker_published_counterpart_counterexample :
  let d := ex_run_db ex_three_errors in
  (* workflow 2 is the published counterpart of workflow 1 *)
  get_original_workflow ex_published d = Some ex_draft
  (* a test run of workflow 1 trips the breaker *)
  ∧ ∃ d',
      start_workflow ex_service_ok 100 true ex_cfg ex_clock ex_draft "" None d
      = Some (d', [])
      ∧ status <$> head (histories d') = Some HISTORY_DISABLED
      ∧ state <$> workflows d' !! 1 = Some DISABLED
      (* and the published counterpart stays Live *)
      ∧ state <$> workflows d' !! 2 = Some LIVE
      ∧ state <$> workflows d' !! 2 ≠ Some DISABLED.
Proof.
  cbv zeta. split; [reflexivity|].
  eexists. split; [vm_compute; reflexivity|].
  split_and!; [vm_compute; reflexivity..|vm_compute; discriminate].
Qed.

(** Without an entry in progress at the head (a simulated run opens none),
    the check looks at N + 1 entries: three errors on top of a success are
    let through, four errors are not. *)
Example check_too_many_errors_window :
  _check_too_many_errors ex_cfg ex_draft
    (ex_run_db [ex_entry 4 ERROR; ex_entry 3 ERROR; ex_entry 2 ERROR;
                ex_entry 1 SUCCESS]) = None
  ∧ _check_too_many_errors ex_cfg ex_draft
      (ex_run_db [ex_entry 5 STARTED; ex_entry 4 ERROR; ex_entry 3 ERROR;
                  ex_entry 2 ERROR; ex_entry 1 SUCCESS])
    = Some (AutomationWorkflowTooManyErrors (too_many_errors_message 1))
  ∧ _check_too_many_errors ex_cfg ex_draft
      (ex_run_db [ex_entry 4 ERROR; ex_entry 3 ERROR; ex_entry 2 ERROR;
                  ex_entry 1 ERROR])
    = Some (AutomationWorkflowTooManyErrors (too_many_errors_message 1)).
Proof. split_and!; vm_compute; reflexivity. Qed.

(** The check orders the entries by [started_on], not by their place in the
    table: a run whose clock is behind the three errors on record opens an
    entry that does not come first, and the check, which then looks at four
    entries, lets the run through. *)
Example check_too_many_errors_clock_behind :
  let d := ex_run_db ex_three_errors in
  let opened := create_workflow_history ex_draft 0 false d in
  started_before 0 1 d = false
  ∧ consecutive_errors 3 (past_statuses 1 d) = true
  ∧ _check_too_many_errors ex_cfg ex_draft opened.2 = None.
Proof. cbv zeta. split_and!; vm_compute; reflexivity. Qed.

Lemma rate_limited_iff_window_full_witness :
  let d := ex_run_db [] in
  let r1 := _check_is_rate_limited ex_cfg 0 1 d in
  let r2 := _check_is_rate_limited ex_cfg 10000000 1 r1.1 in
  let r3 := _check_is_rate_limited ex_cfg 20000000 1 r2.1 in
  let r4 := _check_is_rate_limited ex_cfg 59999999 1 r3.1 in
  r1.2 = None ∧ r2.2 = None ∧ r3.2 = None
  ∧ r4.2 = Some (AutomationWorkflowRateLimited rate_limited_message)
  ∧ r4.1 = r3.1.
Proof.
  apply (proj2 (proj2 (proj2 (rate_limited_iff_window_full ex_cfg 0 []))));
    [reflexivity | reflexivity | reflexivity | lia | lia | lia
    | unfold timedelta_seconds; lia].
Defined.

Lemma simulate_until_halts_recursion_witness :
  ∃ st',
    dispatch_node ex_service_ok (table_of_three ex_T ex_A ex_A_next) 2 ex_T
      ex_simulation = (st', None)
    ∧ effects st' =
        [Dispatched 1; Dispatched 2; SampleDataRefreshed 2; NodeUpdatedSignal 2]
    ∧ previous_nodes_results (dispatch_context st') !! 2 = Some ex_result
    ∧ Dispatched 3 ∉
        [Dispatched 1; Dispatched 2; SampleDataRefreshed 2; NodeUpdatedSignal 2].
Proof.
  apply (simulate_until_halts_recursion ex_service_ok 0 ex_T ex_A ex_A_next
           ex_simulation ex_result ex_result);
    (reflexivity || discriminate).
Defined.

Lemma history_entry_always_closed_witness :
  let d := ex_run_db ex_three_errors in
  ∃ d' effs,
    start_workflow ex_service_ok 100 true ex_cfg ex_clock ex_published ""
      None d = Some (d', effs)
    ∧ let opened :=
        create_workflow_history ex_draft (start_time ex_clock)
          (bool_decide (wf_id ex_draft = wf_id ex_published)) d in
      let raised :=
        (run_body ex_service_ok 100 ex_cfg ex_clock ex_published ex_draft
           (run_context ex_published "" None) opened.2).2 in
      status opened.1 = STARTED
      ∧ completed_on opened.1 = None
      ∧ histories opened.2 = opened.1 :: histories d
      ∧ ∃ closed,
          histories d' = closed :: histories d
          ∧ history_id closed = history_id opened.1
          ∧ history_workflow closed = wf_id ex_draft
          ∧ started_on closed = start_time ex_clock
          ∧ completed_on closed = Some (completion_time ex_clock)
          ∧ status closed ≠ STARTED
          ∧ (raised = None → status closed = SUCCESS)
          ∧ ((∃ m, raised = Some (AutomationWorkflowTooManyErrors m))
             ↔ status closed = HISTORY_DISABLED)
          ∧ (raised ≠ None →
             (∀ m, raised ≠ Some (AutomationWorkflowTooManyErrors m)) →
             status closed = ERROR).
Proof.
  exact (history_entry_always_closed ex_service_ok 100 true ex_cfg ex_clock
           ex_published "" None (ex_run_db ex_three_errors) ex_draft eq_refl).
Defined.

(** The run of the sample that trips the breaker: its entry is closed at the
    completion time as Disabled. *)
Example history_entry_closed_as_disabled :
  ∃ d' closed,
    start_workflow ex_service_ok 100 true ex_cfg ex_clock ex_published ""
      None (ex_run_db ex_three_errors) = Some (d', [])
    ∧ histories d' = closed :: ex_three_errors
    ∧ completed_on closed = Some 10000002
    ∧ status closed = HISTORY_DISABLED.
Proof. eexists _, _. split_and!; vm_compute; reflexivity. Qed.

Lemma admission_keyed_to_original_witness :
  ∃ d' effs closed,
    start_workflow ex_service_ok 100 true ex_cfg ex_clock ex_published "" None
      (ex_run_db ex_three_errors) = Some (d', effs)
    ∧ histories d' = closed :: histories (ex_run_db ex_three_errors)
    ∧ history_workflow closed = 1
    ∧ is_test_run closed = false.
Proof.
  destruct (admission_keyed_to_original ex_service_ok 100 true ex_cfg ex_clock
              ex_published "" None (ex_run_db ex_three_errors) ex_draft eq_refl)
    as (d' & effs & H1 & (closed & H2 & H3 & H4 & _) & _).
  by exists d', effs, closed.
Defined.

Lemma trigger_protection_witness :
  let result :=
    AutomationNodeService.delete_node unit ex_allow_all tt 1 None ex_service_db in
  result.1 = ex_service_db
  ∧ (∃ e, result.2 = inl e)
  ∧ (ex_allow_all tt AutomationNodeService.DeleteAutomationNodeOperationType 1 = true →
     result.2 = inl AutomationNodeService.AutomationTriggerModificationDisallowed).
Proof.
  exact (proj2 (trigger_protection unit ex_allow_all ex_order_before
                  ex_last_node_id tt ex_service_db)
           1 (ex_row ex_trigger_type None "" 1) eq_refl eq_refl eq_refl).
Defined.

Lemma duplicate_node_default_branch_relink_witness :
  (duplicate_node ex_X ex_chain).2 !! 3
  = Some (set_previous_node_id
            (Some (node_id (duplicated_node (duplicate_node ex_X ex_chain).1)))
            (ex_row ex_action_type (Some 2) "" 3)).
Proof.
  exact (proj1 (proj2 (proj2 (proj2 (proj2 (proj2 (proj2 (proj2
           (duplicate_node_default_branch_relink ex_X ex_chain))))))))
           3 (ex_row ex_action_type (Some 2) "" 3) eq_refl).
Defined.

(* ===================================================================== *)
(** ** Writing next-node values back *)
(* ===================================================================== *)

Section NextValues.

Implicit Types (db : NodeTable) (n : AutomationNode) (v : NextAutomationNodeValues)
  (vs : list NextAutomationNodeValues) (g : gmap Z AutomationNode).

Lemma get_node_Some i db n :
  get_node i db = Some n ↔
  node_id n = i ∧ db !! i = Some (node_row n) ∧ trashed n = false.
Proof.
  unfold get_node. destruct (db !! i) as [r|] eqn:Hl.
  - destruct (trashed r) eqn:Ht.
    + split; [done|]. intros (_ & [= <-] & ?). congruence.
    + split.
      * intros [= <-]. done.
      * intros (<- & [= ->] & _). by destruct n.
  - split; [done|]. by intros (_ & ? & _).
Qed.

Lemma get_node_None i db :
  get_node i db = None ↔ selects (λ _, true) db i = false.
Proof.
  unfold get_node, selects. destruct (db !! i) as [r|]; [|done].
  by destruct (trashed r).
Qed.

Lemma lookup_grouped_of pks db i :
  grouped_of pks db !! i = if bool_decide (i ∈ pks) then get_node i db else None.
Proof.
  unfold grouped_of. apply option_eq. intros n.
  rewrite <- elem_of_list_to_map'.
  - rewrite list_elem_of_fmap. split.
    + intros (n' & Heq & Hin). simplify_eq.
      apply list_elem_of_In, filter_In in Hin as [Hin Hpk].
      apply list_elem_of_In, elem_of_query in Hin as (Hl & _ & Ht).
      rewrite Hpk. by apply get_node_Some.
    + case_bool_decide as Hpk; [|done].
      intros (<- & Hl & Ht)%get_node_Some. exists n. split; [done|].
      apply list_elem_of_In, filter_In. split.
      * apply list_elem_of_In, elem_of_query. done.
      * by apply bool_decide_eq_true_2.
  - intros n' (n1 & Heq1 & Hin1)%list_elem_of_fmap
             (n2 & Heq2 & Hin2)%list_elem_of_fmap.
    simplify_eq.
    apply list_elem_of_In, filter_In in Hin1 as [Hin1 _].
    apply list_elem_of_In, filter_In in Hin2 as [Hin2 _].
    apply list_elem_of_In, elem_of_query in Hin1 as (Hl1 & _).
    apply list_elem_of_In, elem_of_query in Hin2 as (Hl2 & _).
    destruct n1, n2. simpl in *. simplify_eq. done.
Qed.

Lemma foldl_assign_None vs : foldl assign_values None vs = None.
Proof. by induction vs. Qed.

Lemma set_next_values_twice v v' n :
  set_next_values v (set_next_values v' n) = set_next_values v n.
Proof. by destruct n. Qed.

Lemma last_values_cons v vs i :
  last_values (v :: vs) i =
  match last_values vs i with
  | Some w => Some w
  | None => if nv_id v =? i then Some v else None
  end.
Proof.
  unfold last_values. cbn [List.filter].
  destruct (nv_id v =? i); [|by destruct (last _)].
  by rewrite last_cons.
Qed.

Lemma last_values_Some vs i v :
  last_values vs i = Some v → v ∈ vs ∧ nv_id v = i.
Proof.
  unfold last_values. intros H%last_Some_elem_of.
  apply list_elem_of_In, filter_In in H as [H1 H2].
  split; [by apply list_elem_of_In|]. by apply Z.eqb_eq.
Qed.

Lemma last_values_None vs i :
  last_values vs i = None ↔ i ∉ nv_id <$> vs.
Proof.
  unfold last_values. rewrite last_None. split.
  - intros H (v & -> & Hv)%list_elem_of_fmap.
    assert (Hin : In v (List.filter (λ v0, nv_id v0 =? nv_id v) vs)).
    { apply filter_In. split; [by apply list_elem_of_In|]. apply Z.eqb_refl. }
    by rewrite H in Hin.
  - intros H. destruct (List.filter _ vs) as [|v l] eqn:E; [done|].
    destruct H. assert (Hin : In v (List.filter (λ v0, nv_id v0 =? i) vs)).
    { rewrite E. by left. }
    apply filter_In in Hin as [Hin Hi]. apply Z.eqb_eq in Hi. subst i.
    apply list_elem_of_fmap. exists v. split; [done|]. by apply list_elem_of_In.
Qed.

Lemma foldl_assign_Some vs : ∀ g g',
  foldl assign_values (Some g) vs = Some g' →
  (∀ v, v ∈ vs → is_Some (g !! nv_id v))
  ∧ ∀ i, g' !! i =
      match last_values vs i with
      | Some v => set_next_values v <$> g !! i
      | None => g !! i
      end.
Proof.
  induction vs as [|v vs IH]; intros g g' H.
  - cbn in H. simplify_eq. split; [by intros ? ?%elem_of_nil|done].
  - cbn [foldl] in H. unfold assign_values at 2 in H. cbn in H.
    destruct (g !! nv_id v) as [n|] eqn:Hn; cbn in H;
      [|by rewrite foldl_assign_None in H].
    apply IH in H as [Hall Hg']. split.
    + intros w [->|Hw]%elem_of_cons; [by rewrite Hn|].
      specialize (Hall w Hw). rewrite lookup_insert in Hall.
      case_decide as Hd; [|done]. rewrite <- Hd. by rewrite Hn.
    + intros i. rewrite Hg', last_values_cons, lookup_insert.
      destruct (last_values vs i) as [w|]; case_decide as Hd.
      * subst i. rewrite Hn. cbn. by rewrite set_next_values_twice.
      * done.
      * subst i. by rewrite Z.eqb_refl, Hn.
      * by rewrite (proj2 (Z.eqb_neq _ _) Hd).
Qed.

Lemma foldl_assign_is_Some vs : ∀ g,
  (∀ v, v ∈ vs → is_Some (g !! nv_id v)) →
  is_Some (foldl assign_values (Some g) vs).
Proof.
  induction vs as [|v vs IH]; intros g H; [by eexists|].
  cbn [foldl]. unfold assign_values at 2. cbn.
  destruct (H v (list_elem_of_here _ _)) as [n Hn]. rewrite Hn. cbn.
  apply IH. intros w Hw. rewrite lookup_insert. case_decide; [by eexists|].
  apply H. by apply list_elem_of_further.
Qed.

Lemma lookup_bulk_update objs fs db i :
  bulk_update objs fs db !! i =
  (λ r, foldl (λ r n, if bool_decide (node_id n = i) then copy_fields fs n r else r)
          r objs) <$> db !! i.
Proof.
  unfold bulk_update. revert db.
  induction objs as [|n objs IH]; intros db; cbn [foldl].
  - by destruct (db !! i).
  - rewrite IH, lookup_save_fields.
    destruct (decide (i = node_id n)) as [->|Hne].
    + rewrite !bool_decide_eq_true_2 by done. by destruct (db !! node_id n).
    + rewrite (bool_decide_eq_false_2 (i = node_id n)) by done.
      rewrite (bool_decide_eq_false_2 (node_id n = i)) by done. done.
Qed.

Lemma foldl_same_position (objs : list AutomationNode) i (R r : NodeRow) :
  (∀ n, n ∈ objs → node_id n = i → position n = position R) →
  foldl (λ r n, if bool_decide (node_id n = i)
                then copy_fields [F_previous_node; F_previous_node_output] n r
                else r) r objs =
  if bool_decide (i ∈ node_id <$> objs)
  then set_previous_node_output (previous_node_output R)
         (set_previous_node_id (previous_node_id R) r)
  else r.
Proof.
  revert r. induction objs as [|n objs IH]; intros r H; cbn [foldl].
  - by rewrite bool_decide_eq_false_2 by (cbn; apply not_elem_of_nil).
  - rewrite IH by (intros; apply H; [by apply list_elem_of_further|done]).
    destruct (decide (node_id n = i)) as [Hi|Hne].
    + rewrite (bool_decide_eq_true_2 (node_id n = i)) by done.
      rewrite (bool_decide_eq_true_2 (i ∈ node_id <$> n :: objs))
        by (cbn; rewrite <- Hi; apply list_elem_of_here).
      pose proof (H n (list_elem_of_here _ _) Hi) as Hp.
      unfold position in Hp. simplify_eq. cbn.
      case_bool_decide; destruct r;
        unfold set_previous_node_output, set_previous_node_id; cbn; congruence.
    + rewrite (bool_decide_eq_false_2 (node_id n = i)) by done.
      apply (f_equal (λ b : bool, if b then _ else _)).
      apply bool_decide_ext. cbn. rewrite elem_of_cons. naive_solver.
Qed.

Lemma omap_lookup_ids g vs :
  (∀ v, v ∈ vs → ∃ n, g !! nv_id v = Some n ∧ node_id n = nv_id v) →
  node_id <$> omap (λ v, g !! nv_id v) vs = nv_id <$> vs.
Proof.
  induction vs as [|v vs IH]; intros H; [done|]. cbn.
  destruct (H v (list_elem_of_here _ _)) as (n & -> & Hid). cbn.
  rewrite Hid. f_equal. apply IH. intros w Hw. apply H. by apply list_elem_of_further.
Qed.

(** What a successful [update_next_nodes_values] leaves in each row, and the
    keys of the instances it returns. *)
Lemma update_next_nodes_values_Some vs db ups db' :
  update_next_nodes_values vs db = Some (ups, db') →
  (∀ v, v ∈ vs → is_Some (get_node (nv_id v) db))
  ∧ node_id <$> ups = nv_id <$> vs
  ∧ ∀ i, db' !! i =
      match last_values vs i with
      | Some v => with_values v <$> db !! i
      | None => db !! i
      end.
Proof.
  unfold update_next_nodes_values. cbv zeta.
  fold (grouped_of (nv_id <$> vs) db). fold assign_values.
  destruct (foldl assign_values _ vs) as [g'|] eqn:Hf; [|done].
  cbn. intros [= <- <-].
  apply foldl_assign_Some in Hf as [Hall Hg'].
  assert (Hin : ∀ v, v ∈ vs → nv_id v ∈ nv_id <$> vs)
    by (intros; by apply list_elem_of_fmap_2).
  assert (Hget : ∀ v, v ∈ vs → is_Some (get_node (nv_id v) db)).
  { intros v Hv. specialize (Hall v Hv). rewrite lookup_grouped_of in Hall.
    by rewrite bool_decide_eq_true_2 in Hall by auto. }
  (* every instance of the store sits under its own key *)
  assert (Hkey : ∀ i n, g' !! i = Some n →
            node_id n = i ∧ ∃ v r, last_values vs i = Some v
              ∧ db !! i = Some r ∧ node_row n = with_values v r).
  { intros i n Hn. rewrite Hg', lookup_grouped_of in Hn.
    destruct (last_values vs i) as [v|] eqn:Hlast.
    - case_bool_decide; [|done].
      destruct (get_node i db) as [n0|] eqn:Hn0; [|done].
      apply get_node_Some in Hn0 as (Hid & Hl & _). cbn in Hn. simplify_eq.
      split; [done|]. eauto.
    - apply last_values_None in Hlast. by rewrite bool_decide_eq_false_2 in Hn. }
  assert (Hups : ∀ n, n ∈ omap (λ v, g' !! nv_id v) vs → g' !! node_id n = Some n).
  { intros n (v & Hv & Hn)%list_elem_of_omap.
    destruct (Hkey _ _ Hn) as [-> _]. done. }
  split_and!; [done| |].
  - apply omap_lookup_ids. intros v Hv.
    destruct (Hall v Hv) as [n0 Hn0].
    assert (is_Some (g' !! nv_id v)) as [n Hn].
    { rewrite Hg', Hn0. destruct (last_values vs (nv_id v)); by eexists. }
    exists n. split; [done|]. by destruct (Hkey _ _ Hn).
  - intros i. rewrite lookup_bulk_update.
    destruct (db !! i) as [r|] eqn:Hl; cbn.
    2:{ by destruct (last_values vs i). }
    destruct (last_values vs i) as [v|] eqn:Hlast.
    + rewrite (foldl_same_position _ i (with_values v r)).
      * rewrite bool_decide_eq_true_2; [done|].
        destruct (last_values_Some _ _ _ Hlast) as [Hv <-].
        destruct (Hall v Hv) as [n0 Hn0].
        assert (is_Some (g' !! nv_id v)) as [n Hn].
        { rewrite Hg', Hlast, Hn0. by eexists. }
        apply list_elem_of_fmap. exists n. split; [by destruct (Hkey _ _ Hn)|].
        apply list_elem_of_omap. eauto.
      * intros n Hn Hid. apply Hups in Hn. rewrite Hid in Hn.
        destruct (Hkey _ _ Hn) as (_ & v' & r' & ? & ? & ->). by simplify_eq.
    + rewrite (foldl_same_position _ i r).
      * rewrite bool_decide_eq_false_2; [done|].
        intros (n & -> & Hn)%list_elem_of_fmap. apply Hups in Hn.
        destruct (Hkey _ _ Hn) as (_ & v' & ? & ? & _). congruence.
      * intros n Hn Hid. apply Hups in Hn. rewrite Hid in Hn.
        destruct (Hkey _ _ Hn) as (_ & v' & ? & ? & _). congruence.
Qed.

Lemma update_next_nodes_values_is_Some vs db :
  (∀ v, v ∈ vs → is_Some (get_node (nv_id v) db)) →
  is_Some (update_next_nodes_values vs db).
Proof.
  intros H. unfold update_next_nodes_values. cbv zeta.
  fold (grouped_of (nv_id <$> vs) db). fold assign_values.
  destruct (foldl_assign_is_Some vs (grouped_of (nv_id <$> vs) db)) as [g' ->].
  - intros v Hv. rewrite lookup_grouped_of.
    rewrite bool_decide_eq_true_2 by by apply list_elem_of_fmap_2. by apply H.
  - by eexists.
Qed.

End NextValues.

Lemma update_next_nodes_values_None vs db :
  update_next_nodes_values vs db = None ↔
  ∃ v, v ∈ vs ∧ get_node (nv_id v) db = None.
Proof.
  split.
  - intros Hn.
    destruct (decide (Forall (λ v, is_Some (get_node (nv_id v) db)) vs)) as [Hall|Hex].
    + rewrite Forall_forall in Hall.
      apply update_next_nodes_values_is_Some in Hall as [? ?]. congruence.
    + apply not_Forall_Exists in Hex; [|apply _].
      apply Exists_exists in Hex as (v & Hv & Hnot). exists v. split; [done|].
      by apply eq_None_not_Some.
  - intros (v & Hv & Hnone).
    destruct (update_next_nodes_values vs db) as [[ups db']|] eqn:E; [|done].
    apply update_next_nodes_values_Some in E as (Hall & _).
    specialize (Hall v Hv). rewrite Hnone in Hall. by destruct Hall.
Qed.

(** X1.  [update_next_nodes_values] raises, before writing anything, exactly
    when one of the listed keys has no untrashed row; otherwise it returns
    one instance per listed value, in order, and every listed row ends with
    the position listed last for its key, while all other rows and all other
    columns stay as they were. *)
Theorem update_next_nodes_values_last_wins
    (next_node_values : list NextAutomationNodeValues) (db : NodeTable) :
  (update_next_nodes_values next_node_values db = None ↔
   ∃ v, v ∈ next_node_values ∧ get_node (nv_id v) db = None)
  ∧ ∀ updates db',
      update_next_nodes_values next_node_values db = Some (updates, db') →
      node_id <$> updates = nv_id <$> next_node_values
      ∧ ∀ i, db' !! i =
          match last_values next_node_values i with
          | Some v => with_values v <$> db !! i
          | None => db !! i
          end.
Proof.
  split; [apply update_next_nodes_values_None|].
  intros ups db' H. by apply update_next_nodes_values_Some in H as (_ & ? & ?).
Qed.

Lemma unlinked_relink p o r : unlinked (relink p o r) = unlinked r.
Proof. by destruct o. Qed.

Lemma unlinked_set_previous_node_id p r :
  unlinked (set_previous_node_id p r) = unlinked r.
Proof. done. Qed.

Lemma with_values_restore i r x :
  unlinked x = unlinked r →
  with_values (next_values {| node_id := i; node_row := r |}) x = r.
Proof.
  destruct r, x. unfold unlinked, with_values, next_values,
    set_previous_node_output, set_previous_node_id. cbn. by intros [= -> -> -> -> -> ->].
Qed.

Lemma unlinked_trashed r x : unlinked x = unlinked r → trashed x = trashed r.
Proof. destruct r, x. by intros [= ]. Qed.

(** The values recorded from a queryset, looked up by key. *)
Lemma last_values_query P (db0 : NodeTable) i :
  last_values (next_values <$> query P db0) i =
  if selects P db0 i
  then (λ r, next_values {| node_id := i; node_row := r |}) <$> db0 !! i
  else None.
Proof.
  destruct (last_values _ i) as [v|] eqn:E.
  - apply last_values_Some in E as [(n & -> & Hn)%list_elem_of_fmap Hi].
    cbn in Hi. subst i.
    assert (Hs : selects P db0 (node_id n) = true)
      by (apply query_ids_selects; by apply list_elem_of_fmap_2).
    apply elem_of_query in Hn as (Hl & _). rewrite Hs, Hl. by destruct n.
  - apply last_values_None in E.
    destruct (selects P db0 i) eqn:Hs; [|done].
    apply query_ids_selects in Hs. destruct E.
    rewrite <- list_fmap_compose. done.
Qed.

Lemma duplicate_node_lookup S (db : NodeTable) i :
  (duplicate_node S db).2 !! i =
  if bool_decide (i = fresh_id db)
  then Some (node_row (duplicated_node (duplicate_node S db).1))
  else (λ r, if follows (workflow_id S) (node_id S) (Some "") r && negb (trashed r)
             then set_previous_node_id (Some (fresh_id db)) r else r) <$> db !! i.
Proof.
  destruct (duplicate_node_table S db) as (Hid & -> & _). cbv zeta in *.
  rewrite lookup_update_previous_node_query, Hid.
  case_bool_decide as Hi.
  - subst i. rewrite selects_None by apply fresh_id_fresh.
    by rewrite lookup_insert_eq.
  - rewrite lookup_insert_ne by done. unfold selects.
    destruct (db !! i) as [r|]; [|done]. cbn. by destruct (_ && _).
Qed.

(** X2.  The values [duplicate_node] records undo and redo its relinking:
    written back with [update_next_nodes_values], the values of the source
    node's successors restore every row that existed before the
    duplication, leaving the copy in place; from there the values of the
    copy's successors give the table of the duplication again. *)
Theorem duplicate_node_values_undo_redo (source_node : AutomationNode) (db : NodeTable) :
  let duplication := (duplicate_node source_node db).1 in
  let duplicated := (duplicate_node source_node db).2 in
  let undone :=
    <[node_id (duplicated_node duplication) := node_row (duplicated_node duplication)]> db in
  db !! node_id (duplicated_node duplication) = None
  ∧ (∃ updates,
       update_next_nodes_values (source_node_next_nodes_values duplication) duplicated
       = Some (updates, undone))
  ∧ (∃ updates,
       update_next_nodes_values (duplicated_node_next_nodes_values duplication) undone
       = Some (updates, duplicated)).
Proof.
  cbv zeta.
  destruct (duplicate_node_table source_node db) as (Hid & _ & Hw & Hp & Ho & _ & _ & _ & Ht).
  cbv zeta in *.
  set (d := duplicated_node (duplicate_node source_node db).1) in *.
  pose proof (fresh_id_fresh db) as Hfresh. rewrite <- Hid in Hfresh.
  pose proof (duplicate_node_lookup source_node db) as Hrow. fold d in Hrow.
  rewrite <- Hid in Hrow.
  set (P := follows (workflow_id source_node) (node_id source_node) (Some "")) in *.
  set (P' := follows (workflow_id d) (node_id d) (Some "")).
  assert (Hv1 : source_node_next_nodes_values (duplicate_node source_node db).1
                = next_values <$> query P db) by done.
  assert (Hv2 : duplicated_node_next_nodes_values (duplicate_node source_node db).1
                = next_values <$> query P' (duplicate_node source_node db).2) by done.
  rewrite Hv1, Hv2. clear Hv1 Hv2.
  set (db2 := (duplicate_node source_node db).2) in *.
  split_and!; [done| |].
  - destruct (update_next_nodes_values_is_Some (next_values <$> query P db) db2)
      as [[ups db''] E].
    { intros v (n & -> & Hn)%list_elem_of_fmap. cbn.
      apply elem_of_query in Hn as (Hl & _ & Hnt).
      assert (node_id n ≠ node_id d) by congruence.
      unfold get_node. rewrite Hrow, bool_decide_eq_false_2, Hl by done. cbn.
      destruct (_ && _); cbn; rewrite Hnt; by eexists. }
    exists ups. rewrite E. do 2 f_equal.
    apply update_next_nodes_values_Some in E as (_ & _ & Hrows).
    apply map_eq. intros i. rewrite Hrows, last_values_query, Hrow.
    unfold selects. destruct (decide (i = node_id d)) as [->|Hne].
    + rewrite Hfresh, lookup_insert_eq. by rewrite bool_decide_eq_true_2.
    + rewrite lookup_insert_ne, bool_decide_eq_false_2 by done.
      destruct (db !! i) as [r|]; [|done]. cbn.
      destruct (P r && negb (trashed r)); cbn; [|done].
      by rewrite with_values_restore.
  - destruct (update_next_nodes_values_is_Some (next_values <$> query P' db2)
                (<[node_id d := node_row d]> db)) as [[ups db''] E].
    { intros v (n & -> & Hn)%list_elem_of_fmap. cbn.
      apply elem_of_query in Hn as (Hl & _ & Hnt).
      unfold get_node. rewrite Hrow in Hl.
      destruct (decide (node_id n = node_id d)) as [Heq|Hne].
      - rewrite Heq, lookup_insert_eq. cbn. by eexists.
      - rewrite lookup_insert_ne by done.
        rewrite bool_decide_eq_false_2 in Hl by done.
        destruct (db !! node_id n) as [r|]; [|done]. cbn in Hl.
        assert (trashed r = false) as ->; [|by eexists].
        injection Hl as Hl. rewrite <- Hl in Hnt. by destruct (_ && _). }
    exists ups. rewrite E. do 2 f_equal.
    apply update_next_nodes_values_Some in E as (_ & _ & Hrows).
    apply map_eq. intros i. rewrite Hrows, last_values_query.
    unfold selects. rewrite !Hrow.
    destruct (decide (i = node_id d)) as [->|Hne].
    + rewrite lookup_insert_eq, bool_decide_eq_true_2 by done.
      destruct (_ && _); cbn; [|done]. by rewrite with_values_restore.
    + rewrite lookup_insert_ne, bool_decide_eq_false_2 by done.
      destruct (db !! i) as [r|]; [|done]. cbn [fmap option_fmap option_map].
      destruct (P r && negb (trashed r)) eqn:HP.
      * assert (P' (set_previous_node_id (Some (node_id d)) r)
                && negb (trashed (set_previous_node_id (Some (node_id d)) r)) = true)
          as ->.
        { apply and_untrashed_true in HP as [(Hrw & _ & Hro)%follows_true Hrt].
          apply and_untrashed_true. split; [|done].
          apply follows_true. rewrite Hw. done. }
        cbn [fmap option_fmap option_map]. by rewrite with_values_restore.
      * destruct (P' r && negb (trashed r)); cbn [fmap option_fmap option_map]; [|done].
        by rewrite with_values_restore.
Qed.

Lemma move_node_values gu (node after_node : AutomationNode) o ord (db : NodeTable) :
  let m := (move_node gu node after_node o ord db).1 in
  let db1 :=
    (update_previous_node (previous_node_id node)
       (query (follows (workflow_id node) (node_id node) None) db)
       (Some (previous_node_output node)) db).2 in
  origin_old_next_nodes_values m
  = next_values <$> query (follows (workflow_id node) (node_id node) None) db
  ∧ destination_old_next_nodes_values m
    = next_values <$> query (follows (workflow_id after_node) (node_id after_node) o) db1
  ∧ origin_previous_node_id m = previous_node_id node
  ∧ origin_previous_node_output m = previous_node_output node.
Proof. done. Qed.

Lemma unlinked_copy_position (n r : NodeRow) :
  unlinked (copy_fields [F_previous_node; F_previous_node_output] n r) = unlinked r.
Proof. done. Qed.

Lemma trashed_relink p o r : trashed (relink p o r) = trashed r.
Proof. by destruct o. Qed.

Lemma update_next_nodes_values_query P (db0 db : NodeTable) :
  (∀ i r0, db0 !! i = Some r0 → trashed r0 = false →
           ∃ r, db !! i = Some r ∧ trashed r = false) →
  ∃ ups db',
    update_next_nodes_values (next_values <$> query P db0) db = Some (ups, db')
    ∧ ∀ i, db' !! i =
        match db0 !! i with
        | Some r0 =>
            if P r0 && negb (trashed r0)
            then with_values (next_values {| node_id := i; node_row := r0 |}) <$> db !! i
            else db !! i
        | None => db !! i
        end.
Proof.
  intros Hex.
  destruct (update_next_nodes_values_is_Some (next_values <$> query P db0) db)
    as [[ups db'] E].
  { intros v (n & -> & Hn)%list_elem_of_fmap. cbn.
    apply elem_of_query in Hn as (Hl & _ & Hnt).
    destruct (Hex _ _ Hl Hnt) as (r & Hr & Hrt).
    unfold get_node. rewrite Hr, Hrt. by eexists. }
  exists ups, db'. split; [done|].
  apply update_next_nodes_values_Some in E as (_ & _ & Hrows).
  intros i. rewrite Hrows, last_values_query. unfold selects.
  destruct (db0 !! i) as [r0|]; [|done]. cbn. by destruct (_ && _).
Qed.

(** X3.  The values [move_node] records undo the move: written back with
    [update_next_nodes_values], the destination's old values first and the
    origin's old values second, and with the moved node put back by
    [update_node] on its recorded previous node and output, they leave the
    table as it was before the move, the new order of the moved node
    aside. *)
Theorem move_node_values_undo gu (node after_node : AutomationNode)
    (new_output : option string) (new_order : option Z) (db : NodeTable) :
  db !! node_id node = Some (node_row node) →
  let move := (move_node gu node after_node new_output new_order db).1 in
  let moved := (move_node gu node after_node new_output new_order db).2 in
  ∃ updates1 db1 updates2 db2,
    update_next_nodes_values (destination_old_next_nodes_values move) moved
      = Some (updates1, db1)
    ∧ update_next_nodes_values (origin_old_next_nodes_values move) db1
      = Some (updates2, db2)
    ∧ (update_node (move_node_node move)
         {| uk_label := None;
            uk_previous_node_id := Some (origin_previous_node_id move);
            uk_previous_node_output := Some (origin_previous_node_output move) |}
         db2).2
      = <[node_id node := set_order (order (move_node_node move)) (node_row node)]> db.
Proof.
  intros Hnode. cbv zeta.
  destruct (move_node_values gu node after_node new_output new_order db)
    as (-> & -> & -> & ->).
  pose proof (move_node_lookup gu node after_node new_output new_order db) as Hfin.
  cbv zeta in Hfin.
  set (m := move_node gu node after_node new_output new_order db) in *.
  set (PS := follows (workflow_id node) (node_id node) None) in *.
  set (PD := follows (workflow_id after_node) (node_id after_node) new_output) in *.
  set (db1 := (update_previous_node (previous_node_id node) (query PS db)
                 (Some (previous_node_output node)) db).2) in *.
  assert (Hdb1 : ∀ i, db1 !! i =
            (λ r, if PS r && negb (trashed r)
                  then relink (previous_node_id node) (Some (previous_node_output node)) r
                  else r) <$> db !! i).
  { intros i. unfold db1. rewrite lookup_update_previous_node_query. unfold selects.
    destruct (db !! i) as [r|]; [|done]. cbn. by destruct (_ && _). }
  (* a row of the table after the move, from the row after the first step *)
  assert (Hfin' : ∀ i, ∃ f : NodeRow → NodeRow,
            m.2 !! i = f <$> db1 !! i
            ∧ (∀ r, trashed (f r) = trashed r)
            ∧ (i ≠ node_id node → ∀ r, unlinked (f r) = unlinked r)
            ∧ (i ≠ node_id node → ∀ r, ¬ (PD r && negb (trashed r) = true) → f r = r)).
  { intros i. rewrite Hfin. unfold selects.
    destruct (db1 !! i) as [r1|] eqn:Hr1.
    - destruct (PD r1 && negb (trashed r1)) eqn:HD.
      + case_bool_decide as Hi.
        * eexists (λ r, relink _ _ (copy_fields _ _ r)). split; [done|].
          split; [|done]. intros r. etrans; [apply trashed_relink|done].
        * eexists (λ r, if PD r && negb (trashed r) then relink _ _ r else r).
          cbn [fmap option_fmap option_map]. rewrite HD. split; [done|]. split_and!.
          -- intros r. destruct (PD r && _); [|done]. by rewrite trashed_relink.
          -- intros _ r. destruct (PD r && _); [|done]. by rewrite unlinked_relink.
          -- intros _ r Hn. by destruct (PD r && _).
      + case_bool_decide as Hi.
        * eexists (λ r, copy_fields _ _ r). split; [done|]. done.
        * exists (λ r, r). done.
    - exists (λ r, r). split; [|done]. by case_bool_decide. }
  destruct (update_next_nodes_values_query PD db1 m.2) as (ups1 & dbA & EA & HA).
  { intros i r1 Hr1 Ht. destruct (Hfin' i) as (f & Hf & Hft & _).
    exists (f r1). rewrite Hf, Hr1. split; [done|]. by rewrite Hft. }
  assert (HA' : ∀ i, i ≠ node_id node → dbA !! i = db1 !! i).
  { intros i Hi. rewrite HA. destruct (Hfin' i) as (f & Hf & _ & Hfu & Hfid).
    rewrite Hf. destruct (db1 !! i) as [r1|]; [|done]. cbn.
    destruct (PD r1 && negb (trashed r1)) eqn:HD; cbn.
    - by rewrite with_values_restore by by apply Hfu.
    - rewrite Hfid; [done|done|]. by rewrite HD. }
  assert (HAt : ∀ i, trashed <$> dbA !! i = trashed <$> db !! i).
  { intros i. rewrite HA. destruct (Hfin' i) as (f & Hf & Hft & _).
    rewrite Hf, Hdb1. destruct (db !! i) as [r|]; [|done]. cbn.
    destruct (PS r && negb (trashed r)); cbn; rewrite ?trashed_relink;
      destruct (PD _ && negb _); cbn; by rewrite ?Hft, ?trashed_relink. }
  destruct (update_next_nodes_values_query PS db dbA) as (ups2 & dbB & EB & HB).
  { intros i r Hr Ht. specialize (HAt i). rewrite Hr in HAt.
    destruct (dbA !! i) as [x|]; [|done]. cbn in HAt. exists x. split; [done|].
    congruence. }
  exists ups1, dbA, ups2, dbB. split_and!; [done|done|].
  unfold update_node. cbn [snd uk_label uk_previous_node_id uk_previous_node_output].
  apply map_eq. intros i.
  change (node_id (with_row _ (move_node_node m.1))) with (node_id node).
  destruct (decide (i = node_id node)) as [->|Hi].
  - rewrite !lookup_insert_eq. f_equal; by destruct node as [? []].
  - rewrite !lookup_insert_ne by done. rewrite HB, HA', Hdb1 by done.
    destruct (db !! i) as [r|]; [|done]. cbn.
    destruct (PS r && negb (trashed r)); cbn; [|done].
    by rewrite with_values_restore by done.
Qed.

(* ===================================================================== *)
(** ** Properties of the further entry points *)
(* ===================================================================== *)

Lemma is_trigger_row_unlinked (db db' : NodeTable) i :
  unlinked <$> db' !! i = unlinked <$> db !! i →
  is_trigger_row db' i = is_trigger_row db i.
Proof.
  unfold is_trigger_row. destruct (db' !! i) as [x|], (db !! i) as [r|]; try done.
  cbn. intros [= H]. destruct x, r. cbn in *. by simplify_eq.
Qed.

Lemma unlinked_set_order o r o' r' :
  unlinked (set_order o r) = unlinked (set_order o' r') →
  node_type r = node_type r' ∧ trashed r = trashed r'.
Proof. destruct r, r'. by intros [= ]. Qed.

(** One row through [move_node], up to its position. *)
Lemma move_node_unlinked gu (node after_node : AutomationNode) o ord (db : NodeTable) i :
  (i ≠ node_id node →
     unlinked <$> (move_node gu node after_node o ord db).2 !! i = unlinked <$> db !! i)
  ∧ (λ r, set_order 0 (unlinked r)) <$> (move_node gu node after_node o ord db).2 !! i
    = (λ r, set_order 0 (unlinked r)) <$> db !! i.
Proof.
  rewrite move_node_lookup. cbv zeta.
  set (db1 := (update_previous_node _ _ _ db).2).
  assert (Hdb1 : db1 !! i =
    if selects (follows (workflow_id node) (node_id node) None) db i
    then relink (previous_node_id node) (Some (previous_node_output node)) <$> db !! i
    else db !! i) by apply lookup_update_previous_node_query.
  unfold selects in *. rewrite Hdb1.
  destruct (db !! i) as [r|]; [|by case_bool_decide].
  destruct (_ && negb (trashed r)); cbn [fmap option_fmap option_map];
    destruct (_ && negb (trashed _)); case_bool_decide;
    split; try done; try (intros _); cbn;
    destruct (str_truthy (default "" o)); done.
Qed.

(** X4.  [move_node] keeps the rows of the table and changes nothing but
    positions: every row other than the moved node keeps all its other
    columns, the moved node changes its order besides, and a trashed row
    other than the moved node is left exactly as it was. *)
Theorem move_node_changes_positions_only gu (node after_node : AutomationNode)
    (new_output : option string) (new_order : option Z) (db : NodeTable) (i : Z) :
  let moved := (move_node gu node after_node new_output new_order db).2 in
  (is_Some (moved !! i) ↔ is_Some (db !! i))
  ∧ (i ≠ node_id node → unlinked <$> moved !! i = unlinked <$> db !! i)
  ∧ (λ r, set_order 0 (unlinked r)) <$> moved !! i
    = (λ r, set_order 0 (unlinked r)) <$> db !! i
  ∧ (i ≠ node_id node →
     ∀ r, db !! i = Some r → trashed r = true → moved !! i = Some r).
Proof.
  cbv zeta.
  destruct (move_node_unlinked gu node after_node new_output new_order db i)
    as (H2 & H3).
  split_and!; [|done|done|].
  - rewrite <- (fmap_is_Some (λ r, set_order 0 (unlinked r)) (db !! i)), <- H3.
    by rewrite fmap_is_Some.
  - intros Hi r Hl Ht.
    apply (move_node_lookup_other gu node after_node new_output new_order db i r);
      [done|done| |]; by rewrite Ht, andb_false_r.
Qed.

Lemma create_node_unlinked gu gl ty workflow before kwargs (db : NodeTable) i :
  let N := (create_node gu gl ty workflow before kwargs db).1 in
  node_id N = fresh_id db ∧ node_type N = ty ∧ trashed N = false
  ∧ workflow_id N = workflow
  ∧ unlinked <$> (create_node gu gl ty workflow before kwargs db).2 !! i
    = unlinked <$> (<[node_id N := node_row N]> db) !! i.
Proof.
  cbv zeta. destruct before as [B|].
  - destruct (create_node_before_table gu gl ty workflow B kwargs db)
      as (Hid & _ & _ & ->). cbv zeta.
    split_and!; [done..|].
    set (N := (create_node gu gl ty workflow (Some B) kwargs db).1).
    assert (H2 : ∀ j, unlinked <$> (update_previous_node (Some (node_id N))
               (query (shares_slot workflow B) db) None
               (<[node_id N := node_row N]> db)).2 !! j
             = unlinked <$> (<[node_id N := node_row N]> db) !! j).
    { intros j. rewrite lookup_update_previous_node_query.
      destruct (selects _ _ _); [|done].
      by destruct (<[node_id N := node_row N]> db !! j). }
    destruct (str_truthy _); [|done].
    rewrite lookup_save_fields. case_bool_decide; [|done].
    rewrite <- H2. by destruct (_ !! i).
  - done.
Qed.

Lemma duplicate_node_unlinked S (db : NodeTable) i :
  let d := duplicated_node (duplicate_node S db).1 in
  unlinked <$> (duplicate_node S db).2 !! i
  = unlinked <$> (<[node_id d := node_row d]> db) !! i.
Proof.
  cbv zeta. rewrite duplicate_node_lookup.
  destruct (duplicate_node_table S db) as (-> & _).
  case_bool_decide as Hi.
  - subst. by rewrite lookup_insert_eq.
  - rewrite lookup_insert_ne by done. destruct (db !! i); [|done]. cbn.
    by destruct (_ && _).
Qed.

Lemma is_trigger_row_insert_fresh (db : NodeTable) j r i :
  db !! j = None → is_workflow_trigger (node_type r) = false →
  is_trigger_row (<[j := r]> db) i = is_trigger_row db i.
Proof.
  intros Hj Hr. unfold is_trigger_row. rewrite lookup_insert.
  case_decide; [|done]. subst. by rewrite Hj, Hr.
Qed.

Section ServiceProperties.

Variable User : Type.
Variable check_permissions : User → AutomationNodeServiceEntryPoints.OperationType → AutomationNodeServiceEntryPoints.PermissionContext → bool.
Variable gu : AutomationNode → option Z → NodeTable → Z.

(** X8.  The service refuses to duplicate a trigger: it raises, and neither
    the table nor the signals change; no refused call changes anything; and
    an accepted call leaves the table of the handler's [duplicate_node],
    announces the copy with one created signal, and adds no trigger. *)
Theorem duplicate_node_refuses_trigger (user : User) (node : AutomationNode)
    (d : AutomationNodeServiceEntryPoints.ServiceState) :
  let r := AutomationNodeServiceEntryPoints.duplicate_node User check_permissions user node d in
  (is_workflow_trigger (node_type node) = true →
   r = (d, inl (if check_permissions user AutomationNodeServiceEntryPoints.DuplicateAutomationNodeOperationType
                     (AutomationNodeServiceEntryPoints.NodeContext (node_id node))
                then AutomationNodeServiceEntryPoints.AutomationTriggerModificationDisallowed
                else AutomationNodeServiceEntryPoints.PermissionDenied)))
  ∧ (∀ e, r.2 = inl e → r.1 = d)
  ∧ (∀ duplication, r.2 = inr duplication →
       (duplication, AutomationNodeServiceEntryPoints.node_table r.1) = duplicate_node node (AutomationNodeServiceEntryPoints.node_table d)
       ∧ AutomationNodeServiceEntryPoints.signals r.1 =
           AutomationNodeServiceEntryPoints.signals d ++ [AutomationNodeServiceEntryPoints.automation_node_created (node_id (duplicated_node duplication))]
       ∧ ∀ i, is_trigger_row (AutomationNodeServiceEntryPoints.node_table r.1) i = is_trigger_row (AutomationNodeServiceEntryPoints.node_table d) i).
Proof.
  cbv zeta. unfold AutomationNodeServiceEntryPoints.duplicate_node.
  destruct (check_permissions _ _ _); cbn [negb].
  2:{ split_and!; [done|done|]. by intros ? [=]. }
  destruct (is_workflow_trigger (node_type node)) eqn:Htr.
  { split_and!; [done|done|]. by intros ? [=]. }
  pose proof (λ i, duplicate_node_unlinked node (AutomationNodeServiceEntryPoints.node_table d) i) as Hun.
  destruct (duplicate_node_table node (AutomationNodeServiceEntryPoints.node_table d)) as (Hid & _ & _ & _ & _ & _ & Hty & _).
  cbv zeta in *.
  destruct (duplicate_node node (AutomationNodeServiceEntryPoints.node_table d)) as [dup db'] eqn:E.
  cbn [fst snd] in *. split_and!; [done|by intros ? [=]|].
  intros ? [= <-]. split_and!; [done|done|].
  intros i. cbn [AutomationNodeServiceEntryPoints.node_table]. rewrite (is_trigger_row_unlinked _ _ _ (Hun i)).
  apply is_trigger_row_insert_fresh.
  - rewrite Hid. apply fresh_id_fresh.
  - by rewrite Hty.
Qed.

(** X9.  The service moves a node only when both nodes exist untrashed and
    the node's type is not fixed: a fixed node is never moved, a refused
    call changes neither the table nor the signals, and an accepted call
    leaves the table of the handler's [move_node] and sends one signal that
    lists the moved node first and the relinked nodes after it. *)
Theorem move_node_refuses_fixed (user : User) (id new_previous_node_id : Z)
    (new_previous_output : option string) (new_order : option Z) (d : AutomationNodeServiceEntryPoints.ServiceState) :
  let r := AutomationNodeServiceEntryPoints.move_node User check_permissions gu user id new_previous_node_id
             new_previous_output new_order d in
  (∀ e, r.2 = inl e → r.1 = d)
  ∧ (∀ move, r.2 = inr move →
       ∃ node after_node,
         get_node id (AutomationNodeServiceEntryPoints.node_table d) = Some node
         ∧ get_node new_previous_node_id (AutomationNodeServiceEntryPoints.node_table d) = Some after_node
         ∧ is_fixed (node_type node) = false
         ∧ (move, AutomationNodeServiceEntryPoints.node_table r.1)
           = move_node gu node after_node new_previous_output new_order
               (AutomationNodeServiceEntryPoints.node_table d)
         ∧ AutomationNodeServiceEntryPoints.signals r.1 =
             AutomationNodeServiceEntryPoints.signals d ++
               [AutomationNodeServiceEntryPoints.automation_nodes_updated
                  (id :: (node_id <$> next_node_updates move)) (workflow_id node)]
         ∧ ∀ i, is_trigger_row (AutomationNodeServiceEntryPoints.node_table r.1) i = is_trigger_row (AutomationNodeServiceEntryPoints.node_table d) i).
Proof.
  cbv zeta. unfold AutomationNodeServiceEntryPoints.move_node, AutomationNodeServiceEntryPoints.get_node.
  destruct (get_node id (AutomationNodeServiceEntryPoints.node_table d)) as [node|] eqn:Hn.
  2:{ split; [done|]. by intros ? [=]. }
  destruct (check_permissions user AutomationNodeServiceEntryPoints.ReadAutomationNodeOperationType (AutomationNodeServiceEntryPoints.NodeContext id)).
  2:{ split; [done|]. by intros ? [=]. }
  destruct (check_permissions user AutomationNodeServiceEntryPoints.UpdateAutomationNodeOperationType _); cbn [negb].
  2:{ split; [done|]. by intros ? [=]. }
  destruct (is_fixed (node_type node)) eqn:Hfix.
  { split; [done|]. by intros ? [=]. }
  destruct (get_node new_previous_node_id (AutomationNodeServiceEntryPoints.node_table d)) as [after_node|] eqn:Ha.
  2:{ split; [done|]. by intros ? [=]. }
  destruct (check_permissions user AutomationNodeServiceEntryPoints.ReadAutomationNodeOperationType _).
  2:{ split; [done|]. by intros ? [=]. }
  pose proof (λ i, move_node_unlinked gu node after_node new_previous_output
                     new_order (AutomationNodeServiceEntryPoints.node_table d) i) as Hun.
  pose proof (move_node_node_fields gu node after_node new_previous_output new_order
                (AutomationNodeServiceEntryPoints.node_table d)) as (Hid & _).
  destruct (move_node gu node after_node new_previous_output new_order
              (AutomationNodeServiceEntryPoints.node_table d)) as [m db'] eqn:E.
  cbn [fst snd] in *. split; [by intros ? [=]|].
  intros ? [= <-]. exists node, after_node. split_and!; try done.
  - cbn. rewrite Hid. by apply get_node_Some in Hn as (-> & _).
  - intros i. destruct (Hun i) as (_ & H3).
    cbn [AutomationNodeServiceEntryPoints.node_table]. unfold is_trigger_row.
    destruct (db' !! i) as [x|], (AutomationNodeServiceEntryPoints.node_table d !! i) as [r|]; try done.
    apply (inj Some) in H3.
    apply (unlinked_set_order 0 x 0 r) in H3 as [-> ->]. done.
Qed.

End ServiceProperties.

Lemma create_node_new_row gu gl ty workflow before kwargs (db : NodeTable) :
  (∀ b, before = Some b → is_Some (db !! node_id b)) →
  let N := (create_node gu gl ty workflow before kwargs db).1 in
  (create_node gu gl ty workflow before kwargs db).2 !! node_id N = Some (node_row N).
Proof.
  intros Hb. cbv zeta. destruct before as [B|].
  - destruct (create_node_before_table gu gl ty workflow B kwargs db)
      as (Hid & _ & _ & ->). cbv zeta.
    set (N := (create_node gu gl ty workflow (Some B) kwargs db).1) in *.
    pose proof (fresh_id_fresh db) as Hfresh. rewrite <- Hid in Hfresh.
    assert (H2 : (update_previous_node (Some (node_id N))
               (query (shares_slot workflow B) db) None
               (<[node_id N := node_row N]> db)).2 !! node_id N = Some (node_row N)).
    { rewrite lookup_update_previous_node_query, selects_None by done.
      by rewrite lookup_insert_eq. }
    destruct (str_truthy _); [|done].
    rewrite lookup_save_fields, bool_decide_eq_false_2; [done|].
    intros Heq. cbn in Heq. destruct (Hb B eq_refl) as [? HB].
    rewrite <- Heq in HB. congruence.
  - cbn. by rewrite lookup_insert_eq.
Qed.

Section CreateService.

Variable User : Type.
Variable check_permissions : User → AutomationNodeService.Operation → Z → bool.
Variable gu : AutomationNode → option Z → NodeTable → Z.
Variable gl : Z → option Z → NodeTable → option Z.

(** X7.  A refused [create_node] of the service changes nothing; an accepted
    one adds one row under a new key, which [get_node] of the handler then
    returns as the very instance [create_node] returned, sends one created
    signal for it, and adds no trigger. *)
Theorem create_node_adds_one_action (user : User) (node_type : AutomationNodeType)
    (workflow : Z) (before : option AutomationNode) (kwargs : CreateKwargs)
    (d : AutomationNodeService.ServiceDb) :
  (∀ b, before = Some b → is_Some (AutomationNodeService.node_table d !! node_id b)) →
  let r := AutomationNodeService.create_node User check_permissions gu gl user
             node_type workflow before kwargs d in
  (∀ e, r.2 = inl e → r.1 = d)
  ∧ (∀ new_node, r.2 = inr new_node →
       AutomationNodeService.node_table d !! node_id new_node = None
       ∧ (∀ i, is_Some (AutomationNodeService.node_table r.1 !! i)
               ↔ i = node_id new_node
                 ∨ is_Some (AutomationNodeService.node_table d !! i))
       ∧ get_node (node_id new_node) (AutomationNodeService.node_table r.1)
         = Some new_node
       ∧ AutomationNodeService.signals r.1 =
           AutomationNodeService.signals d
             ++ [AutomationNodeService.automation_node_created (node_id new_node)]
       ∧ ∀ i, is_trigger_row (AutomationNodeService.node_table r.1) i
              = is_trigger_row (AutomationNodeService.node_table d) i).
Proof.
  intros Hb. cbv zeta. unfold AutomationNodeService.create_node.
  destruct (is_workflow_trigger node_type) eqn:Htr.
  { split; [done|]. by intros ? [=]. }
  destruct (check_permissions _ _ _); cbn [negb].
  2:{ split; [done|]. by intros ? [=]. }
  match goal with |- context [match ?x with Some e => _ | None => _ end] =>
    destruct x as [e|] end.
  { split; [done|]. by intros ? [=]. }
  set (db := AutomationNodeService.node_table d) in *.
  pose proof (create_node_new_row gu gl node_type workflow before kwargs db Hb) as Hrow.
  pose proof (λ i, create_node_unlinked gu gl node_type workflow before kwargs db i) as Hun.
  cbv zeta in *.
  destruct (create_node gu gl node_type workflow before kwargs db) as [N db'] eqn:E.
  cbn [fst snd AutomationNodeService.node_table AutomationNodeService.signals] in *.
  split; [by intros ? [=]|]. intros ? [= <-].
  destruct (Hun 0) as (Hid & Hty & Htrash & _).
  pose proof (fresh_id_fresh db) as Hfresh. rewrite <- Hid in Hfresh.
  split_and!; [done| | |done|].
  - intros i. destruct (Hun i) as (_ & _ & _ & _ & Hi).
    rewrite <- (fmap_is_Some unlinked (db' !! i)), Hi, fmap_is_Some.
    rewrite lookup_insert. case_decide; [|naive_solver].
    split; [by left|by eexists].
  - unfold get_node. rewrite Hrow, Htrash. by destruct N.
  - intros i. destruct (Hun i) as (_ & _ & _ & _ & Hi).
    rewrite (is_trigger_row_unlinked _ _ _ Hi).
    apply is_trigger_row_insert_fresh; [done|]. by rewrite Hty.
Qed.

End CreateService.

(** X5.  Created before a node that has no previous node (the way
    [replace_node] puts a new trigger in front of the old one), the new node
    has no previous node either; the untrashed nodes of the workflow that
    followed [before] on its own output now follow the new node; [before]
    keeps its place, with its output cleared if it had one; all other rows
    are unchanged. *)
Theorem create_before_head gu gl (ty : AutomationNodeType) (workflow : Z)
    (B : AutomationNode) (kwargs : CreateKwargs) (db : NodeTable) :
  db !! node_id B = Some (node_row B) →
  previous_node_id B = None →
  kw_previous_node_id kwargs = None →
  let N := (create_node gu gl ty workflow (Some B) kwargs db).1 in
  let db' := (create_node gu gl ty workflow (Some B) kwargs db).2 in
  db !! node_id N = None
  ∧ previous_node_id N = None
  ∧ db' !! node_id N = Some (node_row N)
  ∧ db' !! node_id B =
      Some (if str_truthy (previous_node_output B)
            then set_previous_node_output "" B else node_row B)
  ∧ ∀ i r, db !! i = Some r → i ≠ node_id B →
      db' !! i =
      Some (if follows workflow (node_id B) (Some (previous_node_output B)) r
               && negb (trashed r)
            then set_previous_node_id (Some (node_id N)) r else r).
Proof.
  intros HB Hp Hkw. cbv zeta.
  pose proof (create_node_new_row gu gl ty workflow (Some B) kwargs db) as Hnew.
  destruct (create_node_before_table gu gl ty workflow B kwargs db)
    as (Hid & HNp & _ & Htab).
  cbv zeta in *.
  set (N := (create_node gu gl ty workflow (Some B) kwargs db).1) in *.
  rewrite Hkw, Hp in HNp.
  pose proof (fresh_id_fresh db) as Hfresh. rewrite <- Hid in Hfresh.
  assert (HneB : node_id B ≠ node_id N) by congruence.
  assert (Hslot : ∀ r, shares_slot workflow B r
            = follows workflow (node_id B) (Some (previous_node_output B)) r).
  { intros r. unfold shares_slot, follows. by rewrite Hp. }
  assert (Hold2 : ∀ i r, db !! i = Some r →
            (update_previous_node (Some (node_id N))
               (query (shares_slot workflow B) db) None
               (<[node_id N := node_row N]> db)).2 !! i
            = Some (if follows workflow (node_id B) (Some (previous_node_output B)) r
                       && negb (trashed r)
                    then set_previous_node_id (Some (node_id N)) r else r)).
  { intros i r Hl. rewrite lookup_update_previous_node_query.
    unfold selects. rewrite Hl, Hslot.
    rewrite lookup_insert_ne by congruence. rewrite Hl.
    by destruct (_ && _). }
  split_and!; [done|done| | |].
  - apply Hnew. intros b [= <-]. by eexists.
  - rewrite Htab. pose proof (Hold2 _ _ HB) as HB2.
    rewrite follows_false_prev in HB2 by congruence. cbn [andb] in HB2.
    destruct (str_truthy (previous_node_output B)).
    + rewrite lookup_save_fields, bool_decide_eq_true_2 by done.
      rewrite HB2. cbn. by destruct B as [? []].
    + by rewrite HB2.
  - intros i r Hl Hi. rewrite Htab.
    destruct (str_truthy (previous_node_output B)).
    + rewrite lookup_save_fields, bool_decide_eq_false_2 by done. by apply Hold2.
    + by apply Hold2.
Qed.

(** The keyword arguments with another [order]. *)
Lemma create_node_before_ignores_order gu gl ty workflow (B : AutomationNode)
    p o pa l ord ord' (db : NodeTable) :
  create_node gu gl ty workflow (Some B)
    {| kw_previous_node_id := p; kw_previous_node_output := o;
       kw_parent_node_id := pa; kw_label := l; kw_order := ord |} db
  = create_node gu gl ty workflow (Some B)
      {| kw_previous_node_id := p; kw_previous_node_output := o;
         kw_parent_node_id := pa; kw_label := l; kw_order := ord' |} db.
Proof. done. Qed.

(** X6.  A numeric order of zero counts as no order: [create_node] without a
    [before] node and [move_node] then choose the order themselves, exactly
    as when none is given; and with a [before] node [create_node] ignores
    whatever order it is given. *)
Theorem order_zero_is_no_order gu gl (ty : AutomationNodeType) (workflow : Z)
    (before : option AutomationNode) (p : option (option Z)) (o : option string)
    (pa : option Z) (l : option string) (node after_node : AutomationNode)
    (new_output : option string) (db : NodeTable) :
  let kwargs ord :=
    {| kw_previous_node_id := p; kw_previous_node_output := o;
       kw_parent_node_id := pa; kw_label := l; kw_order := ord |} in
  create_node gu gl ty workflow before (kwargs (Some 0)) db
  = create_node gu gl ty workflow before (kwargs None) db
  ∧ (∀ B ord, create_node gu gl ty workflow (Some B) (kwargs ord) db
              = create_node gu gl ty workflow (Some B) (kwargs None) db)
  ∧ move_node gu node after_node new_output (Some 0) db
    = move_node gu node after_node new_output None db.
Proof. cbv zeta. split_and!; [by destruct before|done|done]. Qed.

Section Replace.

Variable User : Type.
Variable check_permissions :
  User → AutomationNodeServiceEntryPoints.OperationType
  → AutomationNodeServiceEntryPoints.PermissionContext → bool.
Variable gu : AutomationNode → option Z → NodeTable → Z.
Variable gl : Z → option Z → NodeTable → option Z.
Variable registry_get : string → option AutomationNodeType.
Variable trash_replaced : AutomationNode → NodeTable → string + NodeTable.

(** X10.  [replace_node] never crosses the line between triggers and actions:
    for a node the user may read and replace and a registered type of
    another category it raises [AutomationNodeNotReplaceable] with nothing
    written and no signal sent; and whenever it returns, the node it
    returns has the registered type asked for, whose trigger and action
    flags are those of the type of the node replaced. *)
Theorem replace_node_keeps_category (user : User) (id : Z) (new_node_type_str : string)
    (d : AutomationNodeServiceEntryPoints.ServiceState) :
  let r := AutomationNodeServiceEntryPoints.replace_node User check_permissions
             gu gl registry_get trash_replaced user id new_node_type_str d in
  (∀ node new_node_type,
     AutomationNodeServiceEntryPoints.get_node User check_permissions user id d
       = inr node →
     check_permissions user
       AutomationNodeServiceEntryPoints.CreateAutomationNodeOperationType
       (AutomationNodeServiceEntryPoints.WorkflowContext (workflow_id node)) = true →
     registry_get new_node_type_str = Some new_node_type →
     is_replaceable_with (node_type node) new_node_type = false →
     r = (d, inl (AutomationNodeServiceEntryPoints.AutomationNodeNotReplaceable
                    not_replaceable_message)))
  ∧ (∀ replaced, r.2 = inr replaced →
       ∃ node new_node_type,
         get_node id (AutomationNodeServiceEntryPoints.node_table d) = Some node
         ∧ registry_get new_node_type_str = Some new_node_type
         ∧ is_workflow_trigger new_node_type = is_workflow_trigger (node_type node)
         ∧ is_workflow_action new_node_type = is_workflow_action (node_type node)
         ∧ node_type (AutomationNodeServiceEntryPoints.replaced_node replaced)
           = new_node_type
         ∧ AutomationNodeServiceEntryPoints.original_node_id replaced = id
         ∧ AutomationNodeServiceEntryPoints.original_node_type replaced
           = type_name (node_type node)).
Proof.
  cbv zeta. unfold AutomationNodeServiceEntryPoints.replace_node. split.
  - intros node ty -> -> -> Hrep. unfold before_replace. by rewrite Hrep.
  - intros rep.
    destruct (AutomationNodeServiceEntryPoints.get_node _ _ _ _ _) as [e|node] eqn:Hn;
      [by intros [=]|].
    destruct (check_permissions _ _ _); [|by intros [=]]. cbn [negb].
    destruct (registry_get _) as [ty|]; [|by intros [=]].
    unfold before_replace.
    destruct (is_replaceable_with (node_type node) ty) eqn:Hrep; [|by intros [=]].
    cbn [negb].
    pose proof (create_node_unlinked gu gl ty (workflow_id node) (Some node)
      {| kw_previous_node_id := None; kw_previous_node_output := None;
         kw_parent_node_id := None; kw_label := None; kw_order := Some (order node) |}
      (AutomationNodeServiceEntryPoints.node_table d) 0) as (_ & Hty & _).
    cbv zeta in Hty.
    destruct (create_node _ _ _ _ _ _ _) as [N db'].
    destruct (trash_replaced _ _); [by intros [=]|].
    intros [= <-]. cbn.
    unfold AutomationNodeServiceEntryPoints.get_node in Hn.
    destruct (get_node id _) as [node'|] eqn:Hn'; [|done].
    destruct (check_permissions _ _ _); [|done]. injection Hn as ->.
    exists node, ty.
    unfold is_replaceable_with in Hrep.
    apply andb_true_iff in Hrep as [H1%eqb_prop H2%eqb_prop].
    apply get_node_Some in Hn' as (Hid & _).
    split_and!; done.
Qed.

End Replace.

(* ===================================================================== *)
(** ** Invariants of the dispatch walk *)
(* ===================================================================== *)

Section DispatchInvariants.

Variable service_dispatch :
  AutomationNode → AutomationDispatchContext → DispatchResult + Exception.
Variable db : NodeTable.

Lemma translate_exception_not_improper node e m :
  translate_exception node e ≠ ServiceImproperlyConfiguredDispatchException m.
Proof. by destruct e. Qed.

Lemma dispatch_next_nodes_exception step node nodes st st' e :
  dispatch_next_nodes step node nodes st = (st', Some e) →
  ∃ e', e = translate_exception node e'.
Proof.
  revert st. induction nodes as [|n nodes IH]; intros st; cbn; [done|].
  destruct (step n st) as [st1 [e1|]].
  - intros [= <- <-]. by eexists.
  - apply IH.
Qed.

(** X11.  [dispatch_node] never lets a
    [ServiceImproperlyConfiguredDispatchException] out: whatever the table,
    the business logic and the depth, the exception it raises, if any, is a
    translated one or the exhaustion of the call stack. *)
Theorem dispatch_node_never_raises_improperly_configured
    (depth : nat) (node : AutomationNode) (st : DispatchState) (m : string) :
  (dispatch_node service_dispatch db depth node st).2
  ≠ Some (ServiceImproperlyConfiguredDispatchException m).
Proof.
  destruct depth as [|depth]; [done|].
  rewrite dispatch_node_unfold. cbv zeta.
  destruct (service_dispatch _ _) as [res|e]; cbn [snd].
  - case_bool_decide; [done|].
    destruct (dispatch_next_nodes _ _ _ _) as [st' [e|]] eqn:E; [|done].
    apply dispatch_next_nodes_exception in E as [e' ->]. cbn.
    intros [= Hx]. by apply translate_exception_not_improper in Hx.
  - intros [= Hx]. by apply translate_exception_not_improper in Hx.
Qed.

Lemma walk_ok_refl w start st : walk_ok db w start st st.
Proof. split; [done|]. by left. Qed.

Lemma effects_after_dispatch node r st :
  effects (after_dispatch node r st) = effects st.
Proof. done. Qed.

Lemma elem_of_effects_emit e e' st :
  e ∈ effects (emit e' st) ↔ e ∈ effects st ∨ e = e'.
Proof. cbn. rewrite elem_of_app, list_elem_of_singleton. done. Qed.

Lemma dispatch_node_walk depth : ∀ (node : AutomationNode) st,
  walk_ok db (workflow_id node) [node_id node] st
    (dispatch_node service_dispatch db depth node st).1.
Proof.
  induction depth as [|depth IH]; intros node st; [apply walk_ok_refl|].
  rewrite dispatch_node_unfold. cbv zeta.
  set (st1 := emit (Dispatched (node_id node)) st).
  assert (H1 : walk_ok db (workflow_id node) [node_id node] st st1).
  { split.
    - intros e He. apply elem_of_effects_emit. by left.
    - intros i [Hi|[= ->]]%elem_of_effects_emit; [by left|].
      right; left. apply list_elem_of_here. }
  destruct (service_dispatch node (dispatch_context st1)) as [res|e]; [|done].
  set (st2 := after_dispatch node res st1).
  case_bool_decide.
  { cbn [fst]. destruct H1 as [Hm Hd]. split.
    - intros e He. apply elem_of_effects_emit. left.
      apply elem_of_effects_emit. left. by apply Hm.
    - intros i [[Hi|[=]]%elem_of_effects_emit|[=]]%elem_of_effects_emit.
      destruct (Hd i Hi) as [?|[?|(r & j & ? & ? & ? & ? & Hj)]]; [by left|by right; left|].
      right; right. exists r, j. split_and!; try done.
      apply elem_of_effects_emit. left. apply elem_of_effects_emit. by left. }
  (* the loop over the next nodes *)
  assert (Hloop : ∀ ns s,
    (∀ n, n ∈ ns →
       db !! node_id n = Some (node_row n) ∧ trashed n = false
       ∧ workflow_id n = workflow_id node
       ∧ previous_node_id n = Some (node_id node)) →
    Dispatched (node_id node) ∈ effects s →
    let s' := (dispatch_next_nodes (dispatch_node service_dispatch db depth) node
                 ns s).1 in
    (∀ e, e ∈ effects s → e ∈ effects s')
    ∧ ∀ i, Dispatched i ∈ effects s' →
        Dispatched i ∈ effects s
        ∨ ∃ r j, db !! i = Some r ∧ trashed r = false
                 ∧ workflow_id r = workflow_id node
                 ∧ previous_node_id r = Some j ∧ Dispatched j ∈ effects s').
  { induction ns as [|n ns IHn]; intros s Hnodes Hs; cbv zeta.
    { cbn. split; [done|]. by left. }
    cbn [dispatch_next_nodes].
    destruct (Hnodes n (list_elem_of_here _ _)) as (Hl & Ht & Hw & Hp).
    pose proof (IH n s) as [Hm Hd]. rewrite Hw in Hd.
    destruct (dispatch_node service_dispatch db depth n s) as [s1 [e|]];
      cbn [fst] in *.
    - split; [done|]. intros i Hi.
      destruct (Hd i Hi) as [?|[->%list_elem_of_singleton|?]]; [by left| |by right].
      right. exists (node_row n), (node_id node). split_and!; try done. by apply Hm.
    - destruct (IHn s1) as [Hm' Hd'].
      { intros n' Hn'. apply Hnodes. by apply list_elem_of_further. }
      { by apply Hm. }
      cbv zeta in *. split; [by intros e He; apply Hm', Hm|].
      intros i Hi. destruct (Hd' i Hi) as [Hi1|?]; [|by right].
      destruct (Hd i Hi1) as [?|[->%list_elem_of_singleton|(r & j & ? & ? & ? & ? & Hj)]];
        [by left| |].
      + right. exists (node_row n), (node_id node). split_and!; try done.
        by apply Hm', Hm.
      + right. exists r, j. split_and!; try done. by apply Hm'. }
  destruct (Hloop (node_get_next_nodes node (Some (output_uid res)) db) st2)
    as [Hm Hd].
  { intros n Hn. rewrite node_get_next_nodes_query in Hn.
    apply elem_of_query in Hn as (Hl & (Hw & Hp & _)%follows_true & Ht). done. }
  { change (effects st2) with (effects st1). apply elem_of_effects_emit. by right. }
  cbv zeta in *. change (effects st2) with (effects st1) in *.
  destruct H1 as [Hm1 Hd1]. split.
  - intros e He. apply Hm. by apply Hm1.
  - intros i Hi. destruct (Hd i Hi) as [Hi2|?]; [|by right; right].
    destruct (Hd1 i Hi2) as [?|[?|(r & j & ? & ? & ? & ? & Hj)]];
      [by left|by right; left|].
    right; right. exists r, j. split_and!; try done.
    by apply Hm.
Qed.

(** X12.  The walk stays inside the workflow: every node [dispatch_node]
    dispatches, other than the node it is started on, is an untrashed row of
    that node's workflow whose previous node was dispatched in the same
    run. *)
Theorem dispatch_node_stays_in_workflow (depth : nat) (node : AutomationNode)
    (st : DispatchState) (i : Z) :
  let st' := (dispatch_node service_dispatch db depth node st).1 in
  Dispatched i ∈ effects st' →
  Dispatched i ∉ effects st →
  i ≠ node_id node →
  ∃ r j, db !! i = Some r ∧ trashed r = false
         ∧ workflow_id r = workflow_id node
         ∧ previous_node_id r = Some j ∧ Dispatched j ∈ effects st'.
Proof.
  cbv zeta. intros Hi Hnew Hne.
  destruct (dispatch_node_walk depth node st) as [_ Hd].
  destruct (Hd i Hi) as [?|[->%list_elem_of_singleton|?]]; done.
Qed.

Lemma dispatch_next_nodes_raised step node nodes st st' e :
  dispatch_next_nodes step node nodes st = (st', Some e) →
  ∃ n s e', step n s = (st', Some e') ∧ e = translate_exception node e'.
Proof.
  revert st. induction nodes as [|n nodes IH]; intros st; cbn; [done|].
  destruct (step n st) as [st1 [e1|]] eqn:E.
  - intros [= <- <-]. eauto.
  - apply IH.
Qed.

(** X13.  A failure stops the run where it happens: when [dispatch_node]
    raises anything but the exhaustion of the call stack, the last thing it
    did was to dispatch a node; no further node is dispatched and no signal
    is sent after the failure. *)
Theorem dispatch_node_stops_at_failure (depth : nat) (node : AutomationNode)
    (st st' : DispatchState) (e : Exception) :
  dispatch_node service_dispatch db depth node st = (st', Some e) →
  e ≠ RecursionError →
  ∃ i, last (effects st') = Some (Dispatched i).
Proof.
  revert node st st' e.
  induction depth as [|depth IH]; intros node st st' e; [by intros [= <- <-]|].
  rewrite dispatch_node_unfold. cbv zeta.
  destruct (service_dispatch _ _) as [res|e0].
  - case_bool_decide; [done|].
    intros (n & s & e' & Hstep & ->)%dispatch_next_nodes_raised Hne.
    apply (IH _ _ _ _ Hstep). intros ->. by apply Hne.
  - intros [= <- <-] _. exists (node_id node). cbn. apply last_snoc.
Qed.

End DispatchInvariants.

(* ===================================================================== *)
(** ** Properties of the rate limiter *)
(* ===================================================================== *)

Lemma cache_key_inj i j :
  _get_rate_limit_cache_key i = _get_rate_limit_cache_key j → i = j.
Proof.
  unfold _get_rate_limit_cache_key. intros H.
  apply (inj (String.append "automation_workflow_")) in H.
  by apply (inj pretty) in H.
Qed.

Lemma filter_filter_implied {A} (f g : A → bool) (l : list A) :
  (∀ x, f x = true → g x = true) →
  List.filter f (List.filter g l) = List.filter f l.
Proof.
  intros H. induction l as [|x l IH]; [done|]. simpl.
  destruct (g x) eqn:Hg; simpl.
  - destruct (f x); by rewrite IH.
  - destruct (f x) eqn:Hf; [|done]. apply H in Hf. congruence.
Qed.

Lemma filter_app_length {A} (f : A → bool) (l1 l2 : list A) :
  length (List.filter f (l1 ++ l2)) =
  (length (List.filter f l1) + length (List.filter f l2))%nat.
Proof. by rewrite List.filter_app, length_app. Qed.

Lemma in_window_mono s s' v : s ≤ s' → in_window s' v = true → in_window s v = true.
Proof.
  intros Hs. destruct v; [|done]. simpl. rewrite !Z.ltb_lt. lia.
Qed.

Lemma check_is_rate_limited_cases cfg now wid d :
  let W := timedelta_seconds (AUTOMATION_WORKFLOW_RATE_LIMIT_CACHE_EXPIRY_SECONDS cfg) in
  let recent := List.filter (in_window (now - W)) (default [] (rate_limit_cache d !! wid)) in
  (AUTOMATION_WORKFLOW_RATE_LIMIT_MAX_RUNS cfg ≤ Z.of_nat (length recent)
   ∧ _check_is_rate_limited cfg now wid d
     = (d, Some (AutomationWorkflowRateLimited rate_limited_message)))
  ∨ (Z.of_nat (length recent) < AUTOMATION_WORKFLOW_RATE_LIMIT_MAX_RUNS cfg
     ∧ _check_is_rate_limited cfg now wid d
       = (set_rate_limit_cache
            (<[wid := recent ++ [Datetime now]]> (rate_limit_cache d)) d, None)).
Proof.
  cbv zeta. unfold _check_is_rate_limited.
  destruct (check_rate_limited_value_cases cfg now
              (default [] (rate_limit_cache d !! wid))) as [[H ->]|[H ->]];
    [left|right]; done.
Qed.

Section Window.
Variable cfg : Settings.
Variable wid : Z.
Let W := timedelta_seconds (AUTOMATION_WORKFLOW_RATE_LIMIT_CACHE_EXPIRY_SECONDS cfg).
Let M := AUTOMATION_WORKFLOW_RATE_LIMIT_MAX_RUNS cfg.

Lemma admitted_runs_window_gen times : ∀ d pre lo,
  Forall (λ t, lo ≤ t) times →
  StronglySorted Z.le times →
  (∀ t, (lo ≤ t)%Z →
     (length (List.filter (λ b, (t - W <? b)%Z) pre)
      ≤ length (List.filter (in_window (t - W)%Z)
                  (default [] (rate_limit_cache d !! wid))))%nat) →
  ∀ k a, (admitted_runs cfg wid times d).1 !! k = Some a →
    Z.of_nat (length (List.filter (λ b, a - W <? b)
                 (pre ++ take (S k) (admitted_runs cfg wid times d).1))) ≤ M.
Proof.
  induction times as [|now rest IH]; intros d pre lo Hlo Hsort Hinv k a Hk.
  - done.
  - apply Forall_cons in Hlo as [Hlo1 Hlo2].
    apply StronglySorted_inv in Hsort as [Hsort Hle].
    cbn [admitted_runs] in Hk |- *.
    destruct (check_is_rate_limited_cases cfg now wid d) as [[Hfull E]|[Hfree E]];
      cbv zeta in *; rewrite E in Hk |- *.
    + exact (IH d pre lo Hlo2 Hsort Hinv k a Hk).
    + fold W in Hfree.
      set (recent := List.filter (in_window (now - W))
                       (default [] (rate_limit_cache d !! wid))) in *.
      set (d' := set_rate_limit_cache _ d) in *.
      destruct (admitted_runs cfg wid rest d') as [adm d''] eqn:Hadm.
      cbn [fst] in Hk |- *.
      assert (Hinv' : ∀ t, (now ≤ t)%Z →
         (length (List.filter (λ b, (t - W <? b)%Z) (pre ++ [now]))
          ≤ length (List.filter (in_window (t - W)%Z)
                      (default [] (rate_limit_cache d' !! wid))))%nat).
      { intros t Ht. unfold d'. cbn [rate_limit_cache set_rate_limit_cache].
        rewrite lookup_insert_eq. cbn [default from_option id].
        rewrite !filter_app_length. unfold recent.
        rewrite filter_filter_implied
          by (intros x; apply in_window_mono; lia).
        specialize (Hinv t ltac:(lia)). cbn [List.filter in_window].
        destruct (t - W <? now); cbn [length]; lia. }
      destruct k as [|k].
      * cbn in Hk. simplify_eq. cbn [take].
        rewrite filter_app_length. specialize (Hinv a Hlo1).
        fold recent in Hinv. cbn [List.filter].
        rewrite take_0. destruct (a - W <? a); cbn [length List.filter]; unfold M; lia.
      * cbn in Hk.
        pose proof (IH d' (pre ++ [now]) now Hle Hsort Hinv' k a) as IH'.
        rewrite Hadm in IH'. cbn [fst] in IH'. specialize (IH' Hk).
        by rewrite <- app_assoc in IH'.
Qed.

End Window.

Lemma admitted_runs_sorted cfg wid times : ∀ d lo,
  Forall (λ t, lo ≤ t) times → StronglySorted Z.le times →
  Forall (λ t, lo ≤ t) (admitted_runs cfg wid times d).1
  ∧ StronglySorted Z.le (admitted_runs cfg wid times d).1.
Proof.
  induction times as [|now rest IH]; intros d lo Hlo Hsort; [by split; constructor|].
  apply Forall_cons in Hlo as [Hlo1 Hlo2].
  apply StronglySorted_inv in Hsort as [Hsort Hle].
  cbn [admitted_runs].
  destruct (_check_is_rate_limited cfg now wid d) as [d' [e|]].
  - by apply IH.
  - destruct (IH d' now Hle Hsort) as [H1 H2].
    destruct (IH d' lo Hlo2 Hsort) as [H3 _].
    destruct (admitted_runs cfg wid rest d') as [adm d'']. cbn [fst] in *.
    split; by constructor.
Qed.

(** X14.  The cache key of the rate limiter tells workflows apart: two
    workflows share a key only if they are the same workflow. *)
Theorem rate_limit_cache_key_injective (workflow_id workflow_id' : Z) :
  _get_rate_limit_cache_key workflow_id = _get_rate_limit_cache_key workflow_id'
  ↔ workflow_id = workflow_id'.
Proof. split; [apply cache_key_inj|by intros ->]. Qed.

(** X15.  What the rate limiter stores after letting a run through is bounded
    and clean: at most the configured maximum of entries, each of them a
    timestamp, the current time last, and none as old as the window; stale
    timestamps and entries that are not timestamps are dropped. *)
Theorem rate_limit_window_is_bounded cfg (now : Z) (data data' : list CacheValue) :
  _check_is_rate_limited_value cfg now data = inl data' →
  Z.of_nat (length data') ≤ AUTOMATION_WORKFLOW_RATE_LIMIT_MAX_RUNS cfg
  ∧ last data' = Some (Datetime now)
  ∧ Forall (λ v, ∃ t, v = Datetime t
                 ∧ (now - timedelta_seconds
                            (AUTOMATION_WORKFLOW_RATE_LIMIT_CACHE_EXPIRY_SECONDS cfg) < t
                    ∨ t = now)) data'
  ∧ ∀ v, v ∈ data' → v ∈ data ∨ v = Datetime now.
Proof.
  destruct (check_rate_limited_value_cases cfg now data) as [[_ ->]|[Hlt ->]];
    [done|]. cbv zeta in Hlt. intros [= <-]. split_and!.
  - rewrite length_app. cbn. lia.
  - apply last_snoc.
  - apply Forall_app. split.
    + apply Forall_forall. intros v Hv.
      apply list_elem_of_In, filter_In in Hv as [_ (t & -> & Ht)%in_window_true].
      eauto.
    + repeat constructor. eauto.
  - intros v [Hv|Hv]%elem_of_app.
    + left. apply list_elem_of_In, filter_In in Hv as [Hv _].
      by apply list_elem_of_In.
    + right. by apply list_elem_of_singleton in Hv.
Qed.

Lemma sorted_lookup_le (l : list Z) i j x y :
  StronglySorted Z.le l → l !! i = Some x → l !! j = Some y → (i ≤ j)%nat → x ≤ y.
Proof.
  intros Hs Hi Hj Hij. destruct (decide (i = j)) as [->|Hne].
  { rewrite Hi in Hj. injection Hj as ->. lia. }
  rewrite <- (take_drop j l) in Hs.
  apply (StronglySorted_app_1_elem_of _ _ _ _ _ Hs).
  - apply list_elem_of_lookup. exists i. rewrite lookup_take_lt by lia. done.
  - apply list_elem_of_lookup. exists 0%nat. rewrite lookup_drop.
    by rewrite Nat.add_0_r.
Qed.

Lemma filter_length_all {A} (f : A → bool) (l : list A) :
  Forall (λ x, f x = true) l → length (List.filter f l) = length l.
Proof. intros H. by rewrite filter_all. Qed.

(** X16.  The sliding window holds over any sequence of calls: when the rate
    limiter is asked at non-decreasing times, then at each run it lets
    through, the runs let through within the window ending there, that run
    included, number at most the configured maximum; so two runs let
    through that many places apart are at least a window apart. *)
Theorem rate_limit_sliding_window cfg (workflow_id : Z) (times : list Z) (d : RunDb)
    (k : nat) (a : Z) :
  let window :=
    timedelta_seconds (AUTOMATION_WORKFLOW_RATE_LIMIT_CACHE_EXPIRY_SECONDS cfg) in
  let max_runs := AUTOMATION_WORKFLOW_RATE_LIMIT_MAX_RUNS cfg in
  let admitted := (admitted_runs cfg workflow_id times d).1 in
  Sorted Z.le times →
  admitted !! k = Some a →
  Z.of_nat (length (List.filter (λ b, a - window <? b) (take (S k) admitted)))
  ≤ max_runs
  ∧ ∀ j b, (j + Z.to_nat max_runs)%nat = k → admitted !! j = Some b →
           b + window ≤ a.
Proof.
  cbv zeta. intros Hsorted%Sorted_StronglySorted Hk; [|apply _].
  set (W := timedelta_seconds _).
  set (M := AUTOMATION_WORKFLOW_RATE_LIMIT_MAX_RUNS cfg).
  set (adm := (admitted_runs cfg workflow_id times d).1) in *.
  assert (Hcount : Z.of_nat (length (List.filter (λ b, a - W <? b) (take (S k) adm)))
                   ≤ M).
  { destruct times as [|t0 times]; [done|].
    apply (admitted_runs_window_gen cfg workflow_id (t0 :: times) d [] t0).
    - constructor; [lia|]. by apply StronglySorted_inv in Hsorted as [_ ?].
    - done.
    - intros; cbn; lia.
    - done. }
  split; [done|].
  intros j b Hj Hb.
  destruct (Z.le_gt_cases (b + W) a) as [|Hlt]; [done|]. exfalso.
  assert (Hs : StronglySorted Z.le adm).
  { destruct times as [|t0 times]; [constructor|].
    apply (admitted_runs_sorted cfg workflow_id (t0 :: times) d t0); [|done].
    constructor; [lia|]. by apply StronglySorted_inv in Hsorted as [_ ?]. }
  pose proof (lookup_lt_Some _ _ _ Hk) as Hlen.
  rewrite <- (take_drop j (take (S k) adm)), filter_app_length in Hcount.
  rewrite (filter_length_all _ (drop j (take (S k) adm))) in Hcount.
  - rewrite length_drop, length_take in Hcount. lia.
  - apply Forall_forall. intros x [i Hx]%list_elem_of_lookup.
    rewrite lookup_drop in Hx.
    apply lookup_take_Some in Hx as [Hx _].
    pose proof (sorted_lookup_le adm j (j + i) b x Hs Hb Hx ltac:(lia)).
    apply Z.ltb_lt. lia.
Qed.

(* ===================================================================== *)
(** ** Properties of a run *)
(* ===================================================================== *)

Section RunProperties.

Variable service_dispatch :
  AutomationNode → AutomationDispatchContext → DispatchResult + Exception.
Variable recursion_limit : nat.
Variable misconfigured_is_dispatch_exception : bool.
Variable cfg : Settings.

Implicit Types (d : RunDb) (o w : AutomationWorkflow).

Lemma reset_cache o d :
  rate_limit_cache (reset_workflow_temporary_states o d) = rate_limit_cache d.
Proof. by destruct (reset_frame o d) as (_ & _ & -> & _). Qed.

Lemma run_body_nodes clock w o ctx d :
  nodes (run_body service_dispatch recursion_limit cfg clock w o ctx d).1.1 = nodes d
  ∧ automations (run_body service_dispatch recursion_limit cfg clock w o ctx d).1.1
    = automations d.
Proof.
  destruct (run_body_frame service_dispatch recursion_limit cfg clock w o ctx d)
    as [-> _].
  by destruct (before_run_frame cfg (rate_limit_now clock) o d) as (_ & -> & -> & _).
Qed.

Lemma start_workflow_nodes clock w payload simulate_until d d' effs :
  start_workflow service_dispatch recursion_limit
    misconfigured_is_dispatch_exception cfg clock w payload simulate_until d
  = Some (d', effs) →
  nodes d' = nodes d ∧ automations d' = automations d.
Proof.
  destruct (get_original_workflow w d) as [o|] eqn:Ho.
  2:{ unfold start_workflow. by rewrite Ho. }
  destruct simulate_until as [n|].
  - rewrite (start_workflow_simulated service_dispatch recursion_limit
               misconfigured_is_dispatch_exception cfg clock w payload n d o Ho).
    cbv zeta. intros [= <- _].
    destruct (run_body_nodes clock w o (run_context w payload (Some n)) d) as [Hn Ha].
    by destruct (handle_outcome _ _ _).2.
  - rewrite (start_workflow_recorded service_dispatch recursion_limit
               misconfigured_is_dispatch_exception cfg clock w payload d o Ho).
    cbv zeta. intros [= <- _].
    destruct (run_body_nodes clock w o (run_context w payload None)
                (create_workflow_history o (start_time clock)
                   (bool_decide (wf_id o = wf_id w)) d).2) as [Hn Ha].
    by destruct (handle_outcome _ _ _).2.
Qed.

(** X18.  A run that the circuit breaker, asked once the run's entry is
    opened, lets through and that the rate limiter denies is recorded as a
    failed run: its history entry is closed with status Error and the
    rate-limit message, no node is dispatched, the window of recorded starts
    is left as it was, and no workflow changes state. *)
Theorem rate_limited_run_is_recorded_as_error clock w payload d o :
  get_original_workflow w d = Some o →
  _check_too_many_errors cfg o
    (create_workflow_history o (start_time clock)
       (bool_decide (wf_id o = wf_id w)) d).2 = None →
  AUTOMATION_WORKFLOW_RATE_LIMIT_MAX_RUNS cfg
  ≤ Z.of_nat (length (List.filter
       (in_window (rate_limit_now clock
                   - timedelta_seconds
                       (AUTOMATION_WORKFLOW_RATE_LIMIT_CACHE_EXPIRY_SECONDS cfg)))
       (default [] (rate_limit_cache d !! wf_id o)))) →
  ∃ d' h,
    start_workflow service_dispatch recursion_limit
      misconfigured_is_dispatch_exception cfg clock w payload None d = Some (d', [])
    ∧ histories d' = h :: histories d
    ∧ history_workflow h = wf_id o
    ∧ status h = ERROR
    ∧ message h = rate_limited_message
    ∧ completed_on h = Some (completion_time clock)
    ∧ rate_limit_cache d' = rate_limit_cache d
    ∧ nodes d' = nodes d
    ∧ ∀ i, state <$> workflows d' !! i = state <$> workflows d !! i.
Proof.
  intros Ho Hok Hfull.
  destruct (start_workflow_histories service_dispatch recursion_limit
              misconfigured_is_dispatch_exception cfg clock w payload d o Ho)
    as (d' & Hrun & Hh & _ & Hc & Hw).
  cbv zeta in *.
  set (opened := create_workflow_history o (start_time clock)
                   (bool_decide (wf_id o = wf_id w)) d) in *.
  set (d1 := reset_workflow_temporary_states o opened.2).
  assert (Hbody : run_body service_dispatch recursion_limit cfg clock w o
                    (run_context w payload None) opened.2
                  = (d1, [], Some (AutomationWorkflowRateLimited rate_limited_message))).
  { unfold run_body, before_run, d1. cbv zeta.
    rewrite (check_too_many_errors_histories cfg o opened.2
               (reset_workflow_temporary_states o opened.2))
      by apply reset_frame.
    rewrite Hok.
    destruct (check_is_rate_limited_cases cfg (rate_limit_now clock) (wf_id o)
                (reset_workflow_temporary_states o opened.2))
      as [[_ ->]|[Hfree _]]; [done|].
    cbv zeta in Hfree. rewrite reset_cache in Hfree. unfold opened in Hfree.
    cbn [create_workflow_history snd rate_limit_cache set_histories] in Hfree.
    lia. }
  rewrite Hbody in *. cbn [fst snd handle_outcome] in *.
  exists d', (close_history opened.1 (completion_time clock) rate_limited_message ERROR).
  split_and!; try done.
  - rewrite Hc. unfold d1. by rewrite reset_cache.
  - by apply start_workflow_nodes in Hrun as [? _].
  - intros i. rewrite Hw. unfold d1. apply reset_opened_state.
Qed.

(** X19.  A simulated run writes no history, yet it passes the same checks
    as any run: when it is let through, its start is recorded in the
    rate-limit window of the original workflow; when the circuit breaker
    denies it, nothing is dispatched and the executing workflow is disabled,
    with no history entry to show for it.  The node table and the
    automations are never written. *)
Theorem simulated_run_leaves_no_history clock w payload (n : Z) d o :
  get_original_workflow w d = Some o →
  ∃ d' effs,
    start_workflow service_dispatch recursion_limit
      misconfigured_is_dispatch_exception cfg clock w payload (Some n) d
    = Some (d', effs)
    ∧ histories d' = histories d
    ∧ nodes d' = nodes d
    ∧ automations d' = automations d
    ∧ (_check_too_many_errors cfg o d = None →
       let recent :=
         List.filter
           (in_window (rate_limit_now clock
                       - timedelta_seconds
                           (AUTOMATION_WORKFLOW_RATE_LIMIT_CACHE_EXPIRY_SECONDS cfg)))
           (default [] (rate_limit_cache d !! wf_id o)) in
       Z.of_nat (length recent) < AUTOMATION_WORKFLOW_RATE_LIMIT_MAX_RUNS cfg →
       rate_limit_cache d' !! wf_id o
       = Some (recent ++ [Datetime (rate_limit_now clock)]))
    ∧ (_check_too_many_errors cfg o d ≠ None →
       effs = []
       ∧ rate_limit_cache d' = rate_limit_cache d
       ∧ (is_Some (workflows d !! wf_id w) →
          state <$> workflows d' !! wf_id w = Some DISABLED)).
Proof.
  intros Ho.
  pose proof (start_workflow_simulated service_dispatch recursion_limit
                misconfigured_is_dispatch_exception cfg clock w payload n d o Ho) as Hrun.
  cbv zeta in Hrun. eexists _, _. split; [exact Hrun|].
  destruct (start_workflow_nodes _ _ _ _ _ _ _ Hrun) as [Hn Ha].
  set (b := run_body service_dispatch recursion_limit cfg clock w o
              (run_context w payload (Some n)) d) in *.
  set (out := handle_outcome misconfigured_is_dispatch_exception o b.2) in *.
  set (d1 := reset_workflow_temporary_states o d).
  assert (Hbreak : _check_too_many_errors cfg o d1 = _check_too_many_errors cfg o d).
  { apply check_too_many_errors_histories. apply reset_frame. }
  split_and!; [|done|done| |].
  - transitivity (histories b.1.1); [by destruct (out.2)|].
    apply run_body_histories.
  - intros Hnone recent Hfree.
    transitivity (rate_limit_cache b.1.1 !! wf_id o); [by destruct (out.2)|].
    unfold b.
    destruct (run_body_frame service_dispatch recursion_limit cfg clock w o
                (run_context w payload (Some n)) d) as [-> _].
    unfold before_run. cbv zeta. fold d1. rewrite Hbreak, Hnone.
    destruct (check_is_rate_limited_cases cfg (rate_limit_now clock) (wf_id o) d1)
      as [[Hfull _]|[_ ->]]; cbv zeta in *.
    + unfold d1 in Hfull. rewrite reset_cache in Hfull. unfold recent in Hfree. lia.
    + cbn. rewrite lookup_insert_eq. unfold d1. by rewrite reset_cache.
  - intros Hsome.
    destruct (_check_too_many_errors cfg o d) as [e|] eqn:He; [|done].
    assert (e = AutomationWorkflowTooManyErrors (too_many_errors_message (wf_id o)))
      as ->.
    { unfold _check_too_many_errors in He.
      destruct (_ <? _)%nat; [done|]. destruct (forallb _ _); by simplify_eq. }
    assert (Hb : b = (d1, [], Some (AutomationWorkflowTooManyErrors
                                     (too_many_errors_message (wf_id o))))).
    { unfold b, run_body, before_run. cbv zeta. fold d1. by rewrite Hbreak. }
    unfold out. rewrite Hb. cbn [fst snd handle_outcome].
    split_and!; [done| |].
    + cbn. unfold d1. by rewrite reset_cache.
    + intros [r Hr].
      destruct (get_original_workflow_stable w d d1 o Ho) as (o' & Ho' & Hid).
      { apply reset_frame. }
      { apply reset_frame. }
      rewrite (disable_workflow_lookup w d1 o' _ Ho').
      rewrite bool_decide_eq_true_2 by apply list_elem_of_here.
      destruct (reset_frame o d) as (_ & _ & _ & _ & _ & Hst).
      specialize (Hst (wf_id w)). fold d1 in Hst. rewrite Hr in Hst.
      by destruct (workflows d1 !! wf_id w).
Qed.

(** X17.  [before_run] makes its checks in a fixed order and a denial costs
    nothing: the circuit breaker is asked first, so when it denies, the
    rate limiter is not consulted at all; a denial by either leaves the
    window of recorded starts as it was; only a run that passes both has
    its time recorded.  Histories, nodes, automations and workflow states
    are never written. *)
Theorem before_run_checks_in_order (now : Z) o d :
  let r := before_run cfg now o d in
  let recent :=
    List.filter
      (in_window (now - timedelta_seconds
                          (AUTOMATION_WORKFLOW_RATE_LIMIT_CACHE_EXPIRY_SECONDS cfg)))
      (default [] (rate_limit_cache d !! wf_id o)) in
  r.2 =
    match _check_too_many_errors cfg o d with
    | Some e => Some e
    | None =>
        if AUTOMATION_WORKFLOW_RATE_LIMIT_MAX_RUNS cfg <=? Z.of_nat (length recent)
        then Some (AutomationWorkflowRateLimited rate_limited_message)
        else None
    end
  ∧ rate_limit_cache r.1 =
      match r.2 with
      | Some _ => rate_limit_cache d
      | None => <[wf_id o := recent ++ [Datetime now]]> (rate_limit_cache d)
      end
  ∧ histories r.1 = histories d ∧ nodes r.1 = nodes d
  ∧ automations r.1 = automations d
  ∧ ∀ i, state <$> workflows r.1 !! i = state <$> workflows d !! i.
Proof.
  cbv zeta.
  destruct (before_run_frame cfg now o d) as (Hh & Ha & Hn & _ & Hst & _).
  cbv zeta in *. split_and!; try done.
  - unfold before_run. cbv zeta.
    rewrite (check_too_many_errors_histories cfg o d
               (reset_workflow_temporary_states o d)) by apply reset_frame.
    destruct (_check_too_many_errors cfg o d); [done|].
    destruct (check_is_rate_limited_cases cfg now (wf_id o)
                (reset_workflow_temporary_states o d)) as [[H ->]|[H ->]];
      cbv zeta in H; rewrite reset_cache in H; cbn [snd].
    + by rewrite (proj2 (Z.leb_le _ _) H).
    + by rewrite (proj2 (Z.leb_gt _ _) H).
  - unfold before_run. cbv zeta.
    rewrite (check_too_many_errors_histories cfg o d
               (reset_workflow_temporary_states o d)) by apply reset_frame.
    destruct (_check_too_many_errors cfg o d); [apply reset_cache|].
    destruct (check_is_rate_limited_cases cfg now (wf_id o)
                (reset_workflow_temporary_states o d)) as [[H ->]|[H ->]];
      cbn; by rewrite reset_cache.
Qed.

End RunProperties.

(* ===================================================================== *)
(** ** Properties of the test run toggle and of publication *)
(* ===================================================================== *)

Section TestRunProperties.

Variable ALLOW_TEST_RUN_MINUTES : Z.
Variable can_immediately_be_tested : AutomationWorkflow → RunDb → bool.
Variable workflow_get_trigger : AutomationWorkflow → RunDb → Exception + AutomationNode.
Variable has_sample_data : AutomationNode → Z → RunDb → bool.

Implicit Types (d : RunDb) (workflow : AutomationWorkflow).

Lemma alter_alter_id {A} (f g : A → A) (m : gmap Z A) i x :
  m !! i = Some x → g (f x) = x → alter g i (alter f i m) = m.
Proof.
  intros Hx Hgf. apply map_eq. intros j.
  destruct (decide (i = j)) as [<-|Hne].
  - rewrite !lookup_alter_eq, Hx. cbn. by rewrite Hgf.
  - by rewrite !lookup_alter_ne.
Qed.

Lemma toggle_test_run_armed (now : Z) workflow (simulate_until_node : option Z) d :
  allow_test_run_until workflow ≠ None ∨ simulate_until_node_id workflow ≠ None →
  toggle_test_run ALLOW_TEST_RUN_MINUTES can_immediately_be_tested
    workflow_get_trigger has_sample_data now workflow simulate_until_node d
  = (reset_instance workflow, reset_workflow_temporary_states workflow d, [], None).
Proof.
  intros Harmed. unfold toggle_test_run.
  assert (bool_decide (simulate_until_node_id workflow ≠ None)
          || bool_decide (allow_test_run_until workflow ≠ None) = true) as ->; [|done].
  apply orb_true_iff. destruct Harmed; [right|left]; by apply bool_decide_eq_true_2.
Qed.

Lemma toggle_test_run_unarmed (now : Z) workflow (simulate_until_node : option Z) d :
  allow_test_run_until workflow = None →
  simulate_until_node_id workflow = None →
  let r := toggle_test_run ALLOW_TEST_RUN_MINUTES can_immediately_be_tested
             workflow_get_trigger has_sample_data now workflow simulate_until_node d in
  (r.1.1.1, r.1.1.2)
  = set_workflow_temporary_states ALLOW_TEST_RUN_MINUTES now workflow
      simulate_until_node d.
Proof.
  intros Ht Hs. cbv zeta. unfold toggle_test_run. rewrite Ht, Hs.
  rewrite !bool_decide_eq_false_2 by (intros H; by apply H). cbn [orb].
  destruct simulate_until_node as [n|].
  - destruct (set_workflow_temporary_states _ _ _ _ _) as [w1 d1].
    by destruct (workflow_get_trigger _ _).
  - by destruct (set_workflow_temporary_states _ _ _ _ _) as [w1 d1].
Qed.

(** X20.  Toggling a test run on a workflow that is waiting for one cancels
    it: both temporary states are cleared, on the instance and on its row,
    and nothing is queued, whatever simulation target is passed.  No other
    workflow row is touched. *)
Theorem toggle_test_run_cancels (now : Z) workflow (simulate_until_node : option Z) d :
  workflows d !! wf_id workflow = Some (wf_row workflow) →
  allow_test_run_until workflow ≠ None ∨ simulate_until_node_id workflow ≠ None →
  let r := toggle_test_run ALLOW_TEST_RUN_MINUTES can_immediately_be_tested
             workflow_get_trigger has_sample_data now workflow simulate_until_node d in
  r.1.2 = [] ∧ r.2 = None
  ∧ temporary_states r.1.1.1 = (None, None)
  ∧ workflows r.1.1.2 !! wf_id workflow = Some (wf_row r.1.1.1)
  ∧ state r.1.1.1 = state workflow
  ∧ (∀ i, i ≠ wf_id workflow → workflows r.1.1.2 !! i = workflows d !! i)
  ∧ workflow_signals r.1.1.2 = workflow_signals d ++ [wf_id workflow].
Proof.
  intros Hrow Harmed. cbv zeta. rewrite toggle_test_run_armed by done.
  cbn [fst snd]. split_and!; try done.
  - unfold reset_workflow_temporary_states.
    destruct workflow as [id [a s t u]]. cbn in *.
    destruct t, u; cbn; by rewrite ?lookup_alter_eq, Hrow.
  - intros i Hi. by apply reset_flags_frame.
  - unfold reset_workflow_temporary_states.
    destruct (allow_test_run_until workflow), (simulate_until_node_id workflow);
      try done. by destruct Harmed.
Qed.

(** X21.  Toggling twice is a round trip: from a workflow with neither
    temporary state set, the first toggle sets exactly one of them (the test
    window, or the simulation target when one is passed), and a second
    toggle, with whatever target, puts the instance and the workflow table
    back as they were and queues nothing. *)
Theorem toggle_test_run_twice (now now' : Z) workflow
    (simulate_until_node simulate_until_node' : option Z) d :
  workflows d !! wf_id workflow = Some (wf_row workflow) →
  allow_test_run_until workflow = None →
  simulate_until_node_id workflow = None →
  let toggle :=
    toggle_test_run ALLOW_TEST_RUN_MINUTES can_immediately_be_tested
      workflow_get_trigger has_sample_data in
  let r1 := toggle now workflow simulate_until_node d in
  let r2 := toggle now' r1.1.1.1 simulate_until_node' r1.1.1.2 in
  temporary_states r1.1.1.1 =
    match simulate_until_node with
    | Some n => (None, Some n)
    | None => (Some (now + timedelta_minutes ALLOW_TEST_RUN_MINUTES), None)
    end
  ∧ workflows r1.1.1.2 !! wf_id workflow = Some (wf_row r1.1.1.1)
  ∧ r2.1.1.1 = workflow
  ∧ workflows r2.1.1.2 = workflows d
  ∧ r2.1.2 = [] ∧ r2.2 = None
  ∧ histories r2.1.1.2 = histories d
  ∧ nodes r2.1.1.2 = nodes d
  ∧ rate_limit_cache r2.1.1.2 = rate_limit_cache d.
Proof.
  intros Hrow Ht Hs. cbv zeta.
  pose proof (toggle_test_run_unarmed now workflow simulate_until_node d Ht Hs) as H1.
  cbv zeta in H1.
  set (r1 := toggle_test_run _ _ _ _ now workflow simulate_until_node d) in *.
  destruct r1 as [[[w1 d1] tasks1] e1]. cbn [fst snd] in *.
  destruct workflow as [id [a s t u]]. cbn in Ht, Hs, Hrow. subst t u.
  assert (Harmed : allow_test_run_until w1 ≠ None ∨ simulate_until_node_id w1 ≠ None).
  { destruct simulate_until_node; injection H1 as -> ->; [by right|by left]. }
  rewrite toggle_test_run_armed by done. cbn [fst snd].
  destruct simulate_until_node as [n|]; injection H1 as -> ->;
    (split_and!; try done;
     [ cbn; by rewrite lookup_alter_eq, Hrow
     | unfold reset_workflow_temporary_states; cbn;
       by apply alter_alter_id with (x := {| automation_id := a; state := s;
            allow_test_run_until := None; simulate_until_node_id := None |}) ]).
Qed.

End TestRunProperties.

Section PublishedProperties.

Variable first_workflow : list AutomationWorkflow → option AutomationWorkflow.
Hypothesis first_workflow_elem :
  ∀ l x, first_workflow l = Some x → x ∈ l.

Lemma last_key_Some {A} (m : gmap Z A) k : last_key m = Some k → is_Some (m !! k).
Proof.
  unfold last_key. revert k.
  apply (map_fold_weak_ind
           (λ (b : option Z) (m : gmap Z A), ∀ k, b = Some k → is_Some (m !! k))
           (λ k (_ : A) acc, Some (match acc with Some j => Z.max k j | None => k end))).
  - done.
  - intros i x m' b Hi IH k [= Hk]. rewrite lookup_insert.
    case_decide; [by eexists|].
    destruct b as [j|]; [|congruence].
    apply IH. f_equal. lia.
Qed.

(** X22.  The published workflow leads back to the workflow it was published
    from: whatever [get_published_workflow] returns for a workflow,
    [get_original_workflow] maps to the row of that workflow. *)
Theorem get_published_workflow_original (workflow published : AutomationWorkflow)
    (d : RunDb) :
  workflows d !! wf_id workflow = Some (wf_row workflow) →
  get_published_workflow first_workflow workflow d = Some published →
  get_original_workflow published d = Some workflow
  ∧ workflows d !! wf_id published = Some (wf_row published)
  ∧ ∃ a, automations d !! automation_id published = Some a
         ∧ published_from_id a = Some (wf_id workflow).
Proof.
  intros Hrow. unfold get_published_workflow. cbv zeta.
  destruct (last_key _) as [k|] eqn:Hk; [|done]. cbn.
  apply last_key_Some in Hk as [a Ha].
  apply map_lookup_filter_Some in Ha as [Ha Hfrom]. cbn in Hfrom.
  intros Hp%first_workflow_elem.
  apply list_elem_of_fmap in Hp as ([i r] & -> & Hir).
  apply elem_of_map_to_list, map_lookup_filter_Some in Hir as [Hir Haut].
  cbn in *. split_and!; [|done|by exists a; rewrite Haut].
  unfold get_original_workflow. cbn. rewrite Haut, Ha. cbn.
  rewrite Hfrom, Hrow. cbn. by destruct workflow.
Qed.

End PublishedProperties.

(* ===================================================================== *)
(** ** The further properties on the sample workflows *)
(* ===================================================================== *)

Lemma rate_limit_window_is_bounded_witness :
  Z.of_nat (length [Datetime 70000000; Datetime 100000000]) ≤ 3
  ∧ last [Datetime 70000000; Datetime 100000000] = Some (Datetime 100000000)
  ∧ Forall (λ v, ∃ t, v = Datetime t
                 ∧ (100000000 - timedelta_seconds 60 < t ∨ t = 100000000))
      [Datetime 70000000; Datetime 100000000]
  ∧ ∀ v, v ∈ [Datetime 70000000; Datetime 100000000] →
         v ∈ ex_cache_data ∨ v = Datetime 100000000.
Proof.
  exact (rate_limit_window_is_bounded ex_cfg 100000000 ex_cache_data
           [Datetime 70000000; Datetime 100000000] eq_refl).
Defined.

Lemma rate_limit_sliding_window_witness :
  let admitted := (admitted_runs ex_cfg 1 ex_times (ex_run_db [])).1 in
  Z.of_nat (length (List.filter (λ b, 70000000 - timedelta_seconds 60 <? b)
                      (take 4 admitted))) ≤ 3
  ∧ ∀ j b, (j + Z.to_nat 3)%nat = 3%nat → admitted !! j = Some b →
           b + timedelta_seconds 60 ≤ 70000000.
Proof.
  apply (rate_limit_sliding_window ex_cfg 1 ex_times (ex_run_db []) 3 70000000).
  - unfold ex_times. repeat (constructor; try lia).
  - vm_compute. reflexivity.
Defined.

Lemma move_node_values_undo_witness :
  let move := (move_node ex_order_before ex_X ex_Y None None ex_chain).1 in
  let moved := (move_node ex_order_before ex_X ex_Y None None ex_chain).2 in
  ∃ updates1 db1 updates2 db2,
    update_next_nodes_values (destination_old_next_nodes_values move) moved
      = Some (updates1, db1)
    ∧ update_next_nodes_values (origin_old_next_nodes_values move) db1
      = Some (updates2, db2)
    ∧ (update_node (move_node_node move)
         {| uk_label := None;
            uk_previous_node_id := Some (origin_previous_node_id move);
            uk_previous_node_output := Some (origin_previous_node_output move) |}
         db2).2
      = <[2 := set_order (order (move_node_node move)) (node_row ex_X)]> ex_chain.
Proof.
  exact (move_node_values_undo ex_order_before ex_X ex_Y None None ex_chain eq_refl).
Defined.

Lemma create_node_adds_one_action_witness :
  let r := AutomationNodeService.create_node unit ex_allow_all ex_order_before
             ex_last_node_id tt ex_action_type 1 (Some ex_A_next) ex_no_kwargs
             ex_service_db in
  (∀ e, r.2 = inl e → r.1 = ex_service_db)
  ∧ (∀ new_node, r.2 = inr new_node →
       AutomationNodeService.node_table ex_service_db !! node_id new_node = None
       ∧ (∀ i, is_Some (AutomationNodeService.node_table r.1 !! i)
               ↔ i = node_id new_node
                 ∨ is_Some (AutomationNodeService.node_table ex_service_db !! i))
       ∧ get_node (node_id new_node) (AutomationNodeService.node_table r.1)
         = Some new_node
       ∧ AutomationNodeService.signals r.1 =
           AutomationNodeService.signals ex_service_db
             ++ [AutomationNodeService.automation_node_created (node_id new_node)]
       ∧ ∀ i, is_trigger_row (AutomationNodeService.node_table r.1) i
              = is_trigger_row (AutomationNodeService.node_table ex_service_db) i).
Proof.
  refine (create_node_adds_one_action unit ex_allow_all ex_order_before
            ex_last_node_id tt ex_action_type 1 (Some ex_A_next) ex_no_kwargs
            ex_service_db _).
  intros b Hb. injection Hb as <-. exists (ex_row ex_action_type (Some 2) "" 3).
  reflexivity.
Defined.

Lemma create_before_head_witness :
  let N := (create_node ex_order_before ex_last_node_id ex_trigger_type 1
              (Some ex_T) ex_no_kwargs ex_chain).1 in
  let db' := (create_node ex_order_before ex_last_node_id ex_trigger_type 1
                (Some ex_T) ex_no_kwargs ex_chain).2 in
  ex_chain !! node_id N = None
  ∧ previous_node_id N = None
  ∧ db' !! node_id N = Some (node_row N)
  ∧ db' !! node_id ex_T =
      Some (if str_truthy (previous_node_output ex_T)
            then set_previous_node_output "" ex_T else node_row ex_T)
  ∧ ∀ i r, ex_chain !! i = Some r → i ≠ node_id ex_T →
      db' !! i =
      Some (if follows 1 (node_id ex_T) (Some (previous_node_output ex_T)) r
               && negb (trashed r)
            then set_previous_node_id (Some (node_id N)) r else r).
Proof.
  exact (create_before_head ex_order_before ex_last_node_id ex_trigger_type 1
           ex_T ex_no_kwargs ex_chain eq_refl eq_refl eq_refl).
Defined.

Lemma dispatch_node_stays_in_workflow_witness :
  let st' := (dispatch_node ex_service_ok ex_chain 10 ex_T ex_run_state).1 in
  ∃ r j, ex_chain !! 3 = Some r ∧ trashed r = false
         ∧ workflow_id r = workflow_id ex_T
         ∧ previous_node_id r = Some j ∧ Dispatched j ∈ effects st'.
Proof.
  apply (dispatch_node_stays_in_workflow ex_service_ok ex_chain 10 ex_T
           ex_run_state 3).
  - vm_compute. do 2 apply list_elem_of_further. apply list_elem_of_here.
  - vm_compute. apply not_elem_of_nil.
  - discriminate.
Defined.

Lemma dispatch_node_stops_at_failure_witness :
  ∃ i, last (effects (dispatch_node ex_service_failing ex_chain 10 ex_T
                        ex_run_state).1)
       = Some (Dispatched i).
Proof.
  apply (dispatch_node_stops_at_failure ex_service_failing ex_chain 10 ex_T
           ex_run_state _
           (translate_exception ex_X (OtherDispatchException "refused"))).
  - vm_compute. reflexivity.
  - discriminate.
Defined.

Lemma rate_limited_run_is_recorded_as_error_witness :
  ∃ d' h,
    start_workflow ex_service_ok 10 true ex_cfg ex_clock ex_published "" None
      ex_full_window = Some (d', [])
    ∧ histories d' = h :: histories ex_full_window
    ∧ history_workflow h = wf_id ex_draft
    ∧ status h = ERROR
    ∧ message h = rate_limited_message
    ∧ completed_on h = Some (completion_time ex_clock)
    ∧ rate_limit_cache d' = rate_limit_cache ex_full_window
    ∧ nodes d' = nodes ex_full_window
    ∧ ∀ i, state <$> workflows d' !! i = state <$> workflows ex_full_window !! i.
Proof.
  apply (rate_limited_run_is_recorded_as_error ex_service_ok 10 true ex_cfg
           ex_clock ex_published "" ex_full_window ex_draft).
  - reflexivity.
  - reflexivity.
  - vm_compute. discriminate.
Defined.

Lemma simulated_run_leaves_no_history_witness :
  ∃ d' effs,
    start_workflow ex_service_ok 10 true ex_cfg ex_clock ex_draft "" (Some 2)
      (ex_run_db ex_three_errors)
    = Some (d', effs)
    ∧ histories d' = histories (ex_run_db ex_three_errors)
    ∧ nodes d' = nodes (ex_run_db ex_three_errors)
    ∧ automations d' = automations (ex_run_db ex_three_errors)
    ∧ (_check_too_many_errors ex_cfg ex_draft (ex_run_db ex_three_errors) = None →
       let recent :=
         List.filter
           (in_window (rate_limit_now ex_clock
                       - timedelta_seconds
                           (AUTOMATION_WORKFLOW_RATE_LIMIT_CACHE_EXPIRY_SECONDS ex_cfg)))
           (default [] (rate_limit_cache (ex_run_db ex_three_errors) !! wf_id ex_draft)) in
       Z.of_nat (length recent) < AUTOMATION_WORKFLOW_RATE_LIMIT_MAX_RUNS ex_cfg →
       rate_limit_cache d' !! wf_id ex_draft
       = Some (recent ++ [Datetime (rate_limit_now ex_clock)]))
    ∧ (_check_too_many_errors ex_cfg ex_draft (ex_run_db ex_three_errors) ≠ None →
       effs = []
       ∧ rate_limit_cache d' = rate_limit_cache (ex_run_db ex_three_errors)
       ∧ (is_Some (workflows (ex_run_db ex_three_errors) !! wf_id ex_draft) →
          state <$> workflows d' !! wf_id ex_draft = Some DISABLED)).
Proof.
  exact (simulated_run_leaves_no_history ex_service_ok 10 true ex_cfg ex_clock
           ex_draft "" 2 (ex_run_db ex_three_errors) ex_draft eq_refl).
Defined.

Lemma toggle_test_run_cancels_witness :
  let r := toggle_test_run 5 ex_cannot_test ex_no_trigger ex_no_sample 1000000
             ex_draft (Some 2) (ex_run_db []) in
  r.1.2 = [] ∧ r.2 = None
  ∧ temporary_states r.1.1.1 = (None, None)
  ∧ workflows r.1.1.2 !! wf_id ex_draft = Some (wf_row r.1.1.1)
  ∧ state r.1.1.1 = state ex_draft
  ∧ (∀ i, i ≠ wf_id ex_draft → workflows r.1.1.2 !! i = workflows (ex_run_db []) !! i)
  ∧ workflow_signals r.1.1.2 = workflow_signals (ex_run_db []) ++ [wf_id ex_draft].
Proof.
  apply (toggle_test_run_cancels 5 ex_cannot_test ex_no_trigger ex_no_sample
           1000000 ex_draft (Some 2) (ex_run_db [])).
  - reflexivity.
  - left. discriminate.
Defined.

Lemma toggle_test_run_twice_witness :
  let toggle := toggle_test_run 5 ex_cannot_test ex_no_trigger ex_no_sample in
  let r1 := toggle 1000000 ex_published None (ex_run_db []) in
  let r2 := toggle 2000000 r1.1.1.1 (Some 2) r1.1.1.2 in
  temporary_states r1.1.1.1 = (Some (1000000 + timedelta_minutes 5), None)
  ∧ workflows r1.1.1.2 !! wf_id ex_published = Some (wf_row r1.1.1.1)
  ∧ r2.1.1.1 = ex_published
  ∧ workflows r2.1.1.2 = workflows (ex_run_db [])
  ∧ r2.1.2 = [] ∧ r2.2 = None
  ∧ histories r2.1.1.2 = histories (ex_run_db [])
  ∧ nodes r2.1.1.2 = nodes (ex_run_db [])
  ∧ rate_limit_cache r2.1.1.2 = rate_limit_cache (ex_run_db []).
Proof.
  exact (toggle_test_run_twice 5 ex_cannot_test ex_no_trigger ex_no_sample
           1000000 2000000 ex_published None (Some 2) (ex_run_db [])
           eq_refl eq_refl eq_refl).
Defined.

Lemma get_published_workflow_original_witness :
  get_original_workflow ex_published (ex_run_db []) = Some ex_draft
  ∧ workflows (ex_run_db []) !! wf_id ex_published = Some (wf_row ex_published)
  ∧ ∃ a, automations (ex_run_db []) !! automation_id ex_published = Some a
         ∧ published_from_id a = Some (wf_id ex_draft).
Proof.
  apply (get_published_workflow_original head
           (λ l x H, head_Some_elem_of l x H) ex_draft ex_published (ex_run_db [])).
  - reflexivity.
  - vm_compute. reflexivity.
Defined.
